(** * Plant monitoring system: GPS sentence pipeline and telemetry encoder

    A shallow embedding of
    - [sensors/gps/gps.c]   (line reassembly in the UART interrupt handler,
                             GGA sentence parser, single-slot mailbox),
    - [gps_thread.c]        (position worker writing the shared store),
    - [main.c] of phase 3   (encoder filling the packed LoRaWAN record,
                             downlink commands, the join loop of the
                             final [main.c]),
    - [sensors_thread.c]    (environment worker) and the drivers it calls:
      [adc.c], [accel.c], [temp_hum.c], [color.c], and [rgb_led.c],
    together with the properties of these functions and of the program
    they make up.

    Conventions.
    - [char] and [uint8_t] values are [ascii]; C strings are [list ascii]
      read up to the first NUL.
    - [float] is IEEE-754 binary32, every operation rounded to nearest-even
      on its own (no extended precision, no fused multiply-add), built on
      the parametric operations of [SpecFloat] at precision 24.
    - [atomic_t] is a signed 32-bit [long]; integers are [Z] and every
      narrowing cast is written out as a wrap-around. *)

From Stdlib Require Import ZArith List Ascii String Bool Lia QArith.
From Stdlib Require Import SpecFloat.
From stdpp Require Import base list.
Import ListNotations.

#[local] Open Scope Z_scope.

(* ================================================================== *)
(** ** Machine integers *)

Module CInt.

(** Value of a [w]-bit unsigned cast. *)
Definition uint (w : Z) (z : Z) : Z := z mod 2 ^ w.

(** Value of a [w]-bit two's-complement cast. *)
Definition sint (w : Z) (z : Z) : Z := (z + 2 ^ (w - 1)) mod 2 ^ w - 2 ^ (w - 1).

Definition uint8 := uint 8.
Definition uint16 := uint 16.
Definition uint32 := uint 32.
Definition int8 := sint 8.
Definition int16 := sint 16.
Definition int32 := sint 32.

(** [a / b] on [long]: truncation towards zero. *)
Definition sdiv (a b : Z) : Z := Z.quot a b.

(** [a * b] on [long]; an overflow is undefined in C and wraps on the
    target. *)
Definition smul32 (a b : Z) : Z := int32 (a * b).

(** [a / b] on [unsigned long]; [None] is the division fault. *)
Definition udiv32 (a b : Z) : option Z :=
  if uint32 b =? 0 then None else Some (uint32 a / uint32 b).

(** Little-endian bytes of the low [n] bytes of [z]. *)
Fixpoint le_bytes (n : nat) (z : Z) : list Z :=
  match n with
  | O => []
  | S n' => z mod 256 :: le_bytes n' (z / 256)
  end.

End CInt.
Import CInt.

(* ================================================================== *)
(** ** Single-precision arithmetic *)

Module B32.

Definition prec : Z := 24.
Definition emax : Z := 128.

Definition f32 : Type := spec_float.

Definition fadd : f32 -> f32 -> f32 := SFadd prec emax.
Definition fsub : f32 -> f32 -> f32 := SFsub prec emax.
Definition fmul : f32 -> f32 -> f32 := SFmul prec emax.
Definition fdiv : f32 -> f32 -> f32 := SFdiv prec emax.
Definition fneg : f32 -> f32 := SFopp.
Definition feqb : f32 -> f32 -> bool := SFeqb.

Definition fzero : f32 := S754_zero false.

(** [(float) z] for an integer [z]. *)
Definition of_int (z : Z) : f32 := binary_normalize prec emax z 0 false.

(** The literal whose decimal value is [p / q], rounded to nearest. *)
Definition of_ratio (p q : positive) : f32 :=
  let '(mz, ez, lz) := SFdiv_core_binary prec emax (Zpos p) 0 (Zpos q) 0 in
  binary_round_aux prec emax false mz ez lz.

(** Integer part of a finite number, rounding towards zero. *)
Definition trunc (f : f32) : Z :=
  match f with
  | S754_finite s m e =>
      let a := match e with
               | Zneg k => Z.shiftr (Zpos m) (Zpos k)
               | _ => Z.shiftl (Zpos m) e
               end in
      if s then - a else a
  | _ => 0
  end.

(** [(int32_t) f] and [(int) f]: truncation; out of range the conversion
    is undefined in C, on the target it saturates and a NaN gives 0. *)
Definition to_int32 (f : f32) : Z :=
  match f with
  | S754_infinity s => if s then - 2 ^ 31 else 2 ^ 31 - 1
  | _ => Z.max (- 2 ^ 31) (Z.min (2 ^ 31 - 1) (trunc f))
  end.

(** Exact rational value of a finite number (0 for the others). *)
Definition to_Q (f : f32) : Q :=
  match f with
  | S754_finite s m e =>
      let a := match e with
               | Zneg k => Qmake (Zpos m) (2 ^ k)
               | _ => inject_Z (Zpos m * 2 ^ e)
               end in
      if s then Qopp a else a
  | _ => inject_Z 0
  end.

End B32.
Import B32.

(* ================================================================== *)
(** ** Characters and C strings *)

Definition code (c : ascii) : Z := Z.of_N (N_of_ascii c).

Definition NUL : ascii := Ascii.zero.

Definition chr (s : string) : ascii :=
  match s with
  | String c _ => c
  | EmptyString => NUL
  end.

Definition str (s : string) : list ascii := list_ascii_of_string s.

(** The C string stored in a character array. *)
Fixpoint cstr (buf : list ascii) : list ascii :=
  match buf with
  | [] => []
  | c :: buf' => if Ascii.eqb c NUL then [] else c :: cstr buf'
  end.

(** [s[0]] of a C string: the terminator when it is empty. *)
Definition first_char (s : list ascii) : ascii :=
  match s with
  | [] => NUL
  | c :: _ => c
  end.

Fixpoint is_prefix (p s : list ascii) : bool :=
  match p, s with
  | [], _ => true
  | _ :: _, [] => false
  | a :: p', b :: s' => Ascii.eqb a b && is_prefix p' s'
  end.

(** [strstr(hay, needle) != NULL]. *)
Fixpoint strstr (hay needle : list ascii) : bool :=
  is_prefix needle hay ||
  match hay with
  | [] => false
  | _ :: hay' => strstr hay' needle
  end.

Definition is_digit (c : ascii) : bool :=
  (code (chr "0") <=? code c) && (code c <=? code (chr "9")).

(** [c - '0'] *)
Definition digit_val (c : ascii) : Z := code c - code (chr "0").

Definition strlen (s : list ascii) : nat := length (cstr s).

(** The parts of libc the parser calls. *)
Class LibC := {
  (** [(float) atof(s)] *)
  atof : list ascii -> f32;
  atoi : list ascii -> Z
}.

(* ================================================================== *)
(** ** gps.c: the sentence parser *)

Module Gps.

Definition BUF_SIZE : nat := 128.
Definition MAX_FIELDS : nat := 16.

Record gps_data_t := {
  lat : f32;
  lon : f32;
  alt : f32;
  sats : Z;
  hdop : f32;
  utc_time : list ascii
}.

(** Locals of the scanning loop of [nmea_to_degrees]. *)
Record nmea_acc := {
  value : f32;
  decimal : f32;
  seen_dot : bool;
  divisor : f32
}.

Definition nmea_acc_init : nmea_acc :=
  {| value := fzero; decimal := fzero; seen_dot := false; divisor := of_int 10 |}.

(** One digit of the loop body. *)
Definition nmea_digit (a : nmea_acc) (c : ascii) : nmea_acc :=
  if negb (seen_dot a) then
    {| value := fadd (fmul (value a) (of_int 10)) (of_int (digit_val c));
       decimal := decimal a;
       seen_dot := seen_dot a;
       divisor := divisor a |}
  else
    {| value := value a;
       decimal := fadd (decimal a) (fdiv (of_int (digit_val c)) (divisor a));
       seen_dot := seen_dot a;
       divisor := fmul (divisor a) (of_int 10) |}.

(** [for (int i = 0; nmea[i]; i++)], leaving at the first character that is
    neither a digit nor a dot. *)
Fixpoint nmea_scan (s : list ascii) (a : nmea_acc) : nmea_acc :=
  match s with
  | [] => a
  | c :: s' =>
      if is_digit c then nmea_scan s' (nmea_digit a c)
      else if Ascii.eqb c (chr ".") then
        nmea_scan s' {| value := value a; decimal := decimal a;
                        seen_dot := true; divisor := divisor a |}
      else a
  end.

(** Degrees-and-minutes to decimal degrees, the tail of [nmea_to_degrees]:
    [degrees] is an [int], [minutes] and the result are [float]. *)
Definition dm_to_degrees (v : f32) : f32 :=
  let degrees := to_int32 (fdiv v (of_int 100)) in
  let minutes := fsub v (fmul (of_int degrees) (of_int 100)) in
  fadd (of_int degrees) (fdiv minutes (of_int 60)).

Definition is_south_or_west (dir : ascii) : bool :=
  Ascii.eqb dir (chr "S") || Ascii.eqb dir (chr "W").

Definition nmea_to_degrees (nmea : option (list ascii)) (dir : ascii) : f32 :=
  match nmea with
  | None => fzero
  | Some s =>
      if (strlen s <? 4)%nat then fzero
      else
        let a := nmea_scan s nmea_acc_init in
        let result := dm_to_degrees (fadd (value a) (decimal a)) in
        if is_south_or_west dir then fneg result else result
  end.

(** The splitting loop of [parse_gga], entered with [idx] fields started:
    the text of the field in progress and the fields that follow it.  Once
    [idx] reaches [MAX_FIELDS] the rest of the buffer stays in the last
    field. *)
Fixpoint split_from (s : list ascii) (idx : nat) : list ascii * list (list ascii) :=
  match s with
  | [] => ([], [])
  | c :: s' =>
      if (idx <? MAX_FIELDS)%nat then
        if Ascii.eqb c (chr ",") then
          ([], let '(f, fs) := split_from s' (S idx) in f :: fs)
        else
          let '(f, fs) := split_from s' idx in (c :: f, fs)
      else (s, [])
  end.

(** The non-NULL entries of [fields], after [strncpy] into [buf]. *)
Definition split_fields (line : list ascii) : list (list ascii) :=
  let '(f, fs) := split_from (take (BUF_SIZE - 1) (cstr line)) 1 in f :: fs.

Definition parse_gga {libc : LibC} (line : list ascii) : option gps_data_t :=
  let fields := split_fields line in
  match fields !! 0%nat with
  | None => None
  | Some f0 =>
      if negb (strstr f0 (str "GGA")) then None
      else
        match fields !! 2%nat, fields !! 3%nat, fields !! 4%nat, fields !! 5%nat with
        | Some f2, Some f3, Some f4, Some f5 =>
            Some {| lat := nmea_to_degrees (Some f2) (first_char f3);
                    lon := nmea_to_degrees (Some f4) (first_char f5);
                    alt := match fields !! 9%nat with Some f => atof f | None => fzero end;
                    sats := match fields !! 7%nat with Some f => atoi f | None => 0 end;
                    hdop := match fields !! 8%nat with Some f => atof f | None => fzero end;
                    utc_time := match fields !! 1%nat with
                                | Some f => take 15 f
                                | None => []
                                end |}
        | _, _, _, _ => None
        end
  end.

(** *** The interrupt handler and the mailbox *)

(** The file-scope variables of gps.c.  [line_pos] is a [uint8_t] that the
    handler keeps below [BUF_SIZE], so it never wraps. *)
Record gps_state := {
  nmea_line : list ascii;
  line_pos : nat;
  parsed_data : gps_data_t;
  parsed_sem : nat
}.

(** [k_sem_give] on a semaphore of limit 1. *)
Definition k_sem_give (count : nat) : nat := Nat.min (S count) 1.

(** The first half of the loop body: restart on ['$'], append while there
    is room, drop the byte otherwise. *)
Definition isr_store (st : gps_state) (c : ascii) : gps_state :=
  if Ascii.eqb c (chr "$") then
    {| nmea_line := <[0%nat := c]> (nmea_line st);
       line_pos := 1;
       parsed_data := parsed_data st;
       parsed_sem := parsed_sem st |}
  else if (line_pos st <? BUF_SIZE - 1)%nat then
    {| nmea_line := <[line_pos st := c]> (nmea_line st);
       line_pos := S (line_pos st);
       parsed_data := parsed_data st;
       parsed_sem := parsed_sem st |}
  else st.

(** The line handed to [strstr] and [parse_gga] when the terminator comes. *)
Definition candidate_line (st : gps_state) : list ascii :=
  cstr (<[line_pos st := NUL]> (nmea_line st)).

(** The second half, run when the byte was a newline. *)
Definition isr_line_end {libc : LibC} (st : gps_state) : gps_state :=
  let buf := <[line_pos st := NUL]> (nmea_line st) in
  let line := cstr buf in
  if strstr line (str "$GPGGA") || strstr line (str "$GNGGA") then
    match parse_gga line with
    | Some tmp =>
        {| nmea_line := buf; line_pos := 0;
           parsed_data := tmp; parsed_sem := k_sem_give (parsed_sem st) |}
    | None =>
        {| nmea_line := buf; line_pos := 0;
           parsed_data := parsed_data st; parsed_sem := parsed_sem st |}
    end
  else
    {| nmea_line := buf; line_pos := 0;
       parsed_data := parsed_data st; parsed_sem := parsed_sem st |}.

Definition newline : ascii := ascii_of_nat 10.

(** One byte read from the FIFO. *)
Definition isr_byte {libc : LibC} (st : gps_state) (c : ascii) : gps_state :=
  let st1 := isr_store st c in
  if Ascii.eqb c newline then isr_line_end st1 else st1.

(** [uart_isr] over the bytes the FIFO delivers. *)
Definition uart_isr {libc : LibC} (st : gps_state) (fifo : list ascii) : gps_state :=
  fold_left isr_byte fifo st.

Definition EAGAIN : Z := 11.

(** [k_sem_take] with a timeout, on the semaphore as it stands when the
    wait ends: a unit given meanwhile is taken, none is a timeout. *)
Definition k_sem_take (count : nat) : Z * nat :=
  match count with
  | O => (- EAGAIN, O)
  | S n => (0, n)
  end.

(** [gps_wait_for_gga(out, timeout)] with a non-NULL [out]: the return
    value, the contents of [*out] and the state of the module. *)
Definition gps_wait_for_gga (st : gps_state) (out : gps_data_t)
  : Z * gps_data_t * gps_state :=
  let '(ret, count) := k_sem_take (parsed_sem st) in
  if ret <? 0 then (ret, out, st)
  else (0, parsed_data st,
        {| nmea_line := nmea_line st; line_pos := line_pos st;
           parsed_data := parsed_data st; parsed_sem := count |}).

End Gps.

(* ================================================================== *)
(** ** main.h: the shared measurement store *)

Module MainH.

Record system_measurement := {
  brightness : Z;
  moisture : Z;
  accel_x : Z;
  accel_y : Z;
  accel_z : Z;
  temp : Z;
  hum : Z;
  red : Z;
  green : Z;
  blue : Z;
  clear : Z;
  gps_lat : Z;
  gps_lon : Z;
  gps_alt : Z;
  gps_sats : Z;
  gps_time : Z
}.

(** The five slots owned by the position worker. *)
Definition set_gps_position (m : system_measurement) (la lo al : Z) : system_measurement :=
  {| brightness := brightness m; moisture := moisture m;
     accel_x := accel_x m; accel_y := accel_y m; accel_z := accel_z m;
     temp := temp m; hum := hum m;
     red := red m; green := green m; blue := blue m; clear := clear m;
     gps_lat := la; gps_lon := lo; gps_alt := al;
     gps_sats := gps_sats m; gps_time := gps_time m |}.

Definition set_gps_sats (m : system_measurement) (v : Z) : system_measurement :=
  {| brightness := brightness m; moisture := moisture m;
     accel_x := accel_x m; accel_y := accel_y m; accel_z := accel_z m;
     temp := temp m; hum := hum m;
     red := red m; green := green m; blue := blue m; clear := clear m;
     gps_lat := gps_lat m; gps_lon := gps_lon m; gps_alt := gps_alt m;
     gps_sats := v; gps_time := gps_time m |}.

Definition set_gps_time (m : system_measurement) (v : Z) : system_measurement :=
  {| brightness := brightness m; moisture := moisture m;
     accel_x := accel_x m; accel_y := accel_y m; accel_z := accel_z m;
     temp := temp m; hum := hum m;
     red := red m; green := green m; blue := blue m; clear := clear m;
     gps_lat := gps_lat m; gps_lon := gps_lon m; gps_alt := gps_alt m;
     gps_sats := gps_sats m; gps_time := v |}.

End MainH.

(* ================================================================== *)
(** ** gps_thread.c: the position worker *)

Module GpsThread.
Import Gps MainH.

(** [s[i]] of a C string held in a 16-byte array, as an [int]. *)
Definition char_at (s : list ascii) (i : nat) : Z :=
  match s !! i with
  | Some c => code c
  | None => 0
  end.

(** The HHMMSS integer, with the hour advanced by one. *)
Definition encode_time (t : list ascii) : Z :=
  let zero := code (chr "0") in
  let hh := (char_at t 0 - zero) * 10 + (char_at t 1 - zero) + 1 in
  let mm := (char_at t 2 - zero) * 10 + (char_at t 3 - zero) in
  let ss := (char_at t 4 - zero) * 10 + (char_at t 5 - zero) in
  hh * 10000 + mm * 100 + ss.

Definition f1e6 : f32 := of_int 1000000.
Definition f100 : f32 := of_int 100.

(** [read_gps_data]: the module state of gps.c, the worker's persistent
    buffer [*data] and the store before and after one call. *)
Definition read_gps_data (st : gps_state) (data : gps_data_t) (measure : system_measurement)
  : gps_state * gps_data_t * system_measurement :=
  let '(ret, data1, st1) := gps_wait_for_gga st data in
  if ret =? 0 then
    let m1 :=
      if feqb (lat data1) fzero && feqb (lon data1) fzero && feqb (alt data1) fzero then
        set_gps_position measure
          (to_int32 (fmul (of_ratio 35709662 1000000) f1e6))
          (to_int32 (fmul (of_ratio 139810793 1000000) f1e6))
          (to_int32 (fmul (of_int 100) f100))
      else
        set_gps_position measure
          (to_int32 (fmul (lat data1) f1e6))
          (to_int32 (fmul (lon data1) f1e6))
          (to_int32 (fmul (alt data1) f100)) in
    let m2 := set_gps_sats m1 (int32 (sats data1)) in
    let m3 :=
      if (6 <=? strlen (utc_time data1))%nat
      then set_gps_time m2 (encode_time (utc_time data1))
      else set_gps_time m2 (-1) in
    (st1, data1, m3)
  else (st1, data1, measure).

End GpsThread.

(* ================================================================== *)
(** ** main.c (phase 3): the telemetry encoder *)

Module Main.
Import MainH.

(** [struct main_measurement], packed. *)
Record main_measurement := {
  lat : Z;          (* int32_t *)
  lon : Z;          (* int32_t *)
  alt : Z;          (* int32_t *)
  time : list Z;    (* uint8_t [3] *)
  sats : Z;         (* uint8_t *)
  temp : Z;         (* int16_t *)
  hum : Z;          (* uint16_t *)
  light : Z;        (* uint16_t *)
  moisture : Z;     (* uint16_t *)
  r_norm : Z;       (* uint8_t *)
  g_norm : Z;       (* uint8_t *)
  b_norm : Z;       (* uint8_t *)
  x_axis : Z;       (* int8_t *)
  y_axis : Z;       (* int8_t *)
  z_axis : Z        (* int8_t *)
}.

(** The initializer of [main_data]. *)
Definition main_data_init : main_measurement :=
  {| lat := 0; lon := 0; alt := 0; time := [0; 0; 0]; sats := 0;
     temp := 0; hum := 0; light := 0; moisture := 0;
     r_norm := 0; g_norm := 0; b_norm := 0;
     x_axis := 0; y_axis := 0; z_axis := 0 |}.

(** The initializer of [measure]. *)
Definition measure_init : system_measurement :=
  {| brightness := 0; MainH.moisture := 0;
     accel_x := 0; accel_y := 0; accel_z := 0;
     MainH.temp := 0; MainH.hum := 0;
     red := 0; green := 0; blue := 0; clear := 0;
     gps_lat := 0; gps_lon := 0; gps_alt := 0; gps_sats := 0; gps_time := 0 |}.

(** [(uint8_t)((atomic_get(&channel) * 100) / clear)]: the product is a
    [long], the quotient is taken on [unsigned long]. *)
Definition normalize (channel clear : Z) : option Z :=
  match udiv32 (smul32 channel 100) clear with
  | Some q => Some (uint8 q)
  | None => None
  end.

(** [get_measurements]: [main_data] before the call and the store give
    [main_data] after it; [None] if the call divides by zero. *)
Definition get_measurements (measure : system_measurement) (main_data : main_measurement)
  : option main_measurement :=
  let full_time := uint32 (gps_time measure) in
  let clear := uint32 (MainH.clear measure) in
  let colors :=
    if 0 <? clear then
      match normalize (red measure) clear,
            normalize (green measure) clear,
            normalize (blue measure) clear with
      | Some r, Some g, Some b => Some (r, g, b)
      | _, _, _ => None
      end
    else Some (r_norm main_data, g_norm main_data, b_norm main_data) in
  match colors with
  | None => None
  | Some (r, g, b) =>
      Some {| lat := int32 (gps_lat measure);
              lon := int32 (gps_lon measure);
              alt := int32 (gps_alt measure);
              sats := uint8 (gps_sats measure);
              time := [uint8 (full_time / 10000);
                       uint8 ((full_time / 100) mod 100);
                       uint8 (full_time mod 100)];
              temp := int16 (MainH.temp measure);
              hum := uint16 (MainH.hum measure);
              light := uint16 (brightness measure);
              moisture := uint16 (MainH.moisture measure);
              r_norm := r; g_norm := g; b_norm := b;
              x_axis := int8 (sdiv (accel_x measure) 10);
              y_axis := int8 (sdiv (accel_y measure) 10);
              z_axis := int8 (sdiv (accel_z measure) 10) |}
  end.

(** The [sizeof(main_data)] bytes handed to [lorawan_send], little-endian
    and without padding. *)
Definition main_data_bytes (d : main_measurement) : list Z :=
  le_bytes 4 (lat d) ++ le_bytes 4 (lon d) ++ le_bytes 4 (alt d) ++
  map (fun b => b mod 256) (time d) ++ le_bytes 1 (sats d) ++
  le_bytes 2 (temp d) ++ le_bytes 2 (hum d) ++
  le_bytes 2 (light d) ++ le_bytes 2 (moisture d) ++
  le_bytes 1 (r_norm d) ++ le_bytes 1 (g_norm d) ++ le_bytes 1 (b_norm d) ++
  le_bytes 1 (x_axis d) ++ le_bytes 1 (y_axis d) ++ le_bytes 1 (z_axis d).

End Main.

Import Gps MainH GpsThread.

(* ================================================================== *)
(** ** Vocabulary of the statements *)

(** [c] does not occur in [s]. *)
Definition lacks (c : ascii) (s : list ascii) : bool :=
  forallb (fun x => negb (Ascii.eqb x c)) s.

(** Number of commas of a line. *)
Fixpoint commas (s : list ascii) : nat :=
  match s with
  | [] => 0
  | c :: s' => (if Ascii.eqb c (chr ",") then 1 else 0) + commas s'
  end.

(** The text in front of the first comma. *)
Fixpoint until_comma (s : list ascii) : list ascii :=
  match s with
  | [] => []
  | c :: s' => if Ascii.eqb c (chr ",") then [] else c :: until_comma s'
  end.

(** What [parse_gga] looks at: the line as copied by [strncpy]. *)
Definition copied (line : list ascii) : list ascii :=
  take (BUF_SIZE - 1) (cstr line).

(** The two ways of being malformed: no family marker in field 0, or
    fewer than six comma-separated fields. *)
Definition malformed (line : list ascii) : Prop :=
  strstr (until_comma line) (str "GGA") = false \/
  (S (commas line) < 6)%nat.

(** The part of the module state a consumer can observe. *)
Definition mailbox (st : gps_state) : gps_data_t * nat :=
  (parsed_data st, parsed_sem st).

(** The handler keeps the line buffer at its declared size and the write
    index inside it. *)
Definition gps_state_ok (st : gps_state) : Prop :=
  length (nmea_line st) = BUF_SIZE /\ (line_pos st < BUF_SIZE)%nat.


(** The module state at start-up: zero-initialized statics and the
    semaphore as [k_sem_init(&parsed_sem, 0, 1)] leaves it. *)
Definition gps_data_zero : gps_data_t :=
  {| lat := fzero; lon := fzero; alt := fzero; sats := 0; hdop := fzero; utc_time := [] |}.

Definition gps_state_init : gps_state :=
  {| nmea_line := repeat NUL BUF_SIZE; line_pos := 0;
     parsed_data := gps_data_zero; parsed_sem := 0 |}.

(** The integer that the leading decimal digits of [s] denote, continuing
    from [acc]. *)
Fixpoint leading_digits (s : list ascii) (acc : Z) : Z :=
  match s with
  | [] => acc
  | c :: s' => if is_digit c then leading_digits s' (acc * 10 + digit_val c) else acc
  end.

(** A stand-in for libc in closed examples: both conversions read the
    leading decimal digits.  Altitude, satellite count and dilution, the
    only fields it feeds, play no part in those examples. *)
Definition libc_digits : LibC :=
  {| atof := fun s => of_int (leading_digits s 0);
     atoi := fun s => leading_digits s 0 |}.

(** *** Vocabulary for the coordinate fields *)

(** What the scanning loop makes of the digits before the dot ... *)
Definition int_step (v : f32) (c : ascii) : f32 :=
  fadd (fmul v (of_int 10)) (of_int (digit_val c)).

Definition int_part (ip : list ascii) : f32 := fold_left int_step ip fzero.

(** ... and of the digits after it: the running sum and the next divisor. *)
Definition frac_step (a : f32 * f32) (c : ascii) : f32 * f32 :=
  (fadd (fst a) (fdiv (of_int (digit_val c)) (snd a)), fmul (snd a) (of_int 10)).

Definition frac_part (fp : list ascii) : f32 :=
  fst (fold_left frac_step fp (fzero, of_int 10)).

(** The single-precision value of the field [ip.fp]. *)
Definition nmea_value (ip fp : list ascii) : f32 :=
  fadd (int_part ip) (frac_part fp).

(** The sign rule. *)
Definition hemisphere (dir : ascii) (x : f32) : f32 :=
  if is_south_or_west dir then fneg x else x.

(** A coordinate field [ip.fp]: digits around one dot, four characters at
    least. *)
Definition coord_ok (ip fp : list ascii) : bool :=
  forallb is_digit ip && forallb is_digit fp && (4 <=? length ip + 1 + length fp)%nat.

(** A sentence written as its comma-separated fields. *)
Fixpoint join (fs : list (list ascii)) : list ascii :=
  match fs with
  | [] => []
  | [f] => f
  | f :: fs' => f ++ chr "," :: join fs'
  end.

Definition field_ok (f : list ascii) : bool := lacks (chr ",") f && lacks NUL f.

(** At most [MAX_FIELDS] fields, none of which holds a comma or a NUL,
    on a line that fits the buffer. *)
Definition sentence_ok (fs : list (list ascii)) : bool :=
  forallb field_ok fs && (length fs <=? MAX_FIELDS)%nat
  && (length (join fs) <=? BUF_SIZE - 1)%nat.

(** The two spellings the handler lets through. *)
Definition recognized (line : list ascii) : bool :=
  strstr line (str "$GPGGA") || strstr line (str "$GNGGA").

(** Degrees plus minutes over sixty in exact arithmetic: the integer value
    of [ip] without its last two digits, and the rest as minutes. *)
Definition exact_degrees (ip fp : list ascii) (dir : ascii) : Q :=
  let v := leading_digits ip 0 in
  let minutes := Qplus (inject_Z (v mod 100))
                       (Qmake (leading_digits fp 0) (Pos.of_nat (10 ^ length fp))) in
  let r := Qplus (inject_Z (v / 100)) (Qdiv minutes (inject_Z 60)) in
  if is_south_or_west dir then Qopp r else r.

(** *** Stores and records used in the examples *)

(** The store of the end-to-end scenario. *)
Definition scenario_store : system_measurement :=
  {| brightness := 500; moisture := 300;
     accel_x := 100; accel_y := -50; accel_z := 980;
     temp := 2550; hum := 6000;
     red := 50; green := 30; blue := 20; clear := 100;
     gps_lat := 35709662; gps_lon := 139810793; gps_alt := 10000;
     gps_sats := 7; gps_time := 123456 |}.

(** The same store once the clear channel reads zero. *)
Definition dark_store : system_measurement :=
  {| brightness := 500; moisture := 300;
     accel_x := 100; accel_y := -50; accel_z := 980;
     temp := 2550; hum := 6000;
     red := 50; green := 30; blue := 20; clear := 0;
     gps_lat := 35709662; gps_lon := 139810793; gps_alt := 10000;
     gps_sats := 7; gps_time := 123456 |}.

(** The three colour bytes and the three acceleration bytes of a record. *)
Definition color_bytes (d : Main.main_measurement) : Z * Z * Z :=
  (Main.r_norm d, Main.g_norm d, Main.b_norm d).

Definition accel_bytes (d : Main.main_measurement) : Z * Z * Z :=
  (Main.x_axis d, Main.y_axis d, Main.z_axis d).

(** A mailbox holding one unread record. *)
Definition mailbox_with (d : gps_data_t) : gps_state :=
  {| nmea_line := repeat NUL BUF_SIZE; line_pos := 0;
     parsed_data := d; parsed_sem := 1 |}.

(** A fix without position, as a receiver reports before it has one. *)
Definition no_fix_record : gps_data_t :=
  {| lat := fzero; lon := fzero; alt := fzero; sats := 0; hdop := fzero;
     utc_time := str "123519" |}.

(** A record whose time field came empty. *)
Definition no_time_record : gps_data_t :=
  {| lat := of_int 35; lon := of_int 139; alt := of_int 40; sats := 5;
     hdop := of_int 1; utc_time := [] |}.

(** The record [get_measurements] leaves in [main_data], field by field,
    with the guarded division carried out. *)
Definition encoded (measure : system_measurement) (main_data : Main.main_measurement)
  : Main.main_measurement :=
  let full_time := uint32 (gps_time measure) in
  let c := uint32 (clear measure) in
  let norm channel previous :=
    if 0 <? c then uint8 (uint32 (smul32 channel 100) / c) else previous in
  {| Main.lat := int32 (gps_lat measure);
     Main.lon := int32 (gps_lon measure);
     Main.alt := int32 (gps_alt measure);
     Main.sats := uint8 (gps_sats measure);
     Main.time := [uint8 (full_time / 10000);
                   uint8 ((full_time / 100) mod 100);
                   uint8 (full_time mod 100)];
     Main.temp := int16 (temp measure);
     Main.hum := uint16 (hum measure);
     Main.light := uint16 (brightness measure);
     Main.moisture := uint16 (moisture measure);
     Main.r_norm := norm (red measure) (Main.r_norm main_data);
     Main.g_norm := norm (green measure) (Main.g_norm main_data);
     Main.b_norm := norm (blue measure) (Main.b_norm main_data);
     Main.x_axis := int8 (sdiv (accel_x measure) 10);
     Main.y_axis := int8 (sdiv (accel_y measure) 10);
     Main.z_axis := int8 (sdiv (accel_z measure) 10) |}.


(** *** Sentences used in the examples *)

(** A GGA sentence with the given latitude field, terminator included. *)
Definition gga_sentence (latitude : list ascii) : list (list ascii) :=
  [str "$GPGGA"; str "123519"; latitude; str "N"; str "13948.6476"; str "E";
   str "1"; str "08"; str "0.9"; str "545.4"; str "M"; str "46.9"; str "M";
   []; str "*47" ++ [newline]].

(* ================================================================== *)
(** ** Driver calls *)

(** [a / b] on [int]: [None] is the division fault. *)
Definition sdiv32 (a b : Z) : option Z :=
  if b =? 0 then None else Some (int32 (Z.quot a b)).

(** What an I2C transfer leaves behind: its return code and the receive
    buffer. *)
Record i2c_xfer := {
  i2c_ret : Z;
  i2c_buf : list Z
}.

(** [buf[i]] of a [uint8_t] array. *)
Definition byte_at (buf : list Z) (i : nat) : Z :=
  match buf !! i with
  | Some b => uint8 b
  | None => 0
  end.

(* ================================================================== *)
(** ** adc.c *)

Module Adc.

Record adc_config := {
  channel_id : Z;        (* uint8_t *)
  resolution : Z;        (* uint8_t *)
  acquisition_time : Z;  (* uint32_t *)
  vref_mv : Z            (* int32_t *)
}.

(** What the two driver calls of [adc_read_raw] return, and the sample the
    conversion leaves in [sample_buffer]. *)
Record adc_hw := {
  setup_ret : Z;
  read_ret : Z;
  sample : Z
}.

(** [adc_read_raw]: the return value and [*raw_val]. *)
Definition adc_read_raw (hw : adc_hw) (raw_val : Z) : Z * Z :=
  if setup_ret hw <? 0 then (setup_ret hw, raw_val)
  else if read_ret hw <? 0 then (read_ret hw, raw_val)
  else (0, int16 (sample hw)).

(** [adc_read_voltage]: the return value and [*out_mv]; [None] when the
    resolution makes the divisor zero. *)
Definition adc_read_voltage (cfg : adc_config) (hw : adc_hw) (out_mv : Z) : option (Z * Z) :=
  let '(ret, raw_val) := adc_read_raw hw 0 in
  if ret <? 0 then Some (ret, out_mv)
  else
    match sdiv32 (smul32 raw_val (vref_mv cfg))
                 (int32 (int32 (Z.shiftl 1 (resolution cfg)) - 1)) with
    | Some mv => Some (0, mv)
    | None => None
    end.

End Adc.

(* ================================================================== *)
(** ** accel.c *)

Module Accel.

Definition ACCEL_2G : Z := 0.
Definition ACCEL_4G : Z := 1.
Definition ACCEL_8G : Z := 2.

(** [(int16_t)(((int16_t)((msb << 8) | lsb)) >> 2)] *)
Definition accel_word (msb lsb : Z) : Z :=
  int16 (Z.shiftr (int16 (Z.lor (Z.shiftl msb 8) lsb)) 2).

(** [accel_read_xyz], given the outcome of the six-byte register read: the
    return value and [*x], [*y], [*z]. *)
Definition accel_read_xyz (regs : i2c_xfer) (xyz : Z * Z * Z) : Z * (Z * Z * Z) :=
  if i2c_ret regs <? 0 then (i2c_ret regs, xyz)
  else
    let buf := i2c_buf regs in
    (0, (accel_word (byte_at buf 0) (byte_at buf 1),
         accel_word (byte_at buf 2) (byte_at buf 3),
         accel_word (byte_at buf 4) (byte_at buf 5))).

Definition sensitivity (range : Z) : f32 :=
  if range =? ACCEL_2G then of_int 4096
  else if range =? ACCEL_4G then of_int 2048
  else of_int 1024.

Definition accel_convert_to_g (raw range : Z) : f32 :=
  fdiv (of_int raw) (sensitivity range).

Definition accel_convert_to_ms2 (raw range : Z) : f32 :=
  fmul (fdiv (of_int raw) (sensitivity range)) (of_ratio 980665 100000).

End Accel.

(* ================================================================== *)
(** ** temp_hum.c *)

Module TempHum.

(** [((uint16_t)buf[0] << 8) | buf[1]] *)
Definition raw16 (buf : list Z) : Z :=
  uint16 (Z.lor (Z.shiftl (byte_at buf 0) 8) (byte_at buf 1)).

Definition fltb : f32 -> f32 -> bool := SFltb.

(** [temp_hum_read_humidity], given the outcome of the two-byte read: the
    return value and [*humidity]. *)
Definition temp_hum_read_humidity (xfer : i2c_xfer) (humidity : f32) : Z * f32 :=
  if i2c_ret xfer <? 0 then (i2c_ret xfer, humidity)
  else
    let raw_rh := raw16 (i2c_buf xfer) in
    let rh := fsub (fdiv (fmul (of_int 125) (of_int raw_rh)) (of_int 65536)) (of_int 6) in
    let rh := if fltb rh fzero then fzero else rh in
    let rh := if fltb (of_int 100) rh then of_int 100 else rh in
    (0, rh).

(** The conversion shared by [temp_hum_read_temperature] and the sensors
    thread. *)
Definition temperature_of (raw_temp : Z) : f32 :=
  fsub (fdiv (fmul (of_ratio 17572 100) (of_int raw_temp)) (of_int 65536))
       (of_ratio 4685 100).

Definition temp_hum_read_temperature (xfer : i2c_xfer) (temperature : f32) : Z * f32 :=
  if i2c_ret xfer <? 0 then (i2c_ret xfer, temperature)
  else (0, temperature_of (raw16 (i2c_buf xfer))).

End TempHum.

(* ================================================================== *)
(** ** color.c *)

Module Color.

Record ColorSensorData := {
  clear : Z;   (* uint16_t *)
  red : Z;     (* uint16_t *)
  green : Z;   (* uint16_t *)
  blue : Z     (* uint16_t *)
}.

(** [(buf[hi] << 8) | buf[lo]] stored in a [uint16_t]. *)
Definition channel (buf : list Z) (lo hi : nat) : Z :=
  uint16 (Z.lor (Z.shiftl (byte_at buf hi) 8) (byte_at buf lo)).

(** [color_read_rgb], given the outcome of the eight-byte read: the return
    value and [*data]. *)
Definition color_read_rgb (xfer : i2c_xfer) (data : ColorSensorData) : Z * ColorSensorData :=
  if i2c_ret xfer <? 0 then (i2c_ret xfer, data)
  else
    let buf := i2c_buf xfer in
    let c := channel buf 0 1 in
    (0, {| clear := if c =? 0 then 1 else c;
           red := channel buf 2 3;
           green := channel buf 4 5;
           blue := channel buf 6 7 |}).

End Color.

(* ================================================================== *)
(** ** rgb_led.c *)

Module RgbLed.

Definition BUS_SIZE : nat := 3.

(** A call of [gpio_pin_set_dt]: the index of the pin and the value. *)
Definition gpio_call : Type := nat * Z.

(** The loop of [rgb_led_write] from pin [i] on, [todo] pins to go.
    [gpio i v] is what [gpio_pin_set_dt] returns for pin [i] and value [v];
    the result is the return value and the calls made. *)
Fixpoint rgb_led_write_from (gpio : nat -> Z -> Z) (value : Z) (i todo : nat)
  : Z * list gpio_call :=
  match todo with
  | O => (0, [])
  | S todo' =>
      let pin_value := Z.land (Z.shiftr value (Z.of_nat i)) 1 in
      let ret := gpio i pin_value in
      if ret =? 0 then
        let '(r, calls) := rgb_led_write_from gpio value (S i) todo' in
        (r, (i, pin_value) :: calls)
      else (ret, [(i, pin_value)])
  end.

Definition rgb_led_write (gpio : nat -> Z -> Z) (pin_count : nat) (value : Z)
  : Z * list gpio_call :=
  rgb_led_write_from gpio value 0 pin_count.

Definition rgb_led_on gpio pin_count := rgb_led_write gpio pin_count 7.
Definition rgb_led_off gpio pin_count := rgb_led_write gpio pin_count 0.
Definition rgb_red gpio pin_count := rgb_led_write gpio pin_count 1.
Definition rgb_green gpio pin_count := rgb_led_write gpio pin_count 2.
Definition rgb_blue gpio pin_count := rgb_led_write gpio pin_count 4.
Definition rgb_yellow gpio pin_count := rgb_led_write gpio pin_count 3.
Definition rgb_cyan gpio pin_count := rgb_led_write gpio pin_count 6.
Definition rgb_purple gpio pin_count := rgb_led_write gpio pin_count 5.
Definition rgb_white gpio pin_count := rgb_led_write gpio pin_count 7.
Definition rgb_black gpio pin_count := rgb_led_write gpio pin_count 0.

End RgbLed.

(* ================================================================== *)
(** ** sensors_thread.c: the environment worker *)

Module SensorsThread.
Import Adc Accel TempHum.

Definition set_brightness (m : system_measurement) (v : Z) : system_measurement :=
  {| brightness := v; moisture := moisture m;
     accel_x := accel_x m; accel_y := accel_y m; accel_z := accel_z m;
     temp := temp m; hum := hum m;
     red := red m; green := green m; blue := blue m; clear := clear m;
     gps_lat := gps_lat m; gps_lon := gps_lon m; gps_alt := gps_alt m;
     gps_sats := gps_sats m; gps_time := gps_time m |}.

Definition set_moisture (m : system_measurement) (v : Z) : system_measurement :=
  {| brightness := brightness m; moisture := v;
     accel_x := accel_x m; accel_y := accel_y m; accel_z := accel_z m;
     temp := temp m; hum := hum m;
     red := red m; green := green m; blue := blue m; clear := clear m;
     gps_lat := gps_lat m; gps_lon := gps_lon m; gps_alt := gps_alt m;
     gps_sats := gps_sats m; gps_time := gps_time m |}.

Definition set_accel (m : system_measurement) (x y z : Z) : system_measurement :=
  {| brightness := brightness m; moisture := moisture m;
     accel_x := x; accel_y := y; accel_z := z;
     temp := temp m; hum := hum m;
     red := red m; green := green m; blue := blue m; clear := clear m;
     gps_lat := gps_lat m; gps_lon := gps_lon m; gps_alt := gps_alt m;
     gps_sats := gps_sats m; gps_time := gps_time m |}.

Definition set_temp_hum (m : system_measurement) (t h : Z) : system_measurement :=
  {| brightness := brightness m; moisture := moisture m;
     accel_x := accel_x m; accel_y := accel_y m; accel_z := accel_z m;
     temp := t; hum := h;
     red := red m; green := green m; blue := blue m; clear := clear m;
     gps_lat := gps_lat m; gps_lon := gps_lon m; gps_alt := gps_alt m;
     gps_sats := gps_sats m; gps_time := gps_time m |}.

Definition set_color (m : system_measurement) (r g b c : Z) : system_measurement :=
  {| brightness := brightness m; moisture := moisture m;
     accel_x := accel_x m; accel_y := accel_y m; accel_z := accel_z m;
     temp := temp m; hum := hum m;
     red := r; green := g; blue := b; clear := c;
     gps_lat := gps_lat m; gps_lon := gps_lon m; gps_alt := gps_alt m;
     gps_sats := gps_sats m; gps_time := gps_time m |}.

(** [read_adc_percentage], with the slot [*target] given by its setter:
    [*mv] and the store after the call; [None] when a division faults. *)
Definition read_adc_percentage (cfg : adc_config) (hw : adc_hw)
    (target : system_measurement -> Z -> system_measurement)
    (mv : Z) (measure : system_measurement) : option (Z * system_measurement) :=
  match adc_read_voltage cfg hw mv with
  | None => None
  | Some (ret, mv1) =>
      if ret =? 0 then
        match sdiv32 (smul32 mv1 1000) (vref_mv cfg) with
        | Some percent10 => Some (mv1, target measure percent10)
        | None => None
        end
      else Some (mv1, measure)
  end.

(** The value an axis slot receives: [(int32_t)(x_val * 100)]. *)
Definition accel_slot (raw range : Z) : Z :=
  to_int32 (fmul (accel_convert_to_ms2 raw range) (of_int 100)).

Definition read_accelerometer (regs : i2c_xfer) (range : Z) (measure : system_measurement)
  : system_measurement :=
  let '(ret, (x_raw, y_raw, z_raw)) := accel_read_xyz regs (0, 0, 0) in
  if ret =? 0 then
    set_accel measure (accel_slot x_raw range) (accel_slot y_raw range)
              (accel_slot z_raw range)
  else measure.

(** [read_temperature_humidity], given the outcome of the humidity read and
    of the read of the temperature that goes with it. *)
Definition read_temperature_humidity (rh_xfer temp_xfer : i2c_xfer)
    (measure : system_measurement) : system_measurement :=
  let '(ret, humidity) := temp_hum_read_humidity rh_xfer fzero in
  if ret =? 0 then
    if i2c_ret temp_xfer =? 0 then
      let temperature := temperature_of (raw16 (i2c_buf temp_xfer)) in
      set_temp_hum measure
        (to_int32 (fmul temperature (of_int 100)))
        (to_int32 (fmul humidity (of_int 100)))
    else measure
  else measure.

Definition color_data_zero : Color.ColorSensorData :=
  {| Color.clear := 0; Color.red := 0; Color.green := 0; Color.blue := 0 |}.

Definition read_color_sensor (xfer : i2c_xfer) (measure : system_measurement)
  : system_measurement :=
  let '(ret, color_data) := Color.color_read_rgb xfer color_data_zero in
  if ret =? 0 then
    set_color measure (Color.red color_data) (Color.green color_data)
              (Color.blue color_data) (Color.clear color_data)
  else measure.

(** What the peripherals answer during one pass of the thread. *)
Record sensor_inputs := {
  pt_hw : adc_hw;
  sm_hw : adc_hw;
  accel_regs : i2c_xfer;
  rh_regs : i2c_xfer;
  temp_regs : i2c_xfer;
  color_regs : i2c_xfer
}.

(** The part of [struct system_context] the thread reads. *)
Record sensors_context := {
  phototransistor : adc_config;
  soil_moisture : adc_config;
  accel_range : Z
}.

(** One pass of the loop of [sensors_thread_fn], between the two
    semaphore operations: the thread's [mv] and the store. *)
Definition sensors_pass (ctx : sensors_context) (inp : sensor_inputs)
    (mv : Z) (measure : system_measurement) : option (Z * system_measurement) :=
  match read_adc_percentage (phototransistor ctx) (pt_hw inp) set_brightness mv measure with
  | None => None
  | Some (mv1, m1) =>
      match read_adc_percentage (soil_moisture ctx) (sm_hw inp) set_moisture mv1 m1 with
      | None => None
      | Some (mv2, m2) =>
          let m3 := read_accelerometer (accel_regs inp) (accel_range ctx) m2 in
          let m4 := read_temperature_humidity (rh_regs inp) (temp_regs inp) m3 in
          Some (mv2, read_color_sensor (color_regs inp) m4)
      end
  end.

End SensorsThread.

(* ================================================================== *)
(** ** main.c: downlink commands and the join loop *)

Module MainApp.
Import RgbLed.

(** [strncmp(s1, s2, n)], both strings read as NUL-terminated. *)
Fixpoint strncmp (s1 s2 : list ascii) (n : nat) : Z :=
  match n with
  | O => 0
  | S n' =>
      let c1 := first_char s1 in
      let c2 := first_char s2 in
      if negb (Ascii.eqb c1 c2) then code c1 - code c2
      else if Ascii.eqb c1 NUL then 0
      else strncmp (tl s1) (tl s2) n'
  end.

(** [dl_callback]: the calls of [gpio_pin_set_dt] it makes.  [rgb_leds] has
    [BUS_SIZE] pins. *)
Definition dl_callback (gpio : nat -> Z -> Z) (len : nat) (hex_data : option (list ascii))
  : list gpio_call :=
  match hex_data with
  | None => []
  | Some d =>
      if strncmp d (str "OFF") len =? 0 then snd (rgb_led_off gpio BUS_SIZE)
      else if strncmp d (str "Green") len =? 0 then snd (rgb_green gpio BUS_SIZE)
      else if strncmp d (str "Red") len =? 0 then snd (rgb_red gpio BUS_SIZE)
      else []
  end.

Definition NUM_MAX_RETRIES : Z := 30.
Definition ETIMEDOUT : Z := 116.

(** The loop of [join_lorawan].  [join k] is what the [k]-th call of
    [lorawan_join] returns; the result is the return value and the number
    of calls made, [None] when [fuel] iterations did not end the loop. *)
Fixpoint join_loop (join : nat -> Z) (calls : nat) (retries : Z) (fuel : nat)
  : option (Z * nat) :=
  match fuel with
  | O => None
  | S fuel' =>
      if join calls <? 0 then
        let retries' := uint8 (retries + 1) in
        if NUM_MAX_RETRIES <? retries' then Some (- ETIMEDOUT, S calls)
        else join_loop join (S calls) retries' fuel'
      else Some (0, S calls)
  end.

Definition join_lorawan (join : nat -> Z) (fuel : nat) : option (Z * nat) :=
  join_loop join 0 0 fuel.

End MainApp.

(* ================================================================== *)
(** ** Vocabulary of the further statements *)

(** The channels as [main.c] configures them: 12 bits, 3300 mV. *)
Definition pt_config : Adc.adc_config :=
  {| Adc.channel_id := 5; Adc.resolution := 12;
     Adc.acquisition_time := 0; Adc.vref_mv := 3300 |}.

Definition sm_config : Adc.adc_config :=
  {| Adc.channel_id := 0; Adc.resolution := 12;
     Adc.acquisition_time := 0; Adc.vref_mv := 3300 |}.

Definition main_context : SensorsThread.sensors_context :=
  {| SensorsThread.phototransistor := pt_config;
     SensorsThread.soil_moisture := sm_config;
     SensorsThread.accel_range := Accel.ACCEL_2G |}.

(** A conversion that delivers [raw]. *)
Definition adc_sample (raw : Z) : Adc.adc_hw :=
  {| Adc.setup_ret := 0; Adc.read_ret := 0; Adc.sample := raw |}.

(** A conversion that fails in the read. *)
Definition adc_failure (code : Z) : Adc.adc_hw :=
  {| Adc.setup_ret := 0; Adc.read_ret := code; Adc.sample := 0 |}.

(** A transfer that delivers [buf], and one that fails. *)
Definition i2c_ok (buf : list Z) : i2c_xfer := {| i2c_ret := 0; i2c_buf := buf |}.
Definition i2c_failure (code : Z) : i2c_xfer := {| i2c_ret := code; i2c_buf := [] |}.

(** A conversion that fails, in the channel setup or in the read. *)
Definition adc_failed (hw : Adc.adc_hw) : Prop :=
  Adc.setup_ret hw < 0 \/ Adc.read_ret hw < 0.

(** Every peripheral answers with an error. *)
Definition inputs_all_failed (inp : SensorsThread.sensor_inputs) : Prop :=
  adc_failed (SensorsThread.pt_hw inp)
  /\ adc_failed (SensorsThread.sm_hw inp)
  /\ i2c_ret (SensorsThread.accel_regs inp) < 0
  /\ i2c_ret (SensorsThread.rh_regs inp) < 0
  /\ i2c_ret (SensorsThread.color_regs inp) < 0.

(** The value written to pin [i]: bit [i] of [value]. *)
Definition pin_bit (value : Z) (i : nat) : Z :=
  Z.land (Z.shiftr value (Z.of_nat i)) 1.

(** The calls of a write that gets as far as [n] pins, from pin [i] on. *)
Definition led_calls_from (value : Z) (i n : nat) : list RgbLed.gpio_call :=
  map (fun j => (j, pin_bit value j)) (seq i n).

Definition led_calls (value : Z) (n : nat) : list RgbLed.gpio_call :=
  led_calls_from value 0 n.

(** A bus on which every write succeeds, and one whose pin [k] fails. *)
Definition gpio_ok : nat -> Z -> Z := fun _ _ => 0.

Definition gpio_fails_at (k : nat) : nat -> Z -> Z :=
  fun i _ => if Nat.eqb i k then -5 else 0.

(** The payload as [strncmp] sees it: [len] bytes, cut at a NUL. *)
Definition command_text (d : list ascii) (len : nat) : list ascii :=
  cstr (take len d).

(** Range check of a predicate over [n] consecutive integers from [lo]. *)
Fixpoint range_check (P : Z -> bool) (lo : Z) (n : nat) : bool :=
  match n with
  | O => true
  | S n' => P lo && range_check P (lo + 1) n'
  end.

(** The 14-bit readings of the accelerometer. *)
Definition ACCEL_RAW_MIN : Z := -8192.
Definition ACCEL_RAW_MAX : Z := 8191.

(** What is checked of one reading at [ACCEL_2G]: the slot lies within
    1961 of zero, and the axis byte of the record carries a tenth of the
    slot unchanged exactly for the readings from -5388 to 5346. *)
Definition accel_check (raw : Z) : bool :=
  let slot := SensorsThread.accel_slot raw Accel.ACCEL_2G in
  (-1961 <=? slot) && (slot <=? 1961)
  && Bool.eqb (int8 (sdiv slot 10) =? sdiv slot 10)
              ((-5388 <=? raw) && (raw <=? 5346)).

(** A record whose fields hold values of their C types. *)
Definition record_ok (d : Main.main_measurement) : Prop :=
  (- 2 ^ 31 <= Main.lat d < 2 ^ 31)
  /\ (- 2 ^ 31 <= Main.lon d < 2 ^ 31)
  /\ (- 2 ^ 31 <= Main.alt d < 2 ^ 31)
  /\ (exists t0 t1 t2, Main.time d = [t0; t1; t2]
        /\ 0 <= t0 < 256 /\ 0 <= t1 < 256 /\ 0 <= t2 < 256)
  /\ (0 <= Main.sats d < 256)
  /\ (- 2 ^ 15 <= Main.temp d < 2 ^ 15)
  /\ (0 <= Main.hum d < 2 ^ 16)
  /\ (0 <= Main.light d < 2 ^ 16)
  /\ (0 <= Main.moisture d < 2 ^ 16)
  /\ (0 <= Main.r_norm d < 256)
  /\ (0 <= Main.g_norm d < 256)
  /\ (0 <= Main.b_norm d < 256)
  /\ (- 128 <= Main.x_axis d < 128)
  /\ (- 128 <= Main.y_axis d < 128)
  /\ (- 128 <= Main.z_axis d < 128).

(** A complete line as the receiver sends it: ['$'], the text, the
    terminator. *)
Definition framed (ys : list ascii) : list ascii := chr "$" :: ys ++ [newline].

(** The line the handler hands to the parser for [framed ys]. *)
Definition framed_line (ys : list ascii) : list ascii :=
  cstr (take (BUF_SIZE - 1) (framed ys)).

(** The value of a two-digit field. *)
Definition two_digits (a b : ascii) : Z := digit_val a * 10 + digit_val b.

(** *** Further sentences and records used in the examples *)

Definition first_fix : list ascii :=
  str "GPGGA,123519,4807.038,N,01131.000,E,1,08,0.9,545.4,M,46.9,M,,*47".

Definition second_fix : list ascii :=
  str "GNGGA,123520,4807.100,N,01131.200,E,1,09,0.9,545.0,M,46.9,M,,*4A".

(** What a receiver sends before it has a position. *)
Definition searching_fix : list (list ascii) :=
  [str "$GPGGA"; str "235959"; []; []; []; []; str "0"; str "00"; [];
   []; str "M"; []; str "M"; []; str "*66" ++ [newline]].

(** A record taken one second before midnight. *)
Definition late_record : gps_data_t :=
  {| lat := of_int 35; lon := of_int 139; alt := of_int 40; sats := 5;
     hdop := of_int 1; utc_time := str "235959.00" |}.

(** The slots the position worker owns, and the slots the environment
    worker owns. *)
Definition gps_slots (m : system_measurement) : Z * Z * Z * Z * Z :=
  (gps_lat m, gps_lon m, gps_alt m, gps_sats m, gps_time m).

Definition sensor_slots (m : system_measurement) : list Z :=
  [brightness m; moisture m; accel_x m; accel_y m; accel_z m;
   temp m; hum m; red m; green m; blue m; clear m].

(** The position worker as a function on the store. *)
Definition gps_pass (st : gps_state) (data : gps_data_t) (m : system_measurement)
  : system_measurement :=
  snd (read_gps_data st data m).

(** One pass with every peripheral answering, and one with every
    peripheral failing with [-EIO]. *)
Definition sample_inputs : SensorsThread.sensor_inputs :=
  {| SensorsThread.pt_hw := adc_sample 2048;
     SensorsThread.sm_hw := adc_sample 1000;
     SensorsThread.accel_regs := i2c_ok [64; 0; 0; 0; 192; 0];
     SensorsThread.rh_regs := i2c_ok [128; 0];
     SensorsThread.temp_regs := i2c_ok [102; 76];
     SensorsThread.color_regs := i2c_ok [100; 0; 50; 0; 30; 0; 20; 0] |}.

Definition failed_inputs : SensorsThread.sensor_inputs :=
  {| SensorsThread.pt_hw := adc_failure (-5);
     SensorsThread.sm_hw := adc_failure (-5);
     SensorsThread.accel_regs := i2c_failure (-5);
     SensorsThread.rh_regs := i2c_failure (-5);
     SensorsThread.temp_regs := i2c_failure (-5);
     SensorsThread.color_regs := i2c_failure (-5) |}.

(* ================================================================== *)
(** ** The program as a whole *)

(** The variables that live from one cycle to the next: [measure] and
    [main_data] of main.c, the file-scope variables of gps.c, the buffer
    [gps_data] of the position thread and [mv] of the sensors thread. *)
Record system := {
  sys_measure : system_measurement;
  sys_main_data : Main.main_measurement;
  sys_gps : gps_state;
  sys_gps_data : gps_data_t;
  sys_mv : Z
}.

(** Their initialisers. *)
Definition system_init : system :=
  {| sys_measure := Main.measure_init;
     sys_main_data := Main.main_data_init;
     sys_gps := gps_state_init;
     sys_gps_data := gps_data_zero;
     sys_mv := 0 |}.

(** What runs, in whatever order the scheduler and the peripherals make
    it run: the handler over the bytes of the FIFO, a pass of the sensors
    thread over what the peripherals answer, a pass of the position
    thread, and [get_measurements] in the loop of [main]. *)
Inductive event :=
| Uart (fifo : list ascii)
| Sensors (inp : SensorsThread.sensor_inputs)
| Position
| Encode.

(** One of them, from the state it finds; [None] is a division fault,
    after which nothing runs. *)
Definition step {libc : LibC} (s : system) (e : event) : option system :=
  match e with
  | Uart fifo =>
      Some {| sys_measure := sys_measure s;
              sys_main_data := sys_main_data s;
              sys_gps := uart_isr (sys_gps s) fifo;
              sys_gps_data := sys_gps_data s;
              sys_mv := sys_mv s |}
  | Sensors inp =>
      match SensorsThread.sensors_pass main_context inp (sys_mv s) (sys_measure s) with
      | Some (mv, measure) =>
          Some {| sys_measure := measure;
                  sys_main_data := sys_main_data s;
                  sys_gps := sys_gps s;
                  sys_gps_data := sys_gps_data s;
                  sys_mv := mv |}
      | None => None
      end
  | Position =>
      let '(st, data, measure) :=
        read_gps_data (sys_gps s) (sys_gps_data s) (sys_measure s) in
      Some {| sys_measure := measure;
              sys_main_data := sys_main_data s;
              sys_gps := st;
              sys_gps_data := data;
              sys_mv := sys_mv s |}
  | Encode =>
      match Main.get_measurements (sys_measure s) (sys_main_data s) with
      | Some main_data =>
          Some {| sys_measure := sys_measure s;
                  sys_main_data := main_data;
                  sys_gps := sys_gps s;
                  sys_gps_data := sys_gps_data s;
                  sys_mv := sys_mv s |}
      | None => None
      end
  end.

Fixpoint run {libc : LibC} (es : list event) (s : system) : option system :=
  match es with
  | [] => Some s
  | e :: es' =>
      match step s e with
      | Some s' => run es' s'
      | None => None
      end
  end.

(** The state a history leads to from start-up. *)
Definition state_after {libc : LibC} (es : list event) : system :=
  match run es system_init with
  | Some s => s
  | None => system_init
  end.

(** The clear slot and the colour bytes of the record go together: while
    the clear slot is zero the colour bytes are zero, afterwards the clear
    slot is a non-zero 16-bit value. *)
Definition clear_guard (s : system) : Prop :=
  (clear (sys_measure s) = 0 /\ color_bytes (sys_main_data s) = (0, 0, 0))
  \/ 1 <= clear (sys_measure s) <= 65535.

(* ================================================================== *)
(** ** Single-precision constants *)

(** The constants of the sources are the numbers the compiler makes of
    them: small integers are exact, 0.1 is 13421773 * 2^-27, and the two
    coordinates of the fallback branch are not the decimals written. *)
Lemma float_constants :
  Qeq (to_Q (of_int 10)) (inject_Z 10)
  /\ Qeq (to_Q (of_int 60)) (inject_Z 60)
  /\ Qeq (to_Q (of_int 100)) (inject_Z 100)
  /\ Qeq (to_Q (of_int 1000000)) (inject_Z 1000000)
  /\ of_ratio 1 10 = S754_finite false 13421773 (-27)
  /\ of_ratio 35709662 1000000 = S754_finite false 9361074 (-18)
  /\ of_ratio 139810793 1000000 = S754_finite false 9162640 (-16).
Proof. repeat split; vm_compute; reflexivity. Qed.

(** Every constant and every example value is a canonical binary32
    number. *)
Lemma float_constants_valid :
  forallb (valid_binary prec emax)
    [of_int 10; of_int 60; of_int 100; of_int 1000000; of_ratio 1 10;
     of_ratio 35709662 1000000; of_ratio 139810793 1000000;
     of_ratio 35708333 1000000; of_ratio 57510365 1000000] = true.
Proof. vm_compute. reflexivity. Qed.

(* ================================================================== *)
(** ** C strings *)

Lemma lacks_cons c x s : lacks c (x :: s) = negb (Ascii.eqb x c) && lacks c s.
Proof. reflexivity. Qed.

Lemma lacks_app c s t : lacks c (s ++ t) = lacks c s && lacks c t.
Proof. unfold lacks. apply forallb_app. Qed.

Lemma cstr_lacks_NUL s : lacks NUL s = true -> cstr s = s.
Proof.
  induction s as [|c s IH]; simpl; [reflexivity|].
  rewrite andb_true_iff, negb_true_iff. intros [Hc Hs].
  rewrite Hc. f_equal. exact (IH Hs).
Qed.

Lemma lacks_NUL_cstr s : lacks NUL (cstr s) = true.
Proof.
  induction s as [|c s IH]; simpl; [reflexivity|].
  destruct (Ascii.eqb c NUL) eqn:E; simpl; [reflexivity|].
  rewrite E. exact IH.
Qed.

Lemma cstr_idem s : cstr (cstr s) = cstr s.
Proof. apply cstr_lacks_NUL, lacks_NUL_cstr. Qed.

Lemma cstr_length s : (length (cstr s) <= length s)%nat.
Proof.
  induction s as [|c s IH]; simpl; [lia|].
  destruct (Ascii.eqb c NUL); simpl; lia.
Qed.

(** A line that went through the buffer is copied unchanged by the parser. *)
Lemma copied_candidate buf :
  (length buf <= BUF_SIZE - 1)%nat -> copied (cstr buf) = cstr buf.
Proof.
  intros Hlen. unfold copied. rewrite cstr_idem.
  apply take_ge. pose proof (cstr_length buf). lia.
Qed.

(* ================================================================== *)
(** ** The reassembler *)

Section Reassembler.
Context {libc : LibC}.

Lemma isr_byte_other st c :
  Ascii.eqb c newline = false -> isr_byte st c = isr_store st c.
Proof. intros E. unfold isr_byte. rewrite E. reflexivity. Qed.

Lemma isr_store_mailbox st c : mailbox (isr_store st c) = mailbox st.
Proof.
  unfold isr_store.
  destruct (Ascii.eqb c (chr "$")); [reflexivity|].
  destruct (line_pos st <? BUF_SIZE - 1)%nat; reflexivity.
Qed.

Lemma isr_store_ok st c : gps_state_ok st -> gps_state_ok (isr_store st c).
Proof.
  unfold gps_state_ok, isr_store, BUF_SIZE. intros [Hlen Hpos].
  destruct (Ascii.eqb c (chr "$")); cbn [nmea_line line_pos].
  - rewrite length_insert. lia.
  - destruct (line_pos st <? 128 - 1)%nat eqn:E; cbn [nmea_line line_pos].
    + apply Nat.ltb_lt in E. rewrite length_insert. lia.
    + lia.
Qed.

Lemma isr_line_end_ok st : gps_state_ok st -> gps_state_ok (isr_line_end st).
Proof.
  unfold gps_state_ok, isr_line_end, BUF_SIZE. intros [Hlen Hpos]. cbv zeta.
  destruct (strstr _ _ || strstr _ _).
  - destruct (parse_gga _); cbn [nmea_line line_pos]; rewrite length_insert; lia.
  - cbn [nmea_line line_pos]. rewrite length_insert. lia.
Qed.

Lemma isr_byte_ok st c : gps_state_ok st -> gps_state_ok (isr_byte st c).
Proof.
  intros Hok. unfold isr_byte.
  destruct (Ascii.eqb c newline).
  - apply isr_line_end_ok, isr_store_ok, Hok.
  - apply isr_store_ok, Hok.
Qed.

Lemma gps_state_init_ok : gps_state_ok gps_state_init.
Proof. split; [reflexivity | apply Nat.ltb_lt; reflexivity]. Qed.

(** The handler preserves its invariant over any byte stream. *)
Lemma uart_isr_ok fifo : forall st, gps_state_ok st -> gps_state_ok (uart_isr st fifo).
Proof.
  unfold uart_isr.
  induction fifo as [|c fifo IH]; intros st Hok; simpl; [exact Hok|].
  apply IH, isr_byte_ok, Hok.
Qed.

Lemma uart_isr_app st xs ys : uart_isr st (xs ++ ys) = uart_isr (uart_isr st xs) ys.
Proof. unfold uart_isr. apply fold_left_app. Qed.

(** Up to the terminator the handler only stores bytes. *)
Lemma uart_isr_stores xs :
  forall st, lacks newline xs = true -> uart_isr st xs = fold_left isr_store xs st.
Proof.
  unfold uart_isr.
  induction xs as [|c xs IH]; intros st Hxs; simpl; [reflexivity|].
  rewrite lacks_cons, andb_true_iff, negb_true_iff in Hxs. destruct Hxs as [Hc Hxs].
  rewrite (isr_byte_other _ _ Hc). apply IH, Hxs.
Qed.

Lemma stores_ok xs : forall st, gps_state_ok st -> gps_state_ok (fold_left isr_store xs st).
Proof.
  induction xs as [|c xs IH]; intros st Hok; simpl; [exact Hok|].
  apply IH, isr_store_ok, Hok.
Qed.

Lemma stores_mailbox xs : forall st, mailbox (fold_left isr_store xs st) = mailbox st.
Proof.
  induction xs as [|c xs IH]; intros st; simpl; [reflexivity|].
  rewrite IH. apply isr_store_mailbox.
Qed.

(** Accumulation: bytes other than a start marker are appended after the
    [line_pos] bytes already there, up to the capacity of the buffer. *)
Lemma stores_accumulate ys :
  forall st, gps_state_ok st ->
    lacks (chr "$") ys = true ->
    let st' := fold_left isr_store ys st in
    take (line_pos st') (nmea_line st')
      = take (BUF_SIZE - 1) (take (line_pos st) (nmea_line st) ++ ys)
    /\ line_pos st' = Nat.min (line_pos st + length ys) (BUF_SIZE - 1).
Proof.
  induction ys as [|c ys IH]; intros st Hok Hd.
  - destruct Hok as [Hlen Hpos]. unfold BUF_SIZE in *. simpl.
    rewrite app_nil_r, take_take. split; [f_equal; lia | lia].
  - rewrite lacks_cons, andb_true_iff, negb_true_iff in Hd.
    destruct Hd as [Hcd Hd].
    change (fold_left isr_store (c :: ys) st) with (fold_left isr_store ys (isr_store st c)).
    pose proof (isr_store_ok st c Hok) as Hok1.
    destruct (IH _ Hok1 Hd) as [IHl IHp].
    cbv zeta. rewrite IHl, IHp. clear IHl IHp IH.
    destruct Hok as [Hlen Hpos]. unfold isr_store. rewrite Hcd.
    unfold BUF_SIZE in *.
    destruct (line_pos st <? 128 - 1)%nat eqn:E; cbn [nmea_line line_pos].
    + apply Nat.ltb_lt in E.
      rewrite take_S_r with (x := c)
        by (apply list_lookup_insert_eq; lia).
      rewrite take_insert_ge by lia.
      rewrite <- app_assoc. simpl. split; [reflexivity | lia].
    + apply Nat.ltb_ge in E.
      assert (Hl : length (take (line_pos st) (nmea_line st)) = 127%nat)
        by (rewrite length_take; lia).
      rewrite !take_app_le by lia. split; [reflexivity | lia].
Qed.

(** A start marker leaves exactly itself in the buffer. *)
Lemma isr_store_dollar st :
  gps_state_ok st ->
  let st' := isr_store st (chr "$") in
  line_pos st' = 1%nat /\ take 1 (nmea_line st') = [chr "$"].
Proof.
  intros [Hlen _]. unfold isr_store. simpl. split; [reflexivity|].
  destruct (nmea_line st) as [|b buf]; [discriminate Hlen | reflexivity].
Qed.

(** A start marker followed by such bytes: the buffer holds them and
    nothing else. *)
Lemma stores_from_dollar ys :
  forall st, gps_state_ok st ->
    lacks (chr "$") ys = true ->
    let st' := fold_left isr_store (chr "$" :: ys) st in
    take (line_pos st') (nmea_line st') = take (BUF_SIZE - 1) (chr "$" :: ys)
    /\ line_pos st' = Nat.min (S (length ys)) (BUF_SIZE - 1).
Proof.
  intros st Hok Hd.
  change (fold_left isr_store (chr "$" :: ys) st)
    with (fold_left isr_store ys (isr_store st (chr "$"))).
  destruct (stores_accumulate ys _ (isr_store_ok st (chr "$") Hok) Hd) as [Hl Hp].
  destruct (isr_store_dollar st Hok) as [H1 H2].
  cbv zeta in *. rewrite Hl, Hp, H1, H2. split; reflexivity.
Qed.

(** Writing the terminator at [n] cuts the C string there. *)
Lemma cstr_insert_NUL buf :
  forall n, (n < length buf)%nat -> cstr (<[n := NUL]> buf) = cstr (take n buf).
Proof.
  induction buf as [|b buf IH]; intros n Hn; [simpl in Hn; lia|].
  destruct n as [|n]; [reflexivity|].
  simpl. destruct (Ascii.eqb b NUL); [reflexivity|].
  f_equal. apply IH. simpl in Hn. lia.
Qed.

Lemma candidate_line_take st :
  gps_state_ok st -> candidate_line st = cstr (take (line_pos st) (nmea_line st)).
Proof.
  intros [Hlen Hpos]. unfold candidate_line. apply cstr_insert_NUL. lia.
Qed.

(** The candidate line fits the parser's copy. *)
Lemma candidate_line_copied st :
  gps_state_ok st -> copied (candidate_line st) = candidate_line st.
Proof.
  intros Hok. rewrite (candidate_line_take st Hok).
  apply copied_candidate. destruct Hok as [Hlen Hpos].
  rewrite length_take. unfold BUF_SIZE in *. lia.
Qed.

(** The line the parser is given at the terminator of a stream that began
    with a start marker. *)
Lemma candidate_after_line st ys :
  gps_state_ok st -> lacks (chr "$") ys = true ->
  candidate_line (fold_left isr_store (chr "$" :: ys ++ [newline]) st)
    = cstr (take (BUF_SIZE - 1) (chr "$" :: ys ++ [newline])).
Proof.
  intros Hok Hd.
  assert (Hd' : lacks (chr "$") (ys ++ [newline]) = true)
    by (rewrite lacks_app, Hd; reflexivity).
  rewrite candidate_line_take by (apply stores_ok, Hok).
  destruct (stores_from_dollar (ys ++ [newline]) st Hok Hd') as [Hl _].
  cbv zeta in Hl. rewrite Hl. reflexivity.
Qed.

End Reassembler.

(* ================================================================== *)
(** ** The field splitter *)

Lemma split_from_fst s :
  forall idx, (idx < MAX_FIELDS)%nat -> fst (split_from s idx) = until_comma s.
Proof.
  induction s as [|c s IH]; intros idx Hidx; [reflexivity|].
  cbn [split_from until_comma].
  apply Nat.ltb_lt in Hidx as Hb. rewrite Hb.
  destruct (Ascii.eqb c (chr ",")); [reflexivity|].
  specialize (IH idx Hidx).
  destruct (split_from s idx) as [f fs]. simpl in *. congruence.
Qed.

Lemma split_from_snd_length s :
  forall idx, (idx <= MAX_FIELDS)%nat ->
    length (snd (split_from s idx)) = Nat.min (commas s) (MAX_FIELDS - idx).
Proof.
  induction s as [|c s IH]; intros idx Hidx; [reflexivity|].
  cbn [split_from commas].
  destruct (idx <? MAX_FIELDS)%nat eqn:Hb.
  - apply Nat.ltb_lt in Hb.
    destruct (Ascii.eqb c (chr ",")).
    + assert (Hs : (S idx <= MAX_FIELDS)%nat) by lia. specialize (IH (S idx) Hs).
      destruct (split_from s (S idx)) as [f fs].
      cbn [snd length] in *. rewrite IH. lia.
    + specialize (IH idx Hidx).
      destruct (split_from s idx) as [f fs].
      cbn [snd] in *. rewrite IH. lia.
  - apply Nat.ltb_ge in Hb. cbn [snd length]. lia.
Qed.

(** Field 0 is the text before the first comma, and there is one more
    field per comma, up to the cap. *)
Lemma split_fields_shape line :
  exists fs,
    split_fields line = until_comma (copied line) :: fs /\
    length fs = Nat.min (commas (copied line)) (MAX_FIELDS - 1).
Proof.
  unfold split_fields. fold (copied line).
  pose proof (split_from_fst (copied line) 1) as H0.
  pose proof (split_from_snd_length (copied line) 1) as H1.
  destruct (split_from (copied line) 1) as [f fs]. simpl in *.
  exists fs. unfold MAX_FIELDS in *. rewrite H0, H1 by lia. split; reflexivity.
Qed.

Section ParserFailure.
Context {libc : LibC}.

(** A malformed line is rejected. *)
Lemma parse_gga_malformed line : malformed (copied line) -> parse_gga line = None.
Proof.
  intros Hbad. unfold parse_gga.
  destruct (split_fields_shape line) as (fs & -> & Hlen).
  cbn [lookup list_lookup].
  destruct Hbad as [Hgga | Hcount].
  - rewrite Hgga. reflexivity.
  - destruct (negb _); [reflexivity|].
    assert (Hfs : (length fs < 5)%nat) by lia.
    destruct fs as [|a1 [|a2 [|a3 [|a4 [|a5 fs]]]]]; try reflexivity.
    simpl in Hfs. lia.
Qed.

(** A line that is not malformed is accepted. *)
Lemma parse_gga_accepts line :
  ~ malformed (copied line) -> exists r, parse_gga line = Some r.
Proof.
  intros Hgood. unfold parse_gga.
  destruct (split_fields_shape line) as (fs & -> & Hlen).
  cbn [lookup list_lookup].
  destruct (strstr (until_comma (copied line)) (str "GGA")) eqn:Hgga.
  - assert (Hfs : ~ (S (commas (copied line)) < 6)%nat)
      by (intros Hc; apply Hgood; right; exact Hc).
    unfold MAX_FIELDS in Hlen.
    destruct fs as [|a1 [|a2 [|a3 [|a4 [|a5 fs]]]]]; simpl in Hlen; try lia.
    simpl. eexists. reflexivity.
  - exfalso. apply Hgood. left. exact Hgga.
Qed.

(** What the handler does with the mailbox at a terminator. *)
Lemma isr_line_end_rejected st :
  parse_gga (candidate_line st) = None -> mailbox (isr_line_end st) = mailbox st.
Proof.
  intros Hnone. unfold isr_line_end. cbv zeta.
  fold (candidate_line st). rewrite Hnone.
  destruct (strstr _ _ || strstr _ _); reflexivity.
Qed.

Lemma isr_line_end_published st r :
  parse_gga (candidate_line st) = Some r ->
  strstr (candidate_line st) (str "$GPGGA") || strstr (candidate_line st) (str "$GNGGA") = true ->
  mailbox (isr_line_end st) = (r, 1%nat).
Proof.
  intros Hsome Hrec. unfold isr_line_end. cbv zeta.
  fold (candidate_line st). rewrite Hsome, Hrec.
  unfold mailbox, k_sem_give. cbn [parsed_data parsed_sem]. f_equal. lia.
Qed.

End ParserFailure.

(* ================================================================== *)
(** ** Claims on the reassembler and on rejected sentences *)

(** C6. Feed the handler a start marker, bytes [xs] without a terminator,
    a second start marker and bytes [ys] that hold neither marker nor
    terminator.  Then the buffer holds the second line only (all of it
    while it fits the 127 usable bytes, its first 127 bytes otherwise),
    nothing was published on the way, and the line handed to the parser
    at the terminator is the second line. *)
Theorem reassembler_keeps_second_line {libc : LibC} (st : gps_state) (xs ys : list ascii) :
  gps_state_ok st ->
  lacks newline xs = true ->
  lacks (chr "$") ys = true ->
  lacks newline ys = true ->
  let st' := uart_isr st (chr "$" :: xs ++ chr "$" :: ys) in
  take (line_pos st') (nmea_line st') = take (BUF_SIZE - 1) (chr "$" :: ys)
  /\ ((length ys < BUF_SIZE - 1)%nat ->
      take (line_pos st') (nmea_line st') = chr "$" :: ys)
  /\ mailbox st' = mailbox st
  /\ candidate_line (isr_store st' newline)
       = cstr (take (BUF_SIZE - 1) (chr "$" :: ys ++ [newline])).
Proof.
  intros Hok Hxs Hyd Hyn st'.
  assert (Hfirst : lacks newline (chr "$" :: xs) = true)
    by (rewrite lacks_cons, Hxs; reflexivity).
  assert (Hsecond : lacks newline (chr "$" :: ys) = true)
    by (rewrite lacks_cons, Hyn; reflexivity).
  assert (Est : st' = fold_left isr_store (chr "$" :: ys) (uart_isr st (chr "$" :: xs))).
  { subst st'. change (chr "$" :: xs ++ chr "$" :: ys) with ((chr "$" :: xs) ++ chr "$" :: ys).
    rewrite uart_isr_app. apply uart_isr_stores, Hsecond. }
  pose proof (uart_isr_ok (chr "$" :: xs) st Hok) as Hok1.
  destruct (stores_from_dollar ys _ Hok1 Hyd) as [Hbuf _].
  cbv zeta in Hbuf. rewrite <- Est in Hbuf.
  split; [exact Hbuf|]. split; [|split].
  - intros Hfit. rewrite Hbuf. apply take_ge. simpl. unfold BUF_SIZE in *. lia.
  - rewrite Est, stores_mailbox, (uart_isr_stores _ _ Hfirst). apply stores_mailbox.
  - rewrite Est.
    change (isr_store (fold_left isr_store (chr "$" :: ys) (uart_isr st (chr "$" :: xs))) newline)
      with (fold_left isr_store [newline]
              (fold_left isr_store (chr "$" :: ys) (uart_isr st (chr "$" :: xs)))).
    rewrite <- fold_left_app.
    apply (candidate_after_line _ ys Hok1 Hyd).
Qed.

Lemma reassembler_keeps_second_line_witness :
  let st' := uart_isr (libc := libc_digits) gps_state_init (str "$GPGGA,1235$GNGGA,0712") in
  take (line_pos st') (nmea_line st') = str "$GNGGA,0712"
  /\ mailbox st' = mailbox gps_state_init.
Proof.
  pose proof (reassembler_keeps_second_line (libc := libc_digits)
              gps_state_init (str "GPGGA,1235") (str "GNGGA,0712")) as W.
  assert (H1 : gps_state_ok gps_state_init) by (split; [reflexivity | apply Nat.ltb_lt; reflexivity]).
  specialize (W H1 eq_refl eq_refl eq_refl).
  destruct W as (_ & Hline & Hbox & _).
  assert (H2 : (length (str "GNGGA,0712") < BUF_SIZE - 1)%nat) by (apply Nat.ltb_lt; reflexivity).
  specialize (Hline H2).
  split.
  exact Hline.
  exact Hbox.
Defined.

(** C5. When the line completed by a byte has no family marker in
    field 0, or fewer than six comma-separated fields, the parser fails
    on it and the handler leaves the mailbox (record and semaphore) as it
    was. *)
Theorem malformed_sentence_not_published {libc : LibC} (st : gps_state) (c : ascii) :
  gps_state_ok st ->
  malformed (candidate_line (isr_store st c)) ->
  parse_gga (candidate_line (isr_store st c)) = None
  /\ mailbox (isr_byte st c) = mailbox st.
Proof.
  intros Hok Hbad.
  pose proof (isr_store_ok st c Hok) as Hok1.
  assert (Hnone : parse_gga (candidate_line (isr_store st c)) = None).
  { apply parse_gga_malformed. rewrite candidate_line_copied by exact Hok1. exact Hbad. }
  split; [exact Hnone|].
  unfold isr_byte. destruct (Ascii.eqb c newline).
  - rewrite (isr_line_end_rejected _ Hnone). apply isr_store_mailbox.
  - apply isr_store_mailbox.
Qed.

Lemma malformed_sentence_not_published_witness :
  mailbox (uart_isr (libc := libc_digits) gps_state_init
             (str "$GPGGA,123519,4807.038,N,01131.000" ++ [newline]))
  = mailbox gps_state_init.
Proof.
  rewrite uart_isr_app.
  set (st := uart_isr (libc := libc_digits) gps_state_init
               (str "$GPGGA,123519,4807.038,N,01131.000")).
  change (uart_isr st [newline]) with (isr_byte (libc := libc_digits) st newline).
  assert (Hok : gps_state_ok st)
    by (split; [vm_compute; reflexivity | apply Nat.ltb_lt; vm_compute; reflexivity]).
  assert (Hbad : malformed (candidate_line (isr_store st newline)))
    by (right; apply Nat.ltb_lt; vm_compute; reflexivity).
  transitivity (mailbox st).
  - exact (proj2 (malformed_sentence_not_published (libc := libc_digits) st newline Hok Hbad)).
  - vm_compute. reflexivity.
Defined.

(** The same on a whole stream: a malformed line between a start marker
    and its terminator leaves the mailbox untouched. *)
Lemma malformed_stream_not_published {libc : LibC} (st : gps_state) (ys : list ascii) :
  gps_state_ok st ->
  lacks (chr "$") ys = true ->
  lacks newline ys = true ->
  malformed (cstr (take (BUF_SIZE - 1) (chr "$" :: ys ++ [newline]))) ->
  mailbox (uart_isr st (chr "$" :: ys ++ [newline])) = mailbox st.
Proof.
  intros Hok Hyd Hyn Hbad.
  assert (Hline : lacks newline (chr "$" :: ys) = true)
    by (rewrite lacks_cons, Hyn; reflexivity).
  change (chr "$" :: ys ++ [newline]) with ((chr "$" :: ys) ++ [newline]).
  rewrite uart_isr_app, (uart_isr_stores _ _ Hline).
  set (st1 := fold_left isr_store (chr "$" :: ys) st).
  assert (Hok1 : gps_state_ok st1) by apply stores_ok, Hok.
  assert (Hcand : candidate_line (isr_store st1 newline)
                  = cstr (take (BUF_SIZE - 1) (chr "$" :: ys ++ [newline]))).
  { subst st1.
    change (isr_store (fold_left isr_store (chr "$" :: ys) st) newline)
      with (fold_left isr_store [newline] (fold_left isr_store (chr "$" :: ys) st)).
    rewrite <- fold_left_app. apply (candidate_after_line st ys Hok Hyd). }
  change (uart_isr st1 [newline]) with (isr_line_end (isr_store st1 newline)).
  rewrite isr_line_end_rejected, isr_store_mailbox.
  - subst st1. apply stores_mailbox.
  - apply parse_gga_malformed.
    rewrite candidate_line_copied by apply isr_store_ok, Hok1.
    rewrite Hcand. exact Hbad.
Qed.

(* ================================================================== *)
(** ** Coordinate conversion *)

Lemma is_digit_not_dot c : is_digit c = true -> Ascii.eqb c (chr ".") = false.
Proof.
  intros Hd. destruct (Ascii.eqb_spec c (chr ".")) as [->|]; [|reflexivity].
  discriminate Hd.
Qed.

Lemma is_digit_not_NUL c : is_digit c = true -> Ascii.eqb c NUL = false.
Proof.
  intros Hd. destruct (Ascii.eqb_spec c NUL) as [->|]; [|reflexivity].
  discriminate Hd.
Qed.

Lemma digits_lack_NUL s : forallb is_digit s = true -> lacks NUL s = true.
Proof.
  induction s as [|c s IH]; simpl; [reflexivity|].
  rewrite andb_true_iff. intros [Hc Hs].
  rewrite (is_digit_not_NUL c Hc), (IH Hs). reflexivity.
Qed.

(** The loop over the digits in front of the dot. *)
Lemma nmea_scan_int ip :
  forallb is_digit ip = true ->
  forall a rest, seen_dot a = false ->
    nmea_scan (ip ++ rest) a
    = nmea_scan rest {| value := fold_left int_step ip (value a);
                        decimal := decimal a; seen_dot := false;
                        divisor := divisor a |}.
Proof.
  induction ip as [|c ip IH]; intros Hd a rest Hdot.
  - destruct a as [v d sd dv]. simpl in *. subst sd. reflexivity.
  - simpl in Hd. apply andb_true_iff in Hd as [Hc Hd].
    cbn [app nmea_scan fold_left]. rewrite Hc.
    rewrite (IH Hd (nmea_digit a c) rest).
    + unfold nmea_digit. rewrite Hdot. reflexivity.
    + unfold nmea_digit. rewrite Hdot. reflexivity.
Qed.

(** The loop over the digits behind the dot. *)
Lemma nmea_scan_frac fp :
  forallb is_digit fp = true ->
  forall a, seen_dot a = true ->
    nmea_scan fp a
    = {| value := value a;
         decimal := fst (fold_left frac_step fp (decimal a, divisor a));
         seen_dot := true;
         divisor := snd (fold_left frac_step fp (decimal a, divisor a)) |}.
Proof.
  induction fp as [|c fp IH]; intros Hd a Hdot.
  - destruct a as [v d sd dv]. simpl in *. subst sd. reflexivity.
  - simpl in Hd. apply andb_true_iff in Hd as [Hc Hd].
    cbn [nmea_scan fold_left]. rewrite Hc.
    rewrite (IH Hd (nmea_digit a c)).
    + unfold nmea_digit. rewrite Hdot. reflexivity.
    + unfold nmea_digit. rewrite Hdot. reflexivity.
Qed.

(** On a field of digits around one dot the conversion is the
    single-precision degrees-and-minutes formula under the sign rule. *)
Lemma nmea_to_degrees_digits ip fp dir :
  coord_ok ip fp = true ->
  nmea_to_degrees (Some (ip ++ chr "." :: fp)) dir
  = hemisphere dir (dm_to_degrees (nmea_value ip fp)).
Proof.
  unfold coord_ok. rewrite !andb_true_iff. intros [[Hip Hfp] Hlen].
  apply Nat.leb_le in Hlen.
  unfold nmea_to_degrees, strlen.
  rewrite cstr_lacks_NUL.
  2:{ rewrite lacks_app, lacks_cons, (digits_lack_NUL _ Hip), (digits_lack_NUL _ Hfp).
      reflexivity. }
  rewrite length_app. cbn [length].
  replace (length ip + S (length fp) <? 4)%nat with false
    by (symmetry; apply Nat.ltb_ge; lia).
  rewrite (nmea_scan_int ip Hip nmea_acc_init _ eq_refl).
  cbn [nmea_scan]. change (is_digit (chr ".")) with false.
  change (Ascii.eqb (chr ".") (chr ".")) with true. cbv iota.
  rewrite (nmea_scan_frac fp Hfp) by reflexivity.
  reflexivity.
Qed.

(** The sign rule negates for S and W and for no other indicator. *)
Lemma hemisphere_cases dir x :
  ((dir = chr "S" \/ dir = chr "W") /\ hemisphere dir x = fneg x)
  \/ (dir <> chr "S" /\ dir <> chr "W" /\ hemisphere dir x = x).
Proof.
  unfold hemisphere, is_south_or_west.
  destruct (Ascii.eqb_spec dir (chr "S")) as [->|HS]; [left; split; [left|]; reflexivity|].
  destruct (Ascii.eqb_spec dir (chr "W")) as [->|HW]; [left; split; [right|]; reflexivity|].
  right. repeat split; assumption.
Qed.

(** Where every intermediate value is representable the conversion is
    exact: 35 degrees 30 minutes is 35.5, south of the equator -35.5. *)
Lemma nmea_to_degrees_exact_case :
  nmea_to_degrees (Some (str "3530.0000")) (chr "N") = of_ratio 71 2
  /\ Qeq (to_Q (nmea_to_degrees (Some (str "3530.0000")) (chr "N")))
         (exact_degrees (str "3530") (str "0000") (chr "N"))
  /\ nmea_to_degrees (Some (str "3530.0000")) (chr "S") = fneg (of_ratio 71 2)
  /\ Qeq (to_Q (nmea_to_degrees (Some (str "3530.0000")) (chr "S")))
         (exact_degrees (str "3530") (str "0000") (chr "S")).
Proof. repeat split; vm_compute; reflexivity. Qed.

(** A field of fewer than four characters converts to zero. *)
Lemma nmea_to_degrees_short :
  nmea_to_degrees (Some (str "1.5")) (chr "N") = fzero.
Proof. reflexivity. Qed.

(* ================================================================== *)
(** ** Splitting a well-formed sentence *)

Lemma split_from_last f :
  forall idx, lacks (chr ",") f = true -> split_from f idx = (f, []).
Proof.
  induction f as [|c f IH]; intros idx Hf; [reflexivity|].
  rewrite lacks_cons, andb_true_iff, negb_true_iff in Hf. destruct Hf as [Hc Hf].
  cbn [split_from]. rewrite Hc, (IH idx Hf).
  destruct (idx <? MAX_FIELDS)%nat; reflexivity.
Qed.

Lemma split_from_field f :
  forall idx s, lacks (chr ",") f = true -> (idx < MAX_FIELDS)%nat ->
    split_from (f ++ chr "," :: s) idx
    = (f, let '(g, gs) := split_from s (S idx) in g :: gs).
Proof.
  induction f as [|c f IH]; intros idx s Hf Hidx.
  - cbn [app split_from]. apply Nat.ltb_lt in Hidx. rewrite Hidx. reflexivity.
  - rewrite lacks_cons, andb_true_iff, negb_true_iff in Hf. destruct Hf as [Hc Hf].
    cbn [app split_from]. rewrite Hc, (IH idx s Hf Hidx).
    apply Nat.ltb_lt in Hidx. rewrite Hidx. reflexivity.
Qed.

Lemma split_from_join fs :
  forall f idx,
    forallb field_ok (f :: fs) = true ->
    (idx + length fs <= MAX_FIELDS)%nat ->
    split_from (join (f :: fs)) idx = (f, fs).
Proof.
  induction fs as [|g fs IH]; intros f idx Hok Hidx.
  - cbn [join]. apply split_from_last.
    simpl in Hok. unfold field_ok in Hok. rewrite !andb_true_iff in Hok. tauto.
  - change (join (f :: g :: fs)) with (f ++ chr "," :: join (g :: fs)).
    cbn [forallb] in Hok. apply andb_true_iff in Hok as [Hf Hok].
    unfold field_ok in Hf. apply andb_true_iff in Hf as [Hf _].
    cbn [length] in Hidx.
    rewrite split_from_field by (exact Hf || lia).
    rewrite (IH g (S idx)) by (exact Hok || lia).
    reflexivity.
Qed.

Lemma join_lacks_NUL fs : forallb field_ok fs = true -> lacks NUL (join fs) = true.
Proof.
  induction fs as [|f fs IH]; [reflexivity|].
  cbn [forallb]. rewrite andb_true_iff. unfold field_ok at 1. rewrite andb_true_iff.
  intros [[_ Hf] Hfs]. specialize (IH Hfs).
  destruct fs as [|g fs]; [exact Hf|].
  change (join (f :: g :: fs)) with (f ++ chr "," :: join (g :: fs)).
  rewrite lacks_app, lacks_cons, Hf, IH. reflexivity.
Qed.

(** The parser recovers the fields a well-formed sentence was written
    from. *)
Lemma split_fields_join f fs :
  sentence_ok (f :: fs) = true -> split_fields (join (f :: fs)) = f :: fs.
Proof.
  unfold sentence_ok. rewrite !andb_true_iff. intros [[Hok Hn] Hlen].
  apply Nat.leb_le in Hn, Hlen. cbn [length] in Hn.
  unfold split_fields.
  rewrite (cstr_lacks_NUL _ (join_lacks_NUL _ Hok)), take_ge by exact Hlen.
  rewrite (split_from_join fs f 1 Hok) by lia.
  reflexivity.
Qed.

(* ================================================================== *)
(** ** Claim on the published coordinates *)

(** C1 (as amended). A sentence of well-formed fields whose field 0 holds
    the family marker and whose fields 2 and 4 are digit strings [ip.fp] is
    parsed into a record whose latitude and longitude are the
    single-precision evaluation of degrees + minutes / 60 on the
    single-precision value of the field, negated exactly when the first
    character of the hemisphere field is S or W; the handler publishes
    that record when the line carries one of the recognized spellings. *)
Theorem gga_coordinates_single_precision {libc : LibC}
    (f0 f1 ip1 fp1 f3 ip2 fp2 f5 : list ascii) (rest : list (list ascii)) :
  let fs := f0 :: f1 :: (ip1 ++ chr "." :: fp1) :: f3
               :: (ip2 ++ chr "." :: fp2) :: f5 :: rest in
  sentence_ok fs = true ->
  strstr f0 (str "GGA") = true ->
  coord_ok ip1 fp1 = true ->
  coord_ok ip2 fp2 = true ->
  exists r,
    parse_gga (join fs) = Some r
    /\ lat r = hemisphere (first_char f3) (dm_to_degrees (nmea_value ip1 fp1))
    /\ lon r = hemisphere (first_char f5) (dm_to_degrees (nmea_value ip2 fp2))
    /\ forall st, candidate_line st = join fs -> recognized (join fs) = true ->
         mailbox (isr_line_end st) = (r, 1%nat).
Proof.
  intros fs Hfs Hgga Hlat Hlon.
  unfold parse_gga. subst fs. rewrite (split_fields_join _ _ Hfs).
  cbn [lookup list_lookup]. rewrite Hgga. cbn [negb].
  eexists. split; [reflexivity|]. cbn [lat lon].
  split; [apply nmea_to_degrees_digits, Hlat|].
  split; [apply nmea_to_degrees_digits, Hlon|].
  intros st Hline Hrec.
  apply isr_line_end_published.
  - rewrite Hline. unfold parse_gga. rewrite (split_fields_join _ _ Hfs).
    cbn [lookup list_lookup]. rewrite Hgga. reflexivity.
  - rewrite Hline. exact Hrec.
Qed.

Lemma gga_coordinates_single_precision_witness :
  exists r,
    parse_gga (libc := libc_digits) (join (gga_sentence (str "3542.5000"))) = Some r
    /\ lat r = of_ratio 35708333 1000000
    /\ lon r = S754_finite false 9162640 (-16)
    /\ mailbox (uart_isr (libc := libc_digits) gps_state_init
                  (join (gga_sentence (str "3542.5000")))) = (r, 1%nat).
Proof.
  pose proof (gga_coordinates_single_precision (libc := libc_digits)
                (str "$GPGGA") (str "123519") (str "3542") (str "5000") (str "N")
                (str "13948") (str "6476") (str "E")
                [str "1"; str "08"; str "0.9"; str "545.4"; str "M"; str "46.9"; str "M";
                 []; str "*47" ++ [newline]]) as W.
  destruct (W eq_refl eq_refl eq_refl eq_refl) as (r & Hparse & Hlat & Hlon & Hpub).
  exists r.
  split; [exact Hparse|].
  split; [rewrite Hlat; vm_compute; reflexivity|].
  split; [rewrite Hlon; vm_compute; reflexivity|].
  assert (Hline : candidate_line
                    (fold_left isr_store (join (gga_sentence (str "3542.5000"))) gps_state_init)
                  = join (gga_sentence (str "3542.5000")))
    by (vm_compute; reflexivity).
  assert (Hend : uart_isr (libc := libc_digits) gps_state_init
                    (join (gga_sentence (str "3542.5000")))
                  = isr_line_end (libc := libc_digits)
                      (fold_left isr_store (join (gga_sentence (str "3542.5000")))
                         gps_state_init))
    by (vm_compute; reflexivity).
  rewrite Hend. exact (Hpub _ Hline eq_refl).
Defined.

(** The latitude published for 5730.6219 N is not the exact value
    57.510365 of degrees + minutes / 60, nor the single-precision number
    nearest to it, and it reaches the store as 57510368 millionths. *)
Lemma gga_latitude_counterexample :
  exists r,
    parse_gga (libc := libc_digits) (join (gga_sentence (str "5730.6219"))) = Some r
    /\ lat r = S754_finite false 15075998 (-18)
    /\ Qeq (exact_degrees (str "5730") (str "6219") (chr "N")) (Qmake 57510365 1000000)
    /\ ~ Qeq (to_Q (lat r)) (exact_degrees (str "5730") (str "6219") (chr "N"))
    /\ lat r <> of_ratio 57510365 1000000
    /\ to_int32 (fmul (lat r) f1e6) = 57510368.
Proof.
  eexists. split; [vm_compute; reflexivity|]. cbn [lat].
  split; [vm_compute; reflexivity|].
  split; [vm_compute; reflexivity|].
  split; [intros Heq; vm_compute in Heq; discriminate Heq|].
  split; [vm_compute; discriminate | vm_compute; reflexivity].
Qed.

(* ================================================================== *)
(** ** The encoder *)

Lemma uint32_idem z : uint32 (uint32 z) = uint32 z.
Proof. unfold uint32, uint. apply Z.mod_mod. lia. Qed.

Lemma uint32_nonneg z : 0 <= uint32 z.
Proof. unfold uint32, uint. apply Z.mod_pos_bound. lia. Qed.

(** With a non-zero divisor the normalization is a plain quotient. *)
Lemma normalize_nonzero channel clear :
  0 < uint32 clear ->
  Main.normalize channel (uint32 clear)
  = Some (uint8 (uint32 (smul32 channel 100) / uint32 clear)).
Proof.
  intros Hpos. unfold Main.normalize, udiv32. rewrite uint32_idem.
  destruct (uint32 clear =? 0) eqn:E; [apply Z.eqb_eq in E; lia | reflexivity].
Qed.

(** The encoder never faults: the guard keeps the divisor away from zero. *)
Lemma get_measurements_encoded measure main_data :
  Main.get_measurements measure main_data = Some (encoded measure main_data).
Proof.
  unfold Main.get_measurements, encoded. cbv zeta.
  destruct (0 <? uint32 (clear measure)) eqn:E.
  - apply Z.ltb_lt in E. rewrite !(normalize_nonzero _ _ E). reflexivity.
  - reflexivity.
Qed.

(* ================================================================== *)
(** ** Claims on the encoder *)

(** C2 (as amended). On the scenario store one call of the encoder gives
    time bytes [12; 34; 56] (the encoder splits the slot as it is; the
    hour offset belongs to the position worker, which stores 133456 for
    the UTC string 123456, and from that slot the bytes are
    [13; 34; 56]), colour bytes (50, 30, 20) and acceleration bytes
    (10, -5, 98), whatever the record held before. *)
Theorem scenario_record (main_data : Main.main_measurement) :
  exists r,
    Main.get_measurements scenario_store main_data = Some r
    /\ Main.time r = [12; 34; 56]
    /\ color_bytes r = (50, 30, 20)
    /\ accel_bytes r = (10, -5, 98)
    /\ encode_time (str "123456") = 133456
    /\ exists r', Main.get_measurements (set_gps_time scenario_store 133456) main_data = Some r'
                  /\ Main.time r' = [13; 34; 56].
Proof.
  exists (encoded scenario_store main_data).
  split; [apply get_measurements_encoded|].
  repeat (split; [reflexivity|]).
  exists (encoded (set_gps_time scenario_store 133456) main_data).
  split; [apply get_measurements_encoded | reflexivity].
Qed.

(** The scenario as the specification words it does not hold: the time
    bytes of the record are not [13; 34; 56]. *)
Lemma scenario_time_bytes_counterexample :
  ~ (exists r,
       Main.get_measurements scenario_store Main.main_data_init = Some r
       /\ Main.time r = [13; 34; 56]
       /\ color_bytes r = (50, 30, 20)
       /\ accel_bytes r = (10, -5, 98)).
Proof.
  intros (r & Hr & Ht & _).
  rewrite get_measurements_encoded in Hr. injection Hr as <-.
  discriminate Ht.
Qed.

(** The encoder never divides by zero, and when the clear channel is
    zero it leaves the three colour bytes as the record had them before
    the call. *)
Lemma encoder_clear_zero
    (measure : system_measurement) (main_data : Main.main_measurement) :
  clear measure = 0 ->
  exists r,
    Main.get_measurements measure main_data = Some r
    /\ color_bytes r = color_bytes main_data.
Proof.
  intros Hclear. exists (encoded measure main_data).
  split; [apply get_measurements_encoded|].
  unfold color_bytes, encoded. cbn. rewrite Hclear. reflexivity.
Qed.

(** Two calls on the same store give the same record when the clear
    channel is not zero or when the records they start from agree on the
    colour bytes; and a call that starts from the record of a call on the
    same store reproduces it. *)
Lemma encoder_same_colors
    (measure : system_measurement) (md1 md2 : Main.main_measurement) :
  uint32 (clear measure) <> 0 \/ color_bytes md1 = color_bytes md2 ->
  Main.get_measurements measure md1 = Main.get_measurements measure md2
  /\ forall r, Main.get_measurements measure md1 = Some r ->
               Main.get_measurements measure r = Some r.
Proof.
  intros Hcase.
  assert (Heq : encoded measure md1 = encoded measure md2).
  { unfold encoded. cbv zeta.
    destruct Hcase as [Hclear | Hcol].
    - pose proof (uint32_nonneg (clear measure)) as Hnn.
      replace (0 <? uint32 (clear measure)) with true
        by (symmetry; apply Z.ltb_lt; lia).
      reflexivity.
    - unfold color_bytes in Hcol. injection Hcol as -> -> ->. reflexivity. }
  rewrite !get_measurements_encoded, Heq.
  split; [reflexivity|].
  intros r Hr. injection Hr as <-.
  rewrite get_measurements_encoded. f_equal.
  unfold encoded. cbn. destruct (0 <? uint32 (clear measure)); reflexivity.
Qed.

(** C7. Each acceleration byte is the slot divided by ten (towards zero)
    and narrowed to eight bits by wrapping: the result lies in
    [-128, 127] and differs from the quotient by a multiple of 256, so
    that 1280 gives -128 and not 127. *)
Theorem acceleration_bytes_wrap
    (measure : system_measurement) (main_data : Main.main_measurement) :
  exists r,
    Main.get_measurements measure main_data = Some r
    /\ Main.x_axis r = int8 (Z.quot (accel_x measure) 10)
    /\ Main.y_axis r = int8 (Z.quot (accel_y measure) 10)
    /\ Main.z_axis r = int8 (Z.quot (accel_z measure) 10)
    /\ (forall q, -128 <= int8 q <= 127 /\ int8 q = q - 256 * ((q + 128) / 256))
    /\ int8 (Z.quot 1280 10) = -128
    /\ int8 (Z.quot (-1290) 10) = 127.
Proof.
  exists (encoded measure main_data).
  split; [apply get_measurements_encoded|].
  repeat (split; [reflexivity|]).
  split; [|split; reflexivity].
  intros q. unfold int8, sint.
  change (2 ^ (8 - 1)) with 128. change (2 ^ 8) with 256.
  pose proof (Z.mod_pos_bound (q + 128) 256 ltac:(lia)).
  pose proof (Z.div_mod (q + 128) 256 ltac:(lia)).
  lia.
Qed.

(* ================================================================== *)
(** ** Claims on the position worker *)

(** A wait on an empty mailbox times out; on a full one it delivers the
    record. *)
Lemma gps_wait_for_gga_timeout st out :
  parsed_sem st = 0%nat -> gps_wait_for_gga st out = (- EAGAIN, out, st).
Proof. intros Hsem. unfold gps_wait_for_gga. rewrite Hsem. reflexivity. Qed.

Lemma gps_wait_for_gga_success st out :
  parsed_sem st <> 0%nat ->
  exists st', gps_wait_for_gga st out = (0, parsed_data st, st')
              /\ parsed_sem st' = Nat.pred (parsed_sem st).
Proof.
  intros Hsem. unfold gps_wait_for_gga.
  destruct (parsed_sem st) as [|n]; [contradiction|].
  eexists. split; reflexivity.
Qed.

(** C8. When the wait for a parsed sentence times out, the call leaves
    the store as it was: latitude, longitude, altitude, satellite count
    and time keep their values. *)
Theorem timeout_keeps_position_slots
    (st : gps_state) (data : gps_data_t) (measure : system_measurement) :
  fst (fst (gps_wait_for_gga st data)) = - EAGAIN ->
  let m' := snd (read_gps_data st data measure) in
  gps_lat m' = gps_lat measure
  /\ gps_lon m' = gps_lon measure
  /\ gps_alt m' = gps_alt measure
  /\ gps_sats m' = gps_sats measure
  /\ gps_time m' = gps_time measure
  /\ m' = measure.
Proof.
  intros Hret m'. subst m'. unfold read_gps_data.
  destruct (gps_wait_for_gga st data) as [[ret data1] st1].
  cbn [fst] in Hret. subst ret.
  cbn. repeat split; reflexivity.
Qed.

Lemma timeout_keeps_position_slots_witness :
  snd (read_gps_data gps_state_init gps_data_zero scenario_store) = scenario_store.
Proof.
  pose proof (timeout_keeps_position_slots gps_state_init gps_data_zero scenario_store)
    as W.
  assert (Hret : fst (fst (gps_wait_for_gga gps_state_init gps_data_zero)) = - EAGAIN)
    by reflexivity.
  destruct (W Hret) as (_ & _ & _ & _ & _ & Hm).
  exact Hm.
Defined.

(** The constants of the fallback branch, as single precision makes
    them. *)
Lemma fallback_constants :
  to_int32 (fmul (of_ratio 35709662 1000000) f1e6) = 35709664
  /\ to_int32 (fmul (of_ratio 139810793 1000000) f1e6) = 139810784
  /\ to_int32 (fmul (of_int 100) f100) = 10000.
Proof. repeat split; vm_compute; reflexivity. Qed.

(** C9 (as amended). When the delivered record has latitude, longitude
    and altitude all equal to zero, the worker stores the single-precision
    products of its fallback branch: 35709664, 139810784 and 10000. *)
Theorem zero_fix_stores_fallback
    (st : gps_state) (data : gps_data_t) (measure : system_measurement) :
  parsed_sem st <> 0%nat ->
  feqb (lat (parsed_data st)) fzero = true ->
  feqb (lon (parsed_data st)) fzero = true ->
  feqb (alt (parsed_data st)) fzero = true ->
  let m' := snd (read_gps_data st data measure) in
  gps_lat m' = 35709664 /\ gps_lon m' = 139810784 /\ gps_alt m' = 10000.
Proof.
  intros Hsem Hlat Hlon Halt m'. subst m'. unfold read_gps_data.
  destruct (gps_wait_for_gga_success st data Hsem) as (st' & -> & _).
  cbn [Z.eqb]. rewrite Hlat, Hlon, Halt. cbn [andb].
  destruct fallback_constants as (-> & -> & ->).
  destruct (6 <=? strlen (utc_time (parsed_data st)))%nat; cbn; repeat split; reflexivity.
Qed.

Lemma zero_fix_stores_fallback_witness :
  let m' := snd (read_gps_data (mailbox_with no_fix_record) gps_data_zero Main.measure_init) in
  gps_lat m' = 35709664 /\ gps_lon m' = 139810784 /\ gps_alt m' = 10000.
Proof.
  pose proof (zero_fix_stores_fallback (mailbox_with no_fix_record) gps_data_zero
                Main.measure_init) as W.
  assert (Hsem : parsed_sem (mailbox_with no_fix_record) <> 0%nat) by discriminate.
  exact (W Hsem eq_refl eq_refl eq_refl).
Defined.

(** The slots do not receive 35709662 and 139810793. *)
Lemma zero_fix_constants_counterexample :
  let m' := snd (read_gps_data (mailbox_with no_fix_record) gps_data_zero Main.measure_init) in
  ~ (gps_lat m' = 35709662 /\ gps_lon m' = 139810793 /\ gps_alt m' = 10000).
Proof.
  intros m' (Hlat & _). vm_compute in Hlat. discriminate Hlat.
Qed.

(** C10. When the delivered record has a time string of fewer than six
    characters, the worker stores -1 in the time slot; the encoder reads
    it as 4294967295 and emits the time bytes 184, 72, 95. *)
Theorem short_time_gives_sentinel_bytes
    (st : gps_state) (data : gps_data_t) (measure : system_measurement)
    (main_data : Main.main_measurement) :
  parsed_sem st <> 0%nat ->
  (strlen (utc_time (parsed_data st)) < 6)%nat ->
  let m' := snd (read_gps_data st data measure) in
  gps_time m' = -1
  /\ uint32 (gps_time m') = 4294967295
  /\ exists r, Main.get_measurements m' main_data = Some r
               /\ Main.time r = [184; 72; 95].
Proof.
  intros Hsem Hshort m'.
  assert (Htime : gps_time m' = -1).
  { subst m'. unfold read_gps_data.
    destruct (gps_wait_for_gga_success st data Hsem) as (st' & -> & _).
    cbn [Z.eqb].
    replace (6 <=? strlen (utc_time (parsed_data st)))%nat with false
      by (symmetry; apply Nat.leb_gt; exact Hshort).
    reflexivity. }
  split; [exact Htime|]. split; [rewrite Htime; reflexivity|].
  exists (encoded m' main_data).
  split; [apply get_measurements_encoded|].
  unfold encoded. cbn [Main.time]. rewrite Htime. reflexivity.
Qed.

Lemma short_time_gives_sentinel_bytes_witness :
  exists r,
    Main.get_measurements
      (snd (read_gps_data (mailbox_with no_time_record) gps_data_zero scenario_store))
      Main.main_data_init = Some r
    /\ Main.time r = [184; 72; 95].
Proof.
  pose proof (short_time_gives_sentinel_bytes (mailbox_with no_time_record) gps_data_zero
                scenario_store Main.main_data_init) as W.
  assert (Hsem : parsed_sem (mailbox_with no_time_record) <> 0%nat) by discriminate.
  assert (Hshort : (strlen (utc_time (parsed_data (mailbox_with no_time_record))) < 6)%nat)
    by (apply Nat.ltb_lt; reflexivity).
  destruct (W Hsem Hshort) as (_ & _ & Hr).
  exact Hr.
Defined.

(* ================================================================== *)
(** ** The handler over arbitrary streams *)

Section Handler.
Context {libc : LibC}.

Lemma isr_store_sem st c : parsed_sem (isr_store st c) = parsed_sem st.
Proof.
  pose proof (isr_store_mailbox st c) as E. unfold mailbox in E. congruence.
Qed.

Lemma isr_byte_sem st c :
  (parsed_sem st <= 1)%nat ->
  (parsed_sem st <= parsed_sem (isr_byte st c) <= 1)%nat.
Proof.
  intros H. unfold isr_byte.
  pose proof (isr_store_sem st c) as Hs.
  destruct (Ascii.eqb c newline); [|lia].
  unfold isr_line_end.
  destruct (strstr _ _ || strstr _ _); [destruct (parse_gga _)|];
    cbn [parsed_sem]; unfold k_sem_give; lia.
Qed.

Lemma uart_isr_sem fifo :
  forall st, (parsed_sem st <= 1)%nat ->
    (parsed_sem st <= parsed_sem (uart_isr st fifo) <= 1)%nat.
Proof.
  induction fifo as [|c fifo IH]; intros st H; [cbn; lia|].
  change (uart_isr st (c :: fifo)) with (uart_isr (isr_byte st c) fifo).
  pose proof (isr_byte_sem st c H) as H1.
  pose proof (IH (isr_byte st c) ltac:(lia)). lia.
Qed.

Lemma uart_isr_framed st ys :
  gps_state_ok st ->
  lacks (chr "$") ys = true ->
  lacks newline ys = true ->
  exists st1,
    gps_state_ok st1 /\ mailbox st1 = mailbox st
    /\ candidate_line st1 = framed_line ys
    /\ uart_isr st (framed ys) = isr_line_end st1.
Proof.
  intros Hok Hyd Hyn.
  assert (Hline : lacks newline (chr "$" :: ys) = true)
    by (rewrite lacks_cons, Hyn; reflexivity).
  exists (isr_store (fold_left isr_store (chr "$" :: ys) st) newline).
  assert (Hok1 : gps_state_ok (fold_left isr_store (chr "$" :: ys) st))
    by apply stores_ok, Hok.
  repeat split.
  - apply isr_store_ok, Hok1.
  - apply isr_store_ok, Hok1.
  - rewrite isr_store_mailbox. apply stores_mailbox.
  - change (isr_store (fold_left isr_store (chr "$" :: ys) st) newline)
      with (fold_left isr_store [newline] (fold_left isr_store (chr "$" :: ys) st)).
    rewrite <- fold_left_app. apply (candidate_after_line st ys Hok Hyd).
  - unfold framed.
    change (chr "$" :: ys ++ [newline]) with ((chr "$" :: ys) ++ [newline]).
    rewrite uart_isr_app, (uart_isr_stores _ _ Hline). reflexivity.
Qed.

Lemma uart_isr_framed_published st ys r :
  gps_state_ok st ->
  lacks (chr "$") ys = true ->
  lacks newline ys = true ->
  recognized (framed_line ys) = true ->
  parse_gga (framed_line ys) = Some r ->
  gps_state_ok (uart_isr st (framed ys))
  /\ mailbox (uart_isr st (framed ys)) = (r, 1%nat).
Proof.
  intros Hok Hyd Hyn Hrec Hparse.
  destruct (uart_isr_framed st ys Hok Hyd Hyn) as (st1 & Hok1 & _ & Hcand & Hrun).
  split.
  - apply uart_isr_ok, Hok.
  - rewrite Hrun. apply isr_line_end_published; rewrite Hcand; assumption.
Qed.

End Handler.

(** Whatever bytes arrive, the handler keeps its write index inside the
    line buffer (so every store into [nmea_line], the terminator included,
    is in bounds, also for lines longer than the buffer), and the mailbox
    semaphore never exceeds its limit of one nor is ever lowered by the
    handler. *)
Theorem uart_isr_invariant {libc : LibC} (st : gps_state) (fifo : list ascii) :
  gps_state_ok st ->
  (parsed_sem st <= 1)%nat ->
  let st' := uart_isr st fifo in
  length (nmea_line st') = BUF_SIZE
  /\ (line_pos st' < BUF_SIZE)%nat
  /\ (parsed_sem st <= parsed_sem st')%nat
  /\ (parsed_sem st' <= 1)%nat.
Proof.
  intros Hok Hsem st'.
  destruct (uart_isr_ok fifo st Hok) as [Hlen Hpos].
  pose proof (uart_isr_sem fifo st Hsem) as Hs.
  subst st'. repeat split; try assumption; lia.
Qed.

Lemma uart_isr_invariant_witness :
  let st' := uart_isr (libc := libc_digits) gps_state_init
               (repeat (chr "x") 300 ++ framed first_fix) in
  length (nmea_line st') = BUF_SIZE
  /\ (line_pos st' < BUF_SIZE)%nat
  /\ (parsed_sem gps_state_init <= parsed_sem st')%nat
  /\ (parsed_sem st' <= 1)%nat.
Proof.
  apply (uart_isr_invariant (libc := libc_digits) gps_state_init).
  - exact gps_state_init_ok.
  - cbn. lia.
Defined.

(** Two complete, valid sentences that arrive before the consumer looks
    leave the record of the second one in the mailbox with the semaphore at
    one: the consumer receives the later record once, the earlier one is
    lost, and a further wait times out. *)
Theorem mailbox_keeps_latest {libc : LibC}
    (st : gps_state) (ys1 ys2 : list ascii) (r1 r2 out : gps_data_t) :
  gps_state_ok st ->
  lacks (chr "$") ys1 = true -> lacks newline ys1 = true ->
  lacks (chr "$") ys2 = true -> lacks newline ys2 = true ->
  recognized (framed_line ys1) = true -> parse_gga (framed_line ys1) = Some r1 ->
  recognized (framed_line ys2) = true -> parse_gga (framed_line ys2) = Some r2 ->
  let st' := uart_isr st (framed ys1 ++ framed ys2) in
  mailbox st' = (r2, 1%nat)
  /\ fst (gps_wait_for_gga st' out) = (0, r2)
  /\ fst (gps_wait_for_gga (snd (gps_wait_for_gga st' out)) out) = (- EAGAIN, out).
Proof.
  intros Hok Hd1 Hn1 Hd2 Hn2 Hrec1 Hp1 Hrec2 Hp2 st'.
  destruct (uart_isr_framed_published st ys1 r1 Hok Hd1 Hn1 Hrec1 Hp1) as [Hok1 _].
  destruct (uart_isr_framed_published (uart_isr st (framed ys1)) ys2 r2
              Hok1 Hd2 Hn2 Hrec2 Hp2) as [_ Hbox].
  assert (Hst' : mailbox st' = (r2, 1%nat)).
  { subst st'. rewrite uart_isr_app. exact Hbox. }
  unfold mailbox in Hst'. injection Hst' as Hdata Hsem.
  split; [unfold mailbox; congruence|].
  unfold gps_wait_for_gga. rewrite Hsem, Hdata. cbn. split; reflexivity.
Qed.

Lemma mailbox_keeps_latest_witness :
  exists r2,
    parse_gga (libc := libc_digits) (framed_line second_fix) = Some r2
    /\ mailbox (uart_isr (libc := libc_digits) gps_state_init
                  (framed first_fix ++ framed second_fix)) = (r2, 1%nat).
Proof.
  assert (E1 : exists r1, parse_gga (libc := libc_digits) (framed_line first_fix) = Some r1)
    by (vm_compute; eexists; reflexivity).
  assert (E2 : exists r2, parse_gga (libc := libc_digits) (framed_line second_fix) = Some r2)
    by (vm_compute; eexists; reflexivity).
  destruct E1 as [r1 E1]. destruct E2 as [r2 E2].
  exists r2. split; [exact E2|].
  pose proof (mailbox_keeps_latest (libc := libc_digits) gps_state_init
                first_fix second_fix r1 r2 gps_data_zero) as W.
  assert (H0 : gps_state_ok gps_state_init) by exact gps_state_init_ok.
  assert (H1 : lacks (chr "$") first_fix = true) by (vm_compute; reflexivity).
  assert (H2 : lacks newline first_fix = true) by (vm_compute; reflexivity).
  assert (H3 : lacks (chr "$") second_fix = true) by (vm_compute; reflexivity).
  assert (H4 : lacks newline second_fix = true) by (vm_compute; reflexivity).
  assert (H5 : recognized (framed_line first_fix) = true) by (vm_compute; reflexivity).
  assert (H6 : recognized (framed_line second_fix) = true) by (vm_compute; reflexivity).
  specialize (W H0 H1 H2 H3 H4 H5 E1 H6 E2).
  destruct W as [W _]. exact W.
Defined.

(* ================================================================== *)
(** ** Splitting loses nothing *)

Lemma join_cons_head c f fs : join ((c :: f) :: fs) = c :: join (f :: fs).
Proof. destruct fs; reflexivity. Qed.

Lemma join_cons_field f g gs : join (f :: g :: gs) = f ++ chr "," :: join (g :: gs).
Proof. reflexivity. Qed.

Lemma join_split_from s :
  forall idx, join (fst (split_from s idx) :: snd (split_from s idx)) = s.
Proof.
  induction s as [|c s IH]; intros idx; [reflexivity|].
  cbn [split_from].
  destruct (idx <? MAX_FIELDS)%nat; [|reflexivity].
  destruct (Ascii.eqb c (chr ",")) eqn:Ec.
  - apply Ascii.eqb_eq in Ec. subst c.
    specialize (IH (S idx)). destruct (split_from s (S idx)) as [f fs].
    cbn [fst snd] in *. rewrite join_cons_field, IH. reflexivity.
  - specialize (IH idx). destruct (split_from s idx) as [f fs].
    cbn [fst snd] in *. rewrite join_cons_head, IH. reflexivity.
Qed.

Lemma commas_zero_lacks s : commas s = 0%nat -> lacks (chr ",") s = true.
Proof.
  induction s as [|c s IH]; [reflexivity|].
  cbn [commas]. rewrite lacks_cons.
  destruct (Ascii.eqb c (chr ",")); [discriminate|].
  intros H. rewrite IH by exact H. reflexivity.
Qed.

Lemma split_from_fields_lack_comma s :
  forall idx, (idx + commas s <= MAX_FIELDS)%nat ->
    forallb (lacks (chr ","))
            (fst (split_from s idx) :: snd (split_from s idx)) = true.
Proof.
  induction s as [|c s IH]; intros idx H; [reflexivity|].
  cbn [split_from]. cbn [commas] in H.
  destruct (idx <? MAX_FIELDS)%nat eqn:Ei.
  - destruct (Ascii.eqb c (chr ",")) eqn:Ec.
    + specialize (IH (S idx) ltac:(lia)).
      destruct (split_from s (S idx)) as [f fs]. cbn [fst snd] in *.
      cbn [forallb] in *. exact IH.
    + specialize (IH idx ltac:(lia)).
      destruct (split_from s idx) as [f fs]. cbn [fst snd] in *.
      cbn [forallb] in *. rewrite lacks_cons, Ec. exact IH.
  - apply Nat.ltb_ge in Ei. cbn [fst snd forallb].
    rewrite commas_zero_lacks; [reflexivity|].
    cbn [commas]. lia.
Qed.

(** Splitting a line into fields loses nothing: joining the fields of
    [parse_gga] with commas gives back the copied line, there is one field
    more than commas up to the limit of sixteen (past it the rest of the
    line, commas included, stays in the last field), and below the limit no
    field holds a comma. *)
Theorem split_fields_join_inverse (line : list ascii) :
  join (split_fields line) = copied line
  /\ length (split_fields line) = Nat.min (S (commas (copied line))) MAX_FIELDS
  /\ ((commas (copied line) < MAX_FIELDS)%nat ->
      forallb (lacks (chr ",")) (split_fields line) = true).
Proof.
  unfold split_fields. fold (copied line).
  pose proof (join_split_from (copied line) 1) as Hj.
  pose proof (split_from_snd_length (copied line) 1) as Hl.
  pose proof (split_from_fields_lack_comma (copied line) 1) as Hc.
  destruct (split_from (copied line) 1) as [f fs]. cbn [fst snd] in *.
  split; [exact Hj|]. split.
  - cbn [length]. rewrite Hl by (unfold MAX_FIELDS; lia).
    unfold MAX_FIELDS. lia.
  - intros H. apply Hc. lia.
Qed.

Lemma split_fields_join_inverse_witness :
  join (split_fields (join searching_fix)) = copied (join searching_fix)
  /\ length (split_fields (join searching_fix)) = 15%nat
  /\ forallb (lacks (chr ",")) (split_fields (join searching_fix)) = true.
Proof.
  destruct (split_fields_join_inverse (join searching_fix)) as (Hj & Hl & Hc).
  split; [exact Hj|]. split.
  - rewrite Hl. vm_compute. reflexivity.
  - apply Hc. vm_compute. lia.
Defined.

(* ================================================================== *)
(** ** From the sentence to the store *)

Lemma nmea_to_degrees_short_field s dir :
  (length s < 4)%nat -> nmea_to_degrees (Some s) dir = fzero.
Proof.
  intros H. unfold nmea_to_degrees, strlen.
  pose proof (cstr_length s) as Hc.
  replace (length (cstr s) <? 4)%nat with true
    by (symmetry; apply Nat.ltb_lt; lia).
  reflexivity.
Qed.

Lemma zero_record_fallback st data measure r :
  mailbox st = (r, 1%nat) ->
  feqb (lat r) fzero = true ->
  feqb (lon r) fzero = true ->
  feqb (alt r) fzero = true ->
  gps_slots (gps_pass st data measure)
  = (35709664, 139810784, 10000, int32 (sats r), gps_time (gps_pass st data measure)).
Proof.
  intros Hbox Hlat Hlon Halt.
  assert (Hdata : parsed_data st = r) by (unfold mailbox in Hbox; congruence).
  assert (Hsem : parsed_sem st <> 0%nat) by (unfold mailbox in Hbox; congruence).
  unfold gps_pass, read_gps_data.
  destruct (gps_wait_for_gga_success st data Hsem) as (st' & -> & _).
  cbn [Z.eqb]. rewrite Hdata, Hlat, Hlon, Halt. cbn [andb].
  destruct fallback_constants as (-> & -> & ->).
  destruct (6 <=? strlen (utc_time r))%nat; reflexivity.
Qed.

(** A sentence whose coordinate fields are shorter than four characters,
    as a receiver without a fix sends, is accepted by the parser with
    latitude and longitude exactly +0, whatever the hemisphere letters
    say; if its altitude converts to zero too, the worker does not store
    the zeros but the constants of its fallback branch. *)
Theorem short_coordinates_parse_to_zero {libc : LibC}
    (f0 f1 f2 f3 f4 f5 : list ascii) (rest : list (list ascii)) :
  let fs := f0 :: f1 :: f2 :: f3 :: f4 :: f5 :: rest in
  sentence_ok fs = true ->
  strstr f0 (str "GGA") = true ->
  (length f2 < 4)%nat ->
  (length f4 < 4)%nat ->
  exists r,
    parse_gga (join fs) = Some r
    /\ lat r = fzero
    /\ lon r = fzero
    /\ (feqb (alt r) fzero = true ->
        forall st data measure, mailbox st = (r, 1%nat) ->
          gps_slots (gps_pass st data measure)
          = (35709664, 139810784, 10000, int32 (sats r),
             gps_time (gps_pass st data measure))).
Proof.
  intros fs Hfs Hgga H2 H4.
  unfold parse_gga. subst fs. rewrite (split_fields_join _ _ Hfs).
  cbn [lookup list_lookup]. rewrite Hgga. cbn [negb].
  eexists. split; [reflexivity|]. cbn [lat lon alt sats].
  split; [apply nmea_to_degrees_short_field, H2|].
  split; [apply nmea_to_degrees_short_field, H4|].
  intros Halt st data measure Hbox.
  rewrite (zero_record_fallback st data measure _ Hbox); [reflexivity|..].
  - cbn [lat]. rewrite (nmea_to_degrees_short_field _ _ H2). reflexivity.
  - cbn [lon]. rewrite (nmea_to_degrees_short_field _ _ H4). reflexivity.
  - exact Halt.
Qed.

Lemma short_coordinates_parse_to_zero_witness :
  exists r,
    parse_gga (libc := libc_digits) (join searching_fix) = Some r
    /\ lat r = fzero
    /\ lon r = fzero.
Proof.
  pose proof (short_coordinates_parse_to_zero (libc := libc_digits)
                (str "$GPGGA") (str "235959") [] [] [] []
                [str "0"; str "00"; []; []; str "M"; []; str "M"; [];
                 str "*66" ++ [newline]]) as W.
  assert (H1 : sentence_ok searching_fix = true) by (vm_compute; reflexivity).
  assert (H2 : strstr (str "$GPGGA") (str "GGA") = true) by (vm_compute; reflexivity).
  assert (H3 : (@length ascii [] < 4)%nat) by (cbn; lia).
  destruct (W H1 H2 H3 H3) as (r & Hr & Hlat & Hlon & _).
  exists r. repeat split; assumption.
Defined.

(* ================================================================== *)
(** ** The time of day, from the record to the payload *)

Lemma is_digit_range c : is_digit c = true -> 0 <= digit_val c <= 9.
Proof.
  unfold is_digit, digit_val. intros H.
  apply andb_prop in H as [H1 H2].
  apply Z.leb_le in H1, H2.
  change (code (chr "0")) with 48 in *. change (code (chr "9")) with 57 in H2. lia.
Qed.

Lemma two_digits_range a b :
  is_digit a = true -> is_digit b = true -> 0 <= two_digits a b <= 99.
Proof.
  intros Ha Hb. unfold two_digits.
  pose proof (is_digit_range a Ha). pose proof (is_digit_range b Hb). lia.
Qed.

Lemma encode_time_digits a b c d e f rest :
  encode_time (a :: b :: c :: d :: e :: f :: rest)
  = (two_digits a b + 1) * 10000 + two_digits c d * 100 + two_digits e f.
Proof. reflexivity. Qed.

Lemma time_bytes_split H M S :
  0 <= H <= 100 -> 0 <= M <= 99 -> 0 <= S <= 99 ->
  let t := uint32 (H * 10000 + M * 100 + S) in
  uint8 (t / 10000) = H /\ uint8 ((t / 100) mod 100) = M /\ uint8 (t mod 100) = S.
Proof.
  intros HH HM HS t.
  assert (Ht : t = H * 10000 + M * 100 + S).
  { subst t. unfold uint32, uint. apply Z.mod_small. lia. }
  rewrite Ht. unfold uint8, uint.
  assert (E1 : (H * 10000 + M * 100 + S) / 10000 = H).
  { symmetry. apply (Z.div_unique _ _ _ (M * 100 + S)); lia. }
  assert (E2 : (H * 10000 + M * 100 + S) / 100 = H * 100 + M).
  { symmetry. apply (Z.div_unique _ _ _ S); lia. }
  assert (E3 : (H * 100 + M) mod 100 = M).
  { symmetry. apply (Z.mod_unique _ _ H); lia. }
  assert (E4 : (H * 10000 + M * 100 + S) mod 100 = S).
  { symmetry. apply (Z.mod_unique _ _ (H * 100 + M)); lia. }
  rewrite E1, E2, E3, E4.
  repeat split; apply Z.mod_small; lia.
Qed.

Lemma gps_pass_time st data measure a b c d e f rest :
  parsed_sem st <> 0%nat ->
  utc_time (parsed_data st) = a :: b :: c :: d :: e :: f :: rest ->
  forallb is_digit [a; b; c; d; e; f] = true ->
  gps_time (gps_pass st data measure)
  = (two_digits a b + 1) * 10000 + two_digits c d * 100 + two_digits e f.
Proof.
  intros Hsem Ht Hdig.
  cbn [forallb] in Hdig.
  repeat (apply andb_prop in Hdig as [? Hdig]).
  unfold gps_pass, read_gps_data.
  destruct (gps_wait_for_gga_success st data Hsem) as (st' & -> & _).
  cbn [Z.eqb]. rewrite Ht.
  assert (Hlen : (6 <=? strlen (a :: b :: c :: d :: e :: f :: rest))%nat = true).
  { apply Nat.leb_le. unfold strlen. cbn [cstr].
    rewrite !is_digit_not_NUL by assumption. cbn [length]. lia. }
  rewrite Hlen, encode_time_digits. reflexivity.
Qed.

Lemma encoded_time_digits m md a b c d e f :
  forallb is_digit [a; b; c; d; e; f] = true ->
  gps_time m = (two_digits a b + 1) * 10000 + two_digits c d * 100 + two_digits e f ->
  Main.time (encoded m md) = [two_digits a b + 1; two_digits c d; two_digits e f].
Proof.
  intros Hdig Htime.
  cbn [forallb] in Hdig.
  repeat (apply andb_prop in Hdig as [? Hdig]).
  unfold encoded. cbn [Main.time]. rewrite Htime.
  pose proof (two_digits_range a b ltac:(assumption) ltac:(assumption)).
  pose proof (two_digits_range c d ltac:(assumption) ltac:(assumption)).
  pose proof (two_digits_range e f ltac:(assumption) ltac:(assumption)).
  destruct (time_bytes_split (two_digits a b + 1) (two_digits c d) (two_digits e f))
    as (-> & -> & ->); [lia..|reflexivity].
Qed.

(** A record whose time starts with six digits hhmmss reaches the payload
    as the three bytes hh+1, mm, ss: the worker adds the hour without
    wrapping at midnight (23 becomes 24) and without carrying into the
    date, and the encoder splits the number back unchanged. *)
Theorem utc_digits_reach_time_bytes
    (st : gps_state) (data : gps_data_t) (measure : system_measurement)
    (main_data : Main.main_measurement) (a b c d e f : ascii) (rest : list ascii) :
  parsed_sem st <> 0%nat ->
  utc_time (parsed_data st) = a :: b :: c :: d :: e :: f :: rest ->
  forallb is_digit [a; b; c; d; e; f] = true ->
  let m' := gps_pass st data measure in
  gps_time m' = (two_digits a b + 1) * 10000 + two_digits c d * 100 + two_digits e f
  /\ exists r,
       Main.get_measurements m' main_data = Some r
       /\ Main.time r = [two_digits a b + 1; two_digits c d; two_digits e f].
Proof.
  intros Hsem Ht Hdig m'.
  pose proof (gps_pass_time st data measure a b c d e f rest Hsem Ht Hdig) as Htime.
  split; [exact Htime|].
  exists (encoded m' main_data).
  split; [apply get_measurements_encoded|].
  apply encoded_time_digits; assumption.
Qed.

Lemma utc_digits_reach_time_bytes_witness :
  exists r,
    Main.get_measurements (gps_pass (mailbox_with late_record) gps_data_zero scenario_store)
                          Main.main_data_init = Some r
    /\ Main.time r = [24; 59; 59].
Proof.
  pose proof (utc_digits_reach_time_bytes (mailbox_with late_record) gps_data_zero
                scenario_store Main.main_data_init
                (chr "2") (chr "3") (chr "5") (chr "9") (chr "5") (chr "9") (str ".00")) as W.
  assert (H1 : parsed_sem (mailbox_with late_record) <> 0%nat) by discriminate.
  assert (H2 : utc_time (parsed_data (mailbox_with late_record))
               = chr "2" :: chr "3" :: chr "5" :: chr "9" :: chr "5" :: chr "9" :: str ".00")
    by reflexivity.
  assert (H3 : forallb is_digit [chr "2"; chr "3"; chr "5"; chr "9"; chr "5"; chr "9"] = true)
    by reflexivity.
  destruct (W H1 H2 H3) as (_ & r & Hr & Htime).
  exists r. split; [exact Hr|]. rewrite Htime. reflexivity.
Defined.

(* ================================================================== *)
(** ** The mailbox hands a record over once *)

Lemma read_gps_data_timeout st data measure :
  parsed_sem st = 0%nat -> read_gps_data st data measure = (st, data, measure).
Proof.
  intros E. unfold read_gps_data. rewrite (gps_wait_for_gga_timeout st data E).
  reflexivity.
Qed.




(* ================================================================== *)
(** ** The two workers and the store *)

Import SensorsThread.

(** Whatever commutes with the five setters of the environment worker
    commutes with one pass of it. *)
Section SensorsCommute.
Variable G : system_measurement -> system_measurement.
Hypothesis G_brightness : forall m v, set_brightness (G m) v = G (set_brightness m v).
Hypothesis G_moisture : forall m v, set_moisture (G m) v = G (set_moisture m v).
Hypothesis G_accel : forall m x y z, set_accel (G m) x y z = G (set_accel m x y z).
Hypothesis G_temp_hum : forall m t h, set_temp_hum (G m) t h = G (set_temp_hum m t h).
Hypothesis G_color : forall m r g b c, set_color (G m) r g b c = G (set_color m r g b c).

Lemma read_adc_percentage_comm cfg hw target mv m :
  (forall m v, target (G m) v = G (target m v)) ->
  read_adc_percentage cfg hw target mv (G m)
  = match read_adc_percentage cfg hw target mv m with
    | Some (mv1, m1) => Some (mv1, G m1)
    | None => None
    end.
Proof.
  intros Ht. unfold read_adc_percentage.
  destruct (Adc.adc_read_voltage cfg hw mv) as [[ret mv1]|]; [|reflexivity].
  destruct (ret =? 0); [|reflexivity].
  destruct (sdiv32 _ _); [|reflexivity].
  rewrite Ht. reflexivity.
Qed.

Lemma read_accelerometer_comm regs range m :
  read_accelerometer regs range (G m) = G (read_accelerometer regs range m).
Proof.
  unfold read_accelerometer.
  destruct (Accel.accel_read_xyz regs (0, 0, 0)) as [ret [[x y] z]].
  destruct (ret =? 0); [apply G_accel|reflexivity].
Qed.

Lemma read_temperature_humidity_comm rh_xfer temp_xfer m :
  read_temperature_humidity rh_xfer temp_xfer (G m)
  = G (read_temperature_humidity rh_xfer temp_xfer m).
Proof.
  unfold read_temperature_humidity.
  destruct (TempHum.temp_hum_read_humidity rh_xfer fzero) as [ret h].
  destruct (ret =? 0); [|reflexivity].
  destruct (i2c_ret temp_xfer =? 0); [apply G_temp_hum|reflexivity].
Qed.

Lemma read_color_sensor_comm xfer m :
  read_color_sensor xfer (G m) = G (read_color_sensor xfer m).
Proof.
  unfold read_color_sensor.
  destruct (Color.color_read_rgb xfer color_data_zero) as [ret d].
  destruct (ret =? 0); [apply G_color|reflexivity].
Qed.

Lemma sensors_pass_comm ctx inp mv m :
  sensors_pass ctx inp mv (G m)
  = match sensors_pass ctx inp mv m with
    | Some (mv', m') => Some (mv', G m')
    | None => None
    end.
Proof.
  unfold sensors_pass.
  rewrite read_adc_percentage_comm by exact G_brightness.
  destruct (read_adc_percentage _ _ set_brightness mv m) as [[mv1 m1]|]; [|reflexivity].
  rewrite read_adc_percentage_comm by exact G_moisture.
  destruct (read_adc_percentage _ _ set_moisture mv1 m1) as [[mv2 m2]|]; [|reflexivity].
  rewrite read_accelerometer_comm, read_temperature_humidity_comm, read_color_sensor_comm.
  reflexivity.
Qed.

End SensorsCommute.

(** Whatever the five setters leave alone, one pass leaves alone. *)
Section SensorsFrame.
Variable A : Type.
Variable proj : system_measurement -> A.
Hypothesis proj_brightness : forall m v, proj (set_brightness m v) = proj m.
Hypothesis proj_moisture : forall m v, proj (set_moisture m v) = proj m.
Hypothesis proj_accel : forall m x y z, proj (set_accel m x y z) = proj m.
Hypothesis proj_temp_hum : forall m t h, proj (set_temp_hum m t h) = proj m.
Hypothesis proj_color : forall m r g b c, proj (set_color m r g b c) = proj m.

Lemma read_adc_percentage_frame cfg hw target mv m mv1 m1 :
  (forall m v, proj (target m v) = proj m) ->
  read_adc_percentage cfg hw target mv m = Some (mv1, m1) ->
  proj m1 = proj m.
Proof.
  intros Ht. unfold read_adc_percentage.
  destruct (Adc.adc_read_voltage cfg hw mv) as [[ret mv']|]; [|discriminate].
  destruct (ret =? 0).
  - destruct (sdiv32 _ _); [|discriminate].
    intros [= _ <-]. apply Ht.
  - intros [= _ <-]. reflexivity.
Qed.

Lemma read_accelerometer_frame regs range m :
  proj (read_accelerometer regs range m) = proj m.
Proof.
  unfold read_accelerometer.
  destruct (Accel.accel_read_xyz regs (0, 0, 0)) as [ret [[x y] z]].
  destruct (ret =? 0); [apply proj_accel|reflexivity].
Qed.

Lemma read_temperature_humidity_frame rh_xfer temp_xfer m :
  proj (read_temperature_humidity rh_xfer temp_xfer m) = proj m.
Proof.
  unfold read_temperature_humidity.
  destruct (TempHum.temp_hum_read_humidity rh_xfer fzero) as [ret h].
  destruct (ret =? 0); [|reflexivity].
  destruct (i2c_ret temp_xfer =? 0); [apply proj_temp_hum|reflexivity].
Qed.

Lemma read_color_sensor_frame xfer m :
  proj (read_color_sensor xfer m) = proj m.
Proof.
  unfold read_color_sensor.
  destruct (Color.color_read_rgb xfer color_data_zero) as [ret d].
  destruct (ret =? 0); [apply proj_color|reflexivity].
Qed.

Lemma sensors_pass_frame ctx inp mv m mv' m' :
  sensors_pass ctx inp mv m = Some (mv', m') -> proj m' = proj m.
Proof.
  unfold sensors_pass.
  destruct (read_adc_percentage _ _ set_brightness mv m) as [[mv1 m1]|] eqn:E1;
    [|discriminate].
  destruct (read_adc_percentage _ _ set_moisture mv1 m1) as [[mv2 m2]|] eqn:E2;
    [|discriminate].
  intros [= _ <-].
  rewrite read_color_sensor_frame, read_temperature_humidity_frame,
    read_accelerometer_frame.
  rewrite (read_adc_percentage_frame _ _ _ _ _ _ _ proj_moisture E2).
  apply (read_adc_percentage_frame _ _ _ _ _ _ _ proj_brightness E1).
Qed.

End SensorsFrame.

(** One call of the position worker either leaves the store alone or sets
    its five slots to values that do not depend on the store. *)
Lemma gps_pass_shape st data :
  (forall m, gps_pass st data m = m)
  \/ exists la lo al sa ti,
       forall m, gps_pass st data m
                 = set_gps_time (set_gps_sats (set_gps_position m la lo al) sa) ti.
Proof.
  unfold gps_pass, read_gps_data.
  destruct (gps_wait_for_gga st data) as [[ret d1] st1].
  destruct (ret =? 0); [right|left; reflexivity].
  destruct (feqb (lat d1) fzero && feqb (lon d1) fzero && feqb (alt d1) fzero);
    destruct (6 <=? strlen (utc_time d1))%nat;
    do 5 eexists; intros m; reflexivity.
Qed.

(** The two workers write disjoint slots: a pass of the environment worker
    leaves the five position slots alone, a call of the position worker
    leaves the eleven sensor slots alone, and the two commute, so the store
    the encoder reads does not depend on which worker ran first. *)
Theorem workers_write_disjoint_slots
    (ctx : sensors_context) (inp : sensor_inputs) (mv mv' : Z)
    (st : gps_state) (data : gps_data_t) (m m1 : system_measurement) :
  sensors_pass ctx inp mv m = Some (mv', m1) ->
  gps_slots m1 = gps_slots m
  /\ sensor_slots (gps_pass st data m) = sensor_slots m
  /\ sensors_pass ctx inp mv (gps_pass st data m) = Some (mv', gps_pass st data m1).
Proof.
  intros Hpass. split; [|split].
  - apply (sensors_pass_frame _ gps_slots) with (6 := Hpass); reflexivity.
  - destruct (gps_pass_shape st data) as [->|(la & lo & al & sa & ti & ->)];
      reflexivity.
  - rewrite (sensors_pass_comm (gps_pass st data)), Hpass; [reflexivity|..];
      destruct (gps_pass_shape st data) as [H|(la & lo & al & sa & ti & H)];
      intros; rewrite !H; reflexivity.
Qed.

Lemma workers_write_disjoint_slots_witness :
  exists mv' m1,
    sensors_pass main_context sample_inputs 0 scenario_store = Some (mv', m1)
    /\ gps_slots m1 = gps_slots scenario_store
    /\ sensors_pass main_context sample_inputs 0
         (gps_pass (mailbox_with late_record) gps_data_zero scenario_store)
       = Some (mv', gps_pass (mailbox_with late_record) gps_data_zero m1).
Proof.
  assert (E : exists r, sensors_pass main_context sample_inputs 0 scenario_store = Some r)
    by (vm_compute; eexists; reflexivity).
  destruct E as [[mv' m1] E]. exists mv', m1.
  destruct (workers_write_disjoint_slots main_context sample_inputs 0 mv'
              (mailbox_with late_record) gps_data_zero scenario_store m1 E)
    as (H1 & _ & H3).
  repeat split; assumption.
Defined.

(* ================================================================== *)
(** ** Failing peripherals *)

Lemma read_adc_percentage_failed cfg hw target mv m :
  adc_failed hw -> read_adc_percentage cfg hw target mv m = Some (mv, m).
Proof.
  intros Hfail. unfold read_adc_percentage, Adc.adc_read_voltage, Adc.adc_read_raw.
  destruct (Adc.setup_ret hw <? 0) eqn:E1.
  - rewrite E1. apply Z.ltb_lt in E1.
    replace (Adc.setup_ret hw =? 0) with false by (symmetry; apply Z.eqb_neq; lia).
    reflexivity.
  - destruct (Adc.read_ret hw <? 0) eqn:E2.
    + rewrite E2. apply Z.ltb_lt in E2.
      replace (Adc.read_ret hw =? 0) with false by (symmetry; apply Z.eqb_neq; lia).
      reflexivity.
    + apply Z.ltb_ge in E1, E2. destruct Hfail; lia.
Qed.

Lemma read_accelerometer_failed regs range m :
  i2c_ret regs < 0 -> read_accelerometer regs range m = m.
Proof.
  intros H. unfold read_accelerometer, Accel.accel_read_xyz.
  replace (i2c_ret regs <? 0) with true by (symmetry; apply Z.ltb_lt; lia).
  replace (i2c_ret regs =? 0) with false by (symmetry; apply Z.eqb_neq; lia).
  reflexivity.
Qed.

Lemma read_temperature_humidity_failed rh_xfer temp_xfer m :
  i2c_ret rh_xfer < 0 \/ i2c_ret temp_xfer <> 0 ->
  read_temperature_humidity rh_xfer temp_xfer m = m.
Proof.
  intros H. unfold read_temperature_humidity, TempHum.temp_hum_read_humidity.
  destruct (i2c_ret rh_xfer <? 0) eqn:E1.
  - apply Z.ltb_lt in E1.
    replace (i2c_ret rh_xfer =? 0) with false by (symmetry; apply Z.eqb_neq; lia).
    reflexivity.
  - cbn [Z.eqb]. destruct (i2c_ret temp_xfer =? 0) eqn:E2; [|reflexivity].
    apply Z.ltb_ge in E1. apply Z.eqb_eq in E2. destruct H; lia.
Qed.

Lemma read_color_sensor_failed xfer m :
  i2c_ret xfer < 0 -> read_color_sensor xfer m = m.
Proof.
  intros H. unfold read_color_sensor, Color.color_read_rgb.
  replace (i2c_ret xfer <? 0) with true by (symmetry; apply Z.ltb_lt; lia).
  replace (i2c_ret xfer =? 0) with false by (symmetry; apply Z.eqb_neq; lia).
  reflexivity.
Qed.

Lemma encoded_idem m md : encoded m (encoded m md) = encoded m md.
Proof.
  unfold encoded. cbn [Main.r_norm Main.g_norm Main.b_norm].
  destruct (0 <? uint32 (clear m)); reflexivity.
Qed.

(** A cycle in which every peripheral answers with an error and no
    sentence arrived changes nothing in the store, and the encoder then
    produces the payload of the cycle before, byte for byte: nothing in
    the payload tells stale values from fresh ones. *)
Theorem failed_cycle_repeats_payload
    (ctx : sensors_context) (inp : sensor_inputs) (mv : Z)
    (st : gps_state) (data : gps_data_t) (m : system_measurement)
    (md r : Main.main_measurement) :
  inputs_all_failed inp ->
  parsed_sem st = 0%nat ->
  Main.get_measurements m md = Some r ->
  exists m',
    sensors_pass ctx inp mv m = Some (mv, m')
    /\ gps_pass st data m' = m
    /\ option_map Main.main_data_bytes (Main.get_measurements (gps_pass st data m') r)
       = Some (Main.main_data_bytes r).
Proof.
  intros (Hpt & Hsm & Hacc & Hrh & Hcol) Hsem Hr.
  exists m.
  assert (Hgps : gps_pass st data m = m).
  { unfold gps_pass. rewrite (read_gps_data_timeout st data m Hsem). reflexivity. }
  split; [|split].
  - unfold sensors_pass.
    rewrite (read_adc_percentage_failed _ _ _ _ _ Hpt).
    rewrite (read_adc_percentage_failed _ _ _ _ _ Hsm).
    rewrite (read_accelerometer_failed _ _ _ Hacc).
    rewrite (read_temperature_humidity_failed _ _ _ (or_introl Hrh)).
    rewrite (read_color_sensor_failed _ _ Hcol). reflexivity.
  - exact Hgps.
  - rewrite Hgps. rewrite get_measurements_encoded in Hr |- *.
    injection Hr as <-. rewrite encoded_idem. reflexivity.
Qed.

Lemma failed_cycle_repeats_payload_witness :
  exists m',
    sensors_pass main_context failed_inputs 0 scenario_store = Some (0, m')
    /\ gps_pass gps_state_init gps_data_zero m' = scenario_store
    /\ option_map Main.main_data_bytes
         (Main.get_measurements (gps_pass gps_state_init gps_data_zero m')
            (encoded scenario_store Main.main_data_init))
       = Some (Main.main_data_bytes (encoded scenario_store Main.main_data_init)).
Proof.
  apply (failed_cycle_repeats_payload main_context failed_inputs 0 gps_state_init
           gps_data_zero scenario_store Main.main_data_init).
  - unfold inputs_all_failed, adc_failed. cbn. lia.
  - reflexivity.
  - apply get_measurements_encoded.
Defined.

(** Temperature and humidity are stored together or not at all: after a
    pass either both slots hold the conversions of the two transfers of
    this pass, or both hold what they held before; in particular when the
    temperature transfer does not return zero a humidity that was read
    successfully is dropped. *)
Theorem temperature_humidity_stored_together
    (ctx : sensors_context) (inp : sensor_inputs) (mv mv' : Z)
    (m m' : system_measurement) :
  sensors_pass ctx inp mv m = Some (mv', m') ->
  ((temp m', hum m') = (temp m, hum m)
   \/ (temp m', hum m')
      = (to_int32 (fmul (TempHum.temperature_of (TempHum.raw16 (i2c_buf (temp_regs inp))))
                        (of_int 100)),
         to_int32 (fmul (snd (TempHum.temp_hum_read_humidity (rh_regs inp) fzero))
                        (of_int 100))))
  /\ (i2c_ret (temp_regs inp) <> 0 -> (temp m', hum m') = (temp m, hum m)).
Proof.
  unfold sensors_pass.
  destruct (read_adc_percentage _ _ set_brightness mv m) as [[mv1 m1]|] eqn:E1;
    [|discriminate].
  destruct (read_adc_percentage _ _ set_moisture mv1 m1) as [[mv2 m2]|] eqn:E2;
    [|discriminate].
  intros [= _ <-].
  set (th := fun x : system_measurement => (temp x, hum x)).
  change (temp m, hum m) with (th m).
  assert (H0 : th (read_accelerometer (accel_regs inp) (accel_range ctx) m2) = th m).
  { unfold read_accelerometer.
    destruct (Accel.accel_read_xyz _ _) as [ret [[x y] z]].
    assert (Hb : forall x v, th (set_brightness x v) = th x) by reflexivity.
    assert (Hm : forall x v, th (set_moisture x v) = th x) by reflexivity.
    rewrite <- (read_adc_percentage_frame _ th _ _ _ _ _ _ _ Hb E1).
    rewrite <- (read_adc_percentage_frame _ th _ _ _ _ _ _ _ Hm E2).
    destruct (ret =? 0); reflexivity. }
  set (m3 := read_accelerometer (accel_regs inp) (accel_range ctx) m2) in *.
  rewrite <- H0.
  match goal with
  | |- (?p = _ \/ _) /\ _ =>
      change p with (th (read_color_sensor (color_regs inp)
                           (read_temperature_humidity (rh_regs inp) (temp_regs inp) m3)))
  end.
  rewrite (read_color_sensor_frame _ th) by reflexivity.
  split.
  - unfold read_temperature_humidity.
    destruct (TempHum.temp_hum_read_humidity (rh_regs inp) fzero) as [ret h].
    destruct (ret =? 0); [|left; reflexivity].
    destruct (i2c_ret (temp_regs inp) =? 0); [right|left]; reflexivity.
  - intros Hne. rewrite read_temperature_humidity_failed by (right; exact Hne).
    reflexivity.
Qed.

Lemma temperature_humidity_stored_together_witness :
  exists mv' m',
    sensors_pass main_context sample_inputs 0 scenario_store = Some (mv', m')
    /\ (temp m', hum m') = (2336, 5650).
Proof.
  assert (E : exists r, sensors_pass main_context sample_inputs 0 scenario_store = Some r)
    by (vm_compute; eexists; reflexivity).
  destruct E as [[mv' m'] E]. exists mv', m'. split; [exact E|].
  destruct (temperature_humidity_stored_together main_context sample_inputs 0 mv'
              scenario_store m' E) as [[H|H] _].
  - exfalso.
    assert (E' : sensors_pass main_context sample_inputs 0 scenario_store
                 = Some (805, set_color (set_temp_hum (set_accel
                      (set_moisture (set_brightness scenario_store 500) 243)
                      980 0 (-980)) 2336 5650) 50 30 20 100))
      by (vm_compute; reflexivity).
    rewrite E' in E. injection E as _ <-. discriminate H.
  - rewrite H. vm_compute. reflexivity.
Defined.

(* ================================================================== *)
(** ** Casts that change nothing *)

Lemma sint_small w z :
  0 < w -> - 2 ^ (w - 1) <= z < 2 ^ (w - 1) -> sint w z = z.
Proof.
  intros Hw Hz. unfold sint.
  assert (E : 2 ^ w = 2 * 2 ^ (w - 1)).
  { replace w with (Z.succ (w - 1)) at 1 by lia. apply Z.pow_succ_r. lia. }
  rewrite Z.mod_small; lia.
Qed.

Lemma int32_small z : - 2 ^ 31 <= z < 2 ^ 31 -> int32 z = z.
Proof. intros H. apply sint_small; [lia|exact H]. Qed.

Lemma int16_small z : - 2 ^ 15 <= z < 2 ^ 15 -> int16 z = z.
Proof. intros H. apply sint_small; [lia|exact H]. Qed.

Lemma int8_small z : - 128 <= z < 128 -> int8 z = z.
Proof. intros H. apply sint_small; [lia|]. change (2 ^ (8 - 1)) with 128. exact H. Qed.

Lemma uint_range w z : 0 <= w -> 0 <= uint w z < 2 ^ w.
Proof. intros Hw. unfold uint. apply Z.mod_pos_bound. apply Z.pow_pos_nonneg; lia. Qed.

Lemma sint_range w z : 0 < w -> - 2 ^ (w - 1) <= sint w z < 2 ^ (w - 1).
Proof.
  intros Hw. unfold sint.
  assert (E : 2 ^ w = 2 * 2 ^ (w - 1)).
  { replace w with (Z.succ (w - 1)) at 1 by lia. apply Z.pow_succ_r. lia. }
  assert (0 < 2 ^ (w - 1)) by (apply Z.pow_pos_nonneg; lia).
  pose proof (Z.mod_pos_bound (z + 2 ^ (w - 1)) (2 ^ w) ltac:(lia)). lia.
Qed.

Lemma byte_at_range buf i : 0 <= byte_at buf i < 256.
Proof.
  unfold byte_at. destruct (buf !! i); [|lia].
  apply (uint_range 8). lia.
Qed.

Lemma lor_shiftl_byte hi lo :
  0 <= lo < 256 -> Z.lor (Z.shiftl hi 8) lo = hi * 256 + lo.
Proof.
  intros Hlo. rewrite Z.shiftl_mul_pow2 by lia. change (2 ^ 8) with 256.
  assert (Hland : Z.land (hi * 256) lo = 0).
  { destruct (Z.eq_dec lo 0) as [->|Hne]; [apply Z.land_0_r|].
    apply Z.bits_inj'. intros n Hn. rewrite Z.land_spec, Z.bits_0.
    destruct (Z.lt_ge_cases n 8) as [Hlt|Hge].
    - change 256 with (2 ^ 8). rewrite Z.mul_pow2_bits_low by lia. reflexivity.
    - rewrite (Z.bits_above_log2 lo n); [apply andb_false_r|lia|].
      apply Z.lt_le_trans with 8; [|exact Hge].
      apply Z.log2_lt_pow2; [lia|]. change (2 ^ 8) with 256. lia. }
  rewrite <- Z.lxor_lor by exact Hland.
  symmetry. apply Z.add_nocarry_lxor, Hland.
Qed.

(* ================================================================== *)
(** ** The analogue channels *)

Lemma pow2_resolution_range res : 1 <= res <= 15 -> 2 <= 2 ^ res <= 32768.
Proof.
  intros H. split.
  - change 2 with (2 ^ 1) at 1. apply Z.pow_le_mono_r; lia.
  - change 32768 with (2 ^ 15). apply Z.pow_le_mono_r; lia.
Qed.

(** For a channel of 1 to 15 bits with a reference of 1000 to 65535 mV
    and a sample within the resolution, a successful conversion stores
    [p = (raw * vref / full) * 1000 / vref] with [full = 2^resolution - 1]:
    no product overflows, no division faults, the voltage lies between 0
    and the reference, [p] between 0 and 1000 with both ends reached, and
    the two truncations together lose at most one unit against
    [1000 * raw / full]. *)
Theorem adc_percentage_range
    (cfg : Adc.adc_config) (raw mv : Z)
    (target : system_measurement -> Z -> system_measurement) (m : system_measurement) :
  1 <= Adc.resolution cfg <= 15 ->
  1000 <= Adc.vref_mv cfg <= 65535 ->
  0 <= raw <= 2 ^ Adc.resolution cfg - 1 ->
  let full := 2 ^ Adc.resolution cfg - 1 in
  let volt := raw * Adc.vref_mv cfg / full in
  let p := volt * 1000 / Adc.vref_mv cfg in
  read_adc_percentage cfg (adc_sample raw) target mv m = Some (volt, target m p)
  /\ 0 <= volt <= Adc.vref_mv cfg
  /\ 0 <= p <= 1000
  /\ 1000 * raw / full - 1 <= p <= 1000 * raw / full
  /\ (raw = 0 -> p = 0)
  /\ (raw = full -> p = 1000).
Proof.
  intros Hres Hv Hraw full volt p.
  pose proof (pow2_resolution_range _ Hres) as Hpow.
  assert (Hfull : 1 <= full <= 32767) by (subst full; lia).
  assert (Hraw' : 0 <= raw <= full) by (subst full; lia).
  assert (Epow : 2 ^ Adc.resolution cfg - 1 = full) by reflexivity.
  set (V := Adc.vref_mv cfg) in *.
  clearbody full. clear Hraw Hpow Hres.
  assert (Hprod : 0 <= raw * V <= full * V).
  { split; [apply Z.mul_nonneg_nonneg; lia|apply Z.mul_le_mono_nonneg_r; lia]. }
  assert (Hprod' : full * V <= 32767 * 65535)
    by (apply Z.mul_le_mono_nonneg; lia).
  assert (Hvm : volt * full <= raw * V < volt * full + full).
  { subst volt.
    pose proof (Z.mul_div_le (raw * V) full ltac:(lia)).
    pose proof (Z.mul_succ_div_gt (raw * V) full ltac:(lia)). lia. }
  assert (Hvolt : 0 <= volt <= V).
  { subst volt. split.
    - apply Z.div_pos; lia.
    - apply Z.div_le_upper_bound; [lia|]. lia. }
  assert (Hpm : p * V <= volt * 1000 < p * V + V).
  { subst p.
    pose proof (Z.mul_div_le (volt * 1000) V ltac:(lia)).
    pose proof (Z.mul_succ_div_gt (volt * 1000) V ltac:(lia)). lia. }
  assert (Hp : 0 <= p <= 1000).
  { subst p. split.
    - apply Z.div_pos; lia.
    - apply Z.div_le_upper_bound; [lia|]. lia. }
  assert (Hzero : raw = 0 -> p = 0).
  { intros ->. subst p volt.
    reflexivity. }
  assert (Hfs : raw = full -> p = 1000).
  { intros ->. subst p volt.
    rewrite (Z.mul_comm full V), Z.div_mul by lia.
    rewrite (Z.mul_comm V 1000), Z.div_mul by lia. reflexivity. }
  clearbody volt p.
  split; [|split; [exact Hvolt|split; [exact Hp|split; [|split; assumption]]]].
  - unfold read_adc_percentage, Adc.adc_read_voltage, Adc.adc_read_raw, adc_sample.
    cbn [Adc.setup_ret Adc.read_ret Adc.sample Z.ltb Z.compare].
    rewrite (int16_small raw) by lia.
    rewrite Z.shiftl_1_l.
    rewrite (int32_small (2 ^ Adc.resolution cfg)) by lia.
    rewrite Epow.
    rewrite (int32_small full) by lia.
    unfold smul32, sdiv32. fold V.
    rewrite (int32_small (raw * V)) by lia.
    replace (full =? 0) with false by (symmetry; apply Z.eqb_neq; lia).
    rewrite (Z.quot_div_nonneg (raw * V) full) by lia.
    replace (raw * V / full) with volt by (apply Z.div_unique with (raw * V - volt * full); lia).
    rewrite (int32_small volt) by lia.
    cbn [Z.eqb].
    rewrite (int32_small (volt * 1000)) by lia.
    replace (V =? 0) with false by (symmetry; apply Z.eqb_neq; lia).
    rewrite (Z.quot_div_nonneg (volt * 1000) V) by lia.
    replace (volt * 1000 / V) with p by (apply Z.div_unique with (volt * 1000 - p * V); lia).
    rewrite (int32_small p) by lia. reflexivity.
  - split.
    + assert (1000 * raw / full < p + 2); [|lia].
      apply Z.div_lt_upper_bound; [lia|].
      apply (Z.mul_lt_mono_pos_l V); [lia|].
      pose proof (proj1 (Z.mul_lt_mono_pos_r full (volt * 1000) (p * V + V)
                           ltac:(lia)) ltac:(lia)).
      pose proof (Z.mul_le_mono_nonneg_r 1000 V full ltac:(lia) ltac:(lia)).
      lia.
    + apply Z.div_le_lower_bound; [lia|].
      apply (Z.mul_le_mono_pos_l _ _ V); [lia|].
      pose proof (Z.mul_le_mono_nonneg_r (p * V) (volt * 1000) full ltac:(lia)
                    ltac:(lia)).
      lia.
Qed.

Lemma adc_percentage_range_witness :
  read_adc_percentage pt_config (adc_sample 1000) set_brightness 0 scenario_store
  = Some (805, set_brightness scenario_store 243)
  /\ 1000 * 1000 / 4095 = 244.
Proof.
  destruct (adc_percentage_range pt_config 1000 0 set_brightness scenario_store)
    as (H & _); [cbn; lia..|].
  split; [exact H|reflexivity].
Defined.

(* ================================================================== *)
(** ** The accelerometer registers *)

Lemma accel_word_bytes msb lsb :
  0 <= msb < 256 -> 0 <= lsb < 256 ->
  Accel.accel_word msb lsb
  = (if msb <? 128 then msb * 256 + lsb else msb * 256 + lsb - 65536) / 4
  /\ ACCEL_RAW_MIN <= Accel.accel_word msb lsb <= ACCEL_RAW_MAX.
Proof.
  intros Hm Hl. unfold Accel.accel_word, ACCEL_RAW_MIN, ACCEL_RAW_MAX.
  rewrite lor_shiftl_byte by exact Hl.
  rewrite Z.shiftr_div_pow2 by lia. change (2 ^ 2) with 4.
  assert (E : int16 (msb * 256 + lsb)
              = if msb <? 128 then msb * 256 + lsb else msb * 256 + lsb - 65536).
  { destruct (msb <? 128) eqn:Em.
    - apply Z.ltb_lt in Em. apply int16_small. lia.
    - apply Z.ltb_ge in Em. unfold int16, sint.
      change (2 ^ (16 - 1)) with 32768. change (2 ^ 16) with 65536.
      replace (msb * 256 + lsb + 32768)
        with (msb * 256 + lsb - 32768 + 1 * 65536) by ring.
      rewrite Z.mod_add by lia. rewrite Z.mod_small; lia. }
  rewrite E.
  assert (Hr : -8192 <= (if msb <? 128 then msb * 256 + lsb
                         else msb * 256 + lsb - 65536) / 4 <= 8191).
  { destruct (msb <? 128) eqn:Em.
    - apply Z.ltb_lt in Em. split.
      + apply Z.div_le_lower_bound; lia.
      + assert (H : (msb * 256 + lsb) / 4 < 8192); [|lia].
        apply Z.div_lt_upper_bound; lia.
    - apply Z.ltb_ge in Em. split.
      + apply Z.div_le_lower_bound; lia.
      + assert (H : (msb * 256 + lsb - 65536) / 4 < 8192); [|lia].
        apply Z.div_lt_upper_bound; lia. }
  rewrite int16_small by lia.
  split; [reflexivity|lia].
Qed.

(** Whatever six bytes a successful register read delivers, each axis is
    the 16-bit two's-complement value of its two bytes divided by four
    (rounding down, so the two low bits of the second byte are dropped),
    and lies between -8192 and 8191. *)
Theorem accel_read_xyz_range (regs : i2c_xfer) (xyz : Z * Z * Z) :
  0 <= i2c_ret regs ->
  let word (i : nat) :=
    (if byte_at (i2c_buf regs) i <? 128
     then byte_at (i2c_buf regs) i * 256 + byte_at (i2c_buf regs) (S i)
     else byte_at (i2c_buf regs) i * 256 + byte_at (i2c_buf regs) (S i) - 65536) / 4 in
  Accel.accel_read_xyz regs xyz = (0, (word 0%nat, word 2%nat, word 4%nat))
  /\ Forall (fun i => ACCEL_RAW_MIN <= word i <= ACCEL_RAW_MAX) [0%nat; 2%nat; 4%nat].
Proof.
  intros Hret word.
  pose proof (fun i => accel_word_bytes _ _ (byte_at_range (i2c_buf regs) i)
                         (byte_at_range (i2c_buf regs) (S i))) as Hw.
  split.
  - unfold Accel.accel_read_xyz.
    replace (i2c_ret regs <? 0) with false by (symmetry; apply Z.ltb_ge; lia).
    rewrite (proj1 (Hw 0%nat)), (proj1 (Hw 2%nat)), (proj1 (Hw 4%nat)). reflexivity.
  - repeat constructor; subst word; cbv beta;
      match goal with
      | |- context [byte_at _ (S ?i)] => rewrite <- (proj1 (Hw i)); apply (Hw i)
      end.
Qed.

Lemma accel_read_xyz_range_witness :
  Accel.accel_read_xyz (i2c_ok [64; 3; 0; 0; 192; 0]) (0, 0, 0) = (0, (4096, 0, -4096)).
Proof.
  destruct (accel_read_xyz_range (i2c_ok [64; 3; 0; 0; 192; 0]) (0, 0, 0)) as [H _];
    [cbn; lia|].
  rewrite H. reflexivity.
Defined.

Lemma range_check_spec P :
  forall n lo, range_check P lo n = true ->
    forall z, lo <= z < lo + Z.of_nat n -> P z = true.
Proof.
  induction n as [|n IH]; intros lo H z Hz; [lia|].
  cbn [range_check] in H. apply andb_prop in H as [H0 H1].
  destruct (Z.eq_dec z lo) as [->|Hne]; [exact H0|].
  apply (IH (lo + 1) H1). lia.
Qed.

Lemma accel_check_all :
  range_check accel_check ACCEL_RAW_MIN (Z.to_nat 16384) = true.
Proof. vm_compute. reflexivity. Qed.

(** At the configured range of 2 g, every 14-bit reading is stored as a
    value between -1961 and 1961 (hundredths of m/s2), but the axis byte
    of the payload carries a tenth of it unchanged only for readings from
    -5388 to 5346: beyond about 1.3 g the byte wraps. *)
Theorem accel_slot_range_2g (raw : Z) :
  ACCEL_RAW_MIN <= raw <= ACCEL_RAW_MAX ->
  let slot := accel_slot raw Accel.ACCEL_2G in
  -1961 <= slot <= 1961
  /\ (int8 (sdiv slot 10) = sdiv slot 10 <-> -5388 <= raw <= 5346).
Proof.
  intros Hraw slot.
  assert (Hin : ACCEL_RAW_MIN <= raw < ACCEL_RAW_MIN + Z.of_nat (Z.to_nat 16384)).
  { rewrite Z2Nat.id by lia. unfold ACCEL_RAW_MIN, ACCEL_RAW_MAX in *. lia. }
  pose proof (range_check_spec _ _ _ accel_check_all raw Hin) as H.
  unfold accel_check in H. fold slot in H.
  apply andb_prop in H as [H Hb]. apply andb_prop in H as [H1 H2].
  apply Z.leb_le in H1, H2. split; [lia|].
  apply Bool.eqb_prop in Hb.
  rewrite <- Z.eqb_eq, Hb, andb_true_iff, !Z.leb_le. reflexivity.
Qed.

Lemma accel_slot_range_2g_witness :
  accel_slot 5347 Accel.ACCEL_2G = 1280
  /\ int8 (sdiv (accel_slot 5347 Accel.ACCEL_2G) 10) <> sdiv (accel_slot 5347 Accel.ACCEL_2G) 10.
Proof.
  destruct (accel_slot_range_2g 5347) as [_ H]; [unfold ACCEL_RAW_MIN, ACCEL_RAW_MAX; lia|].
  split; [vm_compute; reflexivity|].
  intros E. apply H in E. lia.
Defined.

(* ================================================================== *)
(** ** The colour sensor and the encoder's guard *)

Lemma channel_range buf lo hi : 0 <= Color.channel buf lo hi < 65536.
Proof. unfold Color.channel. apply (uint_range 16). lia. Qed.

Lemma encoded_color channel c prev :
  0 <= channel < 65536 -> 1 <= c < 65536 ->
  (if 0 <? uint32 c then uint8 (uint32 (smul32 channel 100) / uint32 c) else prev)
  = (channel * 100 / c) mod 256.
Proof.
  intros Hch Hc.
  assert (Ec : uint32 c = c) by (apply Z.mod_small; lia).
  rewrite Ec. replace (0 <? c) with true by (symmetry; apply Z.ltb_lt; lia).
  unfold smul32. rewrite int32_small by lia.
  replace (uint32 (channel * 100)) with (channel * 100)
    by (symmetry; apply Z.mod_small; lia).
  reflexivity.
Qed.

(** After any successful read of the colour sensor the clear slot lies
    between 1 and 65535, because the driver replaces a zero by one; so the
    encoder's guard is open, the three colour bytes are recomputed from
    this reading as [channel * 100 / clear] modulo 256 and not carried over
    from the record before, and a channel that does not exceed the clear
    channel gives a byte of at most 100. *)
Theorem color_read_opens_encoder_guard
    (xfer : i2c_xfer) (m : system_measurement) (md : Main.main_measurement) :
  0 <= i2c_ret xfer ->
  let m' := read_color_sensor xfer m in
  1 <= clear m' <= 65535
  /\ exists r,
       Main.get_measurements m' md = Some r
       /\ color_bytes r = ((red m' * 100 / clear m') mod 256,
                           (green m' * 100 / clear m') mod 256,
                           (blue m' * 100 / clear m') mod 256)
       /\ (red m' <= clear m' ->
           Main.r_norm r = red m' * 100 / clear m' /\ Main.r_norm r <= 100).
Proof.
  intros Hret m'.
  assert (Hm' : m' = set_color m (Color.channel (i2c_buf xfer) 2 3)
                       (Color.channel (i2c_buf xfer) 4 5)
                       (Color.channel (i2c_buf xfer) 6 7)
                       (if Color.channel (i2c_buf xfer) 0 1 =? 0 then 1
                        else Color.channel (i2c_buf xfer) 0 1)).
  { subst m'. unfold read_color_sensor, Color.color_read_rgb.
    replace (i2c_ret xfer <? 0) with false by (symmetry; apply Z.ltb_ge; lia).
    reflexivity. }
  pose proof (channel_range (i2c_buf xfer) 0 1) as Hc.
  pose proof (channel_range (i2c_buf xfer) 2 3) as Hr.
  pose proof (channel_range (i2c_buf xfer) 4 5) as Hg.
  pose proof (channel_range (i2c_buf xfer) 6 7) as Hb.
  assert (Hclear : 1 <= clear m' <= 65535).
  { rewrite Hm'. cbn [clear set_color].
    destruct (Color.channel (i2c_buf xfer) 0 1 =? 0) eqn:E; [lia|].
    apply Z.eqb_neq in E. lia. }
  assert (Hred : 0 <= red m' < 65536) by (rewrite Hm'; exact Hr).
  assert (Hgreen : 0 <= green m' < 65536) by (rewrite Hm'; exact Hg).
  assert (Hblue : 0 <= blue m' < 65536) by (rewrite Hm'; exact Hb).
  split; [exact Hclear|].
  exists (encoded m' md). split; [apply get_measurements_encoded|].
  unfold color_bytes, encoded. cbn [Main.r_norm Main.g_norm Main.b_norm].
  rewrite !encoded_color by lia.
  split; [reflexivity|].
  intros Hle.
  assert (Hq : 0 <= red m' * 100 / clear m' <= 100).
  { split; [apply Z.div_pos; lia|].
    apply Z.div_le_upper_bound; lia. }
  rewrite Z.mod_small by lia. split; [reflexivity|lia].
Qed.

Lemma color_read_opens_encoder_guard_witness :
  let m' := read_color_sensor (i2c_ok [0; 0; 0; 0; 0; 0; 0; 0]) scenario_store in
  clear m' = 1
  /\ exists r,
       Main.get_measurements m' (encoded scenario_store Main.main_data_init) = Some r
       /\ color_bytes r = (0, 0, 0).
Proof.
  destruct (color_read_opens_encoder_guard (i2c_ok [0; 0; 0; 0; 0; 0; 0; 0]) scenario_store
              (encoded scenario_store Main.main_data_init)) as (_ & r & Hr & Hc & _);
    [cbn; lia|].
  split; [reflexivity|].
  exists r. split; [exact Hr|]. rewrite Hc. reflexivity.
Defined.

(* ================================================================== *)
(** ** The LED bus *)

Lemma pin_bit_testbit value i : pin_bit value i = Z.b2z (Z.testbit value (Z.of_nat i)).
Proof.
  unfold pin_bit.
  change 1 with (Z.ones 1). rewrite Z.land_ones by lia. change (2 ^ 1) with 2.
  rewrite <- Z.bit0_mod, Z.shiftr_spec by lia. reflexivity.
Qed.

Lemma pin_bit_mod value n i :
  (i < n)%nat -> pin_bit (value mod 2 ^ Z.of_nat n) i = pin_bit value i.
Proof.
  intros H. rewrite !pin_bit_testbit, Z.mod_pow2_bits_low by lia. reflexivity.
Qed.

Lemma rgb_led_write_from_spec gpio value :
  forall todo i,
    let r := RgbLed.rgb_led_write_from gpio value i todo in
    (fst r = 0
     /\ snd r = led_calls_from value i todo
     /\ forall j, (i <= j < i + todo)%nat -> gpio j (pin_bit value j) = 0)
    \/ exists k,
         (k < todo)%nat
         /\ snd r = led_calls_from value i (S k)
         /\ fst r = gpio (i + k)%nat (pin_bit value (i + k))
         /\ fst r <> 0
         /\ forall j, (i <= j < i + k)%nat -> gpio j (pin_bit value j) = 0.
Proof.
  induction todo as [|todo IH]; intros i r.
  - left. subst r. cbn. repeat split. intros j Hj. lia.
  - subst r. cbn [RgbLed.rgb_led_write_from]. fold (pin_bit value i).
    destruct (gpio i (pin_bit value i) =? 0) eqn:E.
    + apply Z.eqb_eq in E.
      specialize (IH (S i)). cbv zeta in IH.
      destruct (RgbLed.rgb_led_write_from gpio value (S i) todo) as [ret calls].
      cbn [fst snd] in *.
      destruct IH as [(Hr & Hc & Hall)|(k & Hk & Hc & Hr & Hne & Hall)].
      * left. repeat split; [exact Hr|rewrite Hc; reflexivity|].
        intros j Hj. destruct (Nat.eq_dec j i) as [->|Hji]; [exact E|].
        apply Hall. lia.
      * right. exists (S k). repeat split.
        -- lia.
        -- rewrite Hc. reflexivity.
        -- rewrite Hr. replace (i + S k)%nat with (S i + k)%nat by lia. reflexivity.
        -- exact Hne.
        -- intros j Hj. destruct (Nat.eq_dec j i) as [->|Hji]; [exact E|].
           apply Hall. lia.
    + apply Z.eqb_neq in E. right. exists 0%nat. cbn [fst snd].
      rewrite Nat.add_0_r. repeat split; [lia|exact E|].
      intros j Hj. lia.
Qed.

Lemma rgb_led_write_from_ext gpio v1 v2 :
  forall todo i,
    (forall j, (i <= j < i + todo)%nat -> pin_bit v1 j = pin_bit v2 j) ->
    RgbLed.rgb_led_write_from gpio v1 i todo = RgbLed.rgb_led_write_from gpio v2 i todo.
Proof.
  induction todo as [|todo IH]; intros i H; [reflexivity|].
  cbn [RgbLed.rgb_led_write_from]. fold (pin_bit v1 i). fold (pin_bit v2 i).
  rewrite (H i) by lia. rewrite (IH (S i)); [reflexivity|].
  intros j Hj. apply H. lia.
Qed.

(** A write to the LED bus sets the pins in order, pin [i] to bit [i] of
    the value, and stops at the first pin whose GPIO call fails: either all
    [pin_count] calls succeed and the result is 0, or the calls end with
    the failing pin [k], the result is that call's code, and the pins after
    [k] keep their old level.  Only the low [pin_count] bits of the value
    matter. *)
Theorem rgb_led_write_trace (gpio : nat -> Z -> Z) (pin_count : nat) (value : Z) :
  let r := RgbLed.rgb_led_write gpio pin_count value in
  ((fst r = 0
    /\ snd r = led_calls value pin_count
    /\ forall j, (j < pin_count)%nat -> gpio j (pin_bit value j) = 0)
   \/ exists k,
        (k < pin_count)%nat
        /\ snd r = led_calls value (S k)
        /\ fst r = gpio k (pin_bit value k)
        /\ fst r <> 0
        /\ forall j, (j < k)%nat -> gpio j (pin_bit value j) = 0)
  /\ RgbLed.rgb_led_write gpio pin_count (value mod 2 ^ Z.of_nat pin_count) = r.
Proof.
  intros r. split.
  - destruct (rgb_led_write_from_spec gpio value pin_count 0)
      as [(Hr & Hc & Hall)|(k & Hk & Hc & Hr & Hne & Hall)].
    + left. repeat split; [exact Hr|exact Hc|]. intros j Hj. apply Hall. lia.
    + right. exists k. repeat split; [exact Hk|exact Hc|exact Hr|exact Hne|].
      intros j Hj. apply Hall. lia.
  - subst r. unfold RgbLed.rgb_led_write. apply rgb_led_write_from_ext.
    intros j Hj. apply pin_bit_mod. lia.
Qed.

(* ================================================================== *)
(** ** Downlink commands *)

Lemma code_inj c1 c2 : code c1 = code c2 -> c1 = c2.
Proof.
  unfold code. intros H. apply N2Z.inj in H.
  rewrite <- (ascii_N_embedding c1), <- (ascii_N_embedding c2), H. reflexivity.
Qed.

Lemma strncmp_zero_iff n :
  forall s1 s2, MainApp.strncmp s1 s2 n = 0 <-> cstr (take n s1) = cstr (take n s2).
Proof.
  induction n as [|n IH]; intros s1 s2.
  - cbn. rewrite !take_0. split; reflexivity.
  - cbn [MainApp.strncmp].
    destruct (Ascii.eqb (first_char s1) (first_char s2)) eqn:E; cbn [negb].
    + apply Ascii.eqb_eq in E.
      destruct (Ascii.eqb (first_char s1) NUL) eqn:E1.
      * assert (E2 : Ascii.eqb (first_char s2) NUL = true) by (rewrite <- E; exact E1).
        destruct s1 as [|c1 t1], s2 as [|c2 t2]; cbn [first_char tl take cstr] in *;
          rewrite ?E1, ?E2; split; reflexivity.
      * assert (E2 : Ascii.eqb (first_char s2) NUL = false) by (rewrite <- E; exact E1).
        destruct s1 as [|c1 t1]; [discriminate E1|].
        destruct s2 as [|c2 t2]; [discriminate E2|].
        cbn [first_char tl take cstr] in *. rewrite E1, E2, IH. subst c2.
        split; [intros ->; reflexivity|intros [= H]; exact H].
    + assert (Hne : first_char s1 <> first_char s2)
        by (intros H; rewrite H, Ascii.eqb_refl in E; discriminate).
      split.
      * intros H. exfalso. apply Hne, code_inj. lia.
      * intros H. exfalso. apply Hne.
        destruct s1 as [|c1 t1], s2 as [|c2 t2]; cbn [first_char take cstr] in *.
        -- reflexivity.
        -- destruct (Ascii.eqb c2 NUL) eqn:E2;
             [apply Ascii.eqb_eq in E2; congruence|discriminate H].
        -- destruct (Ascii.eqb c1 NUL) eqn:E1;
             [apply Ascii.eqb_eq in E1; congruence|discriminate H].
        -- destruct (Ascii.eqb c1 NUL) eqn:E1, (Ascii.eqb c2 NUL) eqn:E2.
           ++ apply Ascii.eqb_eq in E1, E2. congruence.
           ++ discriminate H.
           ++ discriminate H.
           ++ injection H as H _. exact H.
Qed.

Lemma lacks_take c n : forall s, lacks c s = true -> lacks c (take n s) = true.
Proof.
  induction n as [|n IH]; intros [|x s] H; try reflexivity.
  cbn [take]. rewrite lacks_cons in *. apply andb_prop in H as [-> H].
  rewrite (IH s H). reflexivity.
Qed.

Lemma strncmp_literal d lit len :
  lacks NUL lit = true ->
  (MainApp.strncmp d lit len =? 0) = true <-> command_text d len = take len lit.
Proof.
  intros H. rewrite Z.eqb_eq, strncmp_zero_iff. unfold command_text.
  rewrite (cstr_lacks_NUL (take len lit)) by (apply lacks_take, H). reflexivity.
Qed.

(** A downlink command is matched over the received length only: the
    payload, cut at its first NUL, is compared with the first [len]
    characters of OFF, Green and Red in this order.  So any prefix of a
    command acts as the command, an empty payload turns the LED off, a
    payload that merely begins with a command does not match, and a NULL
    or unmatched payload makes no GPIO call. *)
Theorem dl_callback_matches_prefix (gpio : nat -> Z -> Z) (len : nat) (d : list ascii) :
  let text := command_text d len in
  let off := take len (str "OFF") in
  let green := take len (str "Green") in
  let red := take len (str "Red") in
  (text = off ->
   MainApp.dl_callback gpio len (Some d) = snd (RgbLed.rgb_led_off gpio RgbLed.BUS_SIZE))
  /\ (text <> off -> text = green ->
      MainApp.dl_callback gpio len (Some d) = snd (RgbLed.rgb_green gpio RgbLed.BUS_SIZE))
  /\ (text <> off -> text <> green -> text = red ->
      MainApp.dl_callback gpio len (Some d) = snd (RgbLed.rgb_red gpio RgbLed.BUS_SIZE))
  /\ (text <> off -> text <> green -> text <> red ->
      MainApp.dl_callback gpio len (Some d) = [])
  /\ MainApp.dl_callback gpio 0 (Some d) = snd (RgbLed.rgb_led_off gpio RgbLed.BUS_SIZE)
  /\ MainApp.dl_callback gpio len None = [].
Proof.
  intros text off green red.
  pose proof (strncmp_literal d (str "OFF") len eq_refl) as Hoff.
  pose proof (strncmp_literal d (str "Green") len eq_refl) as Hgreen.
  pose proof (strncmp_literal d (str "Red") len eq_refl) as Hred.
  fold text off in Hoff. fold text green in Hgreen. fold text red in Hred.
  unfold MainApp.dl_callback.
  destruct (MainApp.strncmp d (str "OFF") len =? 0) eqn:E1;
    [|destruct (MainApp.strncmp d (str "Green") len =? 0) eqn:E2;
      [|destruct (MainApp.strncmp d (str "Red") len =? 0) eqn:E3]].
  - assert (text = off) by (apply Hoff; reflexivity).
    repeat split; try reflexivity; intros; congruence.
  - assert (text <> off) by (intros H; apply Hoff in H; congruence).
    assert (text = green) by (apply Hgreen; reflexivity).
    repeat split; try reflexivity; intros; congruence.
  - assert (text <> off) by (intros H; apply Hoff in H; congruence).
    assert (text <> green) by (intros H'; apply Hgreen in H'; congruence).
    assert (text = red) by (apply Hred; reflexivity).
    repeat split; try reflexivity; intros; congruence.
  - assert (text <> off) by (intros H; apply Hoff in H; congruence).
    assert (text <> green) by (intros H'; apply Hgreen in H'; congruence).
    assert (text <> red) by (intros H'; apply Hred in H'; congruence).
    repeat split; try reflexivity; intros; congruence.
Qed.

Lemma dl_callback_matches_prefix_witness :
  MainApp.dl_callback gpio_ok 1 (Some (str "G")) = led_calls 2 3
  /\ MainApp.dl_callback gpio_ok 8 (Some (str "Greenish")) = [].
Proof.
  destruct (dl_callback_matches_prefix gpio_ok 1 (str "G")) as (_ & H1 & _).
  destruct (dl_callback_matches_prefix gpio_ok 8 (str "Greenish")) as (_ & _ & _ & H2 & _).
  split.
  - rewrite H1; [reflexivity|discriminate|reflexivity].
  - apply H2; discriminate.
Defined.

(* ================================================================== *)
(** ** Joining the network *)

Lemma join_loop_spec (join : nat -> Z) :
  forall n calls, (calls + n = 30)%nat ->
    exists ret c,
      (calls < c <= 31)%nat
      /\ (forall k, (calls <= k < c - 1)%nat -> join k < 0)
      /\ ((ret = 0 /\ 0 <= join (c - 1)%nat)
          \/ (ret = - MainApp.ETIMEDOUT /\ c = 31%nat /\ join 30%nat < 0))
      /\ forall fuel, (n < fuel)%nat ->
           MainApp.join_loop join calls (Z.of_nat calls) fuel = Some (ret, c).
Proof.
  induction n as [|n IH]; intros calls Hc.
  - assert (calls = 30%nat) by lia. subst calls.
    destruct (join 30%nat <? 0) eqn:E.
    + apply Z.ltb_lt in E. exists (- MainApp.ETIMEDOUT), 31%nat.
      split; [lia|]. split; [intros k Hk; lia|]. split; [right; auto|].
      intros [|fuel] Hf; [lia|]. cbn [MainApp.join_loop].
      replace (join 30%nat <? 0) with true by (symmetry; apply Z.ltb_lt; exact E).
      reflexivity.
    + exists 0, 31%nat. apply Z.ltb_ge in E.
      split; [lia|]. split; [intros k Hk; lia|]. split; [left; auto|].
      intros [|fuel] Hf; [lia|]. cbn [MainApp.join_loop].
      replace (join 30%nat <? 0) with false by (symmetry; apply Z.ltb_ge; exact E).
      reflexivity.
  - destruct (join calls <? 0) eqn:E.
    + destruct (IH (S calls) ltac:(lia)) as (ret & c & Hrange & Hfail & Hres & Hrun).
      exists ret, c. apply Z.ltb_lt in E.
      split; [lia|]. split; [|split; [exact Hres|]].
      * intros k Hk. destruct (Nat.eq_dec k calls) as [->|Hne]; [exact E|].
        apply Hfail. lia.
      * intros [|fuel] Hf; [lia|]. cbn [MainApp.join_loop].
        replace (join calls <? 0) with true by (symmetry; apply Z.ltb_lt; exact E).
        assert (Hu : uint8 (Z.of_nat calls + 1) = Z.of_nat (S calls)).
        { unfold uint8, uint. rewrite Z.mod_small; lia. }
        rewrite Hu.
        replace (MainApp.NUM_MAX_RETRIES <? Z.of_nat (S calls)) with false
          by (symmetry; apply Z.ltb_ge; unfold MainApp.NUM_MAX_RETRIES; lia).
        apply Hrun. lia.
    + exists 0, (S calls). apply Z.ltb_ge in E.
      split; [lia|]. split; [intros k Hk; lia|].
      split; [left; split; [reflexivity|]; replace (S calls - 1)%nat with calls by lia;
              exact E|].
      intros [|fuel] Hf; [lia|]. cbn [MainApp.join_loop].
      replace (join calls <? 0) with false by (symmetry; apply Z.ltb_ge; exact E).
      reflexivity.
Qed.

(** The join loop ends after at most 31 calls of [lorawan_join], whatever
    they return: it returns 0 at the first call that does not fail, and
    the timeout code when the first 31 calls all fail; the retry counter
    never reaches the point where its eight bits would wrap. *)
Theorem join_lorawan_attempts (join : nat -> Z) :
  exists ret calls,
    (forall fuel, (31 <= fuel)%nat -> MainApp.join_lorawan join fuel = Some (ret, calls))
    /\ (1 <= calls <= 31)%nat
    /\ (forall k, (k < calls - 1)%nat -> join k < 0)
    /\ ((ret = 0 /\ 0 <= join (calls - 1)%nat)
        \/ (ret = - MainApp.ETIMEDOUT /\ calls = 31%nat /\ join 30%nat < 0)).
Proof.
  destruct (join_loop_spec join 30 0 eq_refl) as (ret & c & Hrange & Hfail & Hres & Hrun).
  exists ret, c. split; [|split; [lia|split; [|exact Hres]]].
  - intros fuel Hf. apply (Hrun fuel). lia.
  - intros k Hk. apply Hfail. lia.
Qed.

(* ================================================================== *)
(** ** Division faults of the analogue channels *)

(** The two divisions of the analogue path are unguarded: a reading
    faults exactly when the conversion succeeds and either the full-scale
    divisor or the reference voltage is zero; a resolution of zero bits
    makes the divisor zero.  A failed conversion returns before either
    division. *)
Theorem adc_fault_iff
    (cfg : Adc.adc_config) (hw : Adc.adc_hw) (mv : Z)
    (target : system_measurement -> Z -> system_measurement) (m : system_measurement) :
  let full := int32 (int32 (Z.shiftl 1 (Adc.resolution cfg)) - 1) in
  (read_adc_percentage cfg hw target mv m = None
   <-> (0 <= Adc.setup_ret hw /\ 0 <= Adc.read_ret hw
        /\ (full = 0 \/ Adc.vref_mv cfg = 0)))
  /\ (Adc.resolution cfg = 0 -> full = 0).
Proof.
  intros full. split; [|intros H; subst full; rewrite H; reflexivity].
  unfold read_adc_percentage, Adc.adc_read_voltage, Adc.adc_read_raw.
  destruct (Adc.setup_ret hw <? 0) eqn:E1.
  { rewrite E1. apply Z.ltb_lt in E1.
    replace (Adc.setup_ret hw =? 0) with false by (symmetry; apply Z.eqb_neq; lia).
    split; [discriminate|lia]. }
  destruct (Adc.read_ret hw <? 0) eqn:E2.
  { rewrite E2. apply Z.ltb_lt in E2.
    replace (Adc.read_ret hw =? 0) with false by (symmetry; apply Z.eqb_neq; lia).
    split; [discriminate|lia]. }
  apply Z.ltb_ge in E1, E2. cbn [Z.ltb Z.compare]. unfold sdiv32. fold full.
  destruct (full =? 0) eqn:Ef.
  { apply Z.eqb_eq in Ef. split; [intros _; auto|reflexivity]. }
  apply Z.eqb_neq in Ef. cbn [Z.eqb].
  destruct (Adc.vref_mv cfg =? 0) eqn:Ev.
  - apply Z.eqb_eq in Ev. split; [intros _; auto|reflexivity].
  - apply Z.eqb_neq in Ev. split; [discriminate|].
    intros (_ & _ & [H|H]); contradiction.
Qed.

Lemma adc_fault_iff_witness :
  read_adc_percentage
    {| Adc.channel_id := 5; Adc.resolution := 0;
       Adc.acquisition_time := 0; Adc.vref_mv := 3300 |}
    (adc_sample 0) set_brightness 0 scenario_store = None.
Proof.
  destruct (adc_fault_iff
              {| Adc.channel_id := 5; Adc.resolution := 0;
                 Adc.acquisition_time := 0; Adc.vref_mv := 3300 |}
              (adc_sample 0) 0 set_brightness scenario_store) as [H Hres].
  apply H. cbn [adc_sample Adc.setup_ret Adc.read_ret].
  repeat split; [lia|lia|]. left. apply Hres. reflexivity.
Defined.

(* ================================================================== *)
(** ** The payload *)

Lemma le_bytes_length n : forall z, length (le_bytes n z) = n.
Proof. induction n as [|n IH]; intros z; [reflexivity|]. cbn. rewrite IH. reflexivity. Qed.

Lemma le_bytes_range n : forall z, Forall (fun b => 0 <= b < 256) (le_bytes n z).
Proof.
  induction n as [|n IH]; intros z; [constructor|].
  cbn [le_bytes]. constructor; [apply Z.mod_pos_bound; lia|apply IH].
Qed.

Lemma le_bytes4_inj x y :
  - 2 ^ 31 <= x < 2 ^ 31 -> - 2 ^ 31 <= y < 2 ^ 31 ->
  le_bytes 4 x = le_bytes 4 y -> x = y.
Proof.
  intros Hx Hy. cbn [le_bytes]. intros [= H0 H1 H2 H3].
  change (2 ^ 31) with 2147483648 in *.
  Z.div_mod_to_equations. lia.
Qed.

Lemma le_bytes2_inj x y :
  - 2 ^ 15 <= x < 2 ^ 16 -> - 2 ^ 15 <= y < 2 ^ 16 ->
  (x < 2 ^ 15 <-> y < 2 ^ 15) \/ (0 <= x /\ 0 <= y) ->
  le_bytes 2 x = le_bytes 2 y -> x = y.
Proof.
  intros Hx Hy Hs. cbn [le_bytes]. intros [= H0 H1].
  change (2 ^ 15) with 32768 in *. change (2 ^ 16) with 65536 in *.
  Z.div_mod_to_equations. lia.
Qed.

Lemma le_bytes1_inj x y :
  - 128 <= x < 256 -> - 128 <= y < 256 ->
  (x < 128 /\ y < 128) \/ (0 <= x /\ 0 <= y) ->
  le_bytes 1 x = le_bytes 1 y -> x = y.
Proof.
  intros Hx Hy Hs. cbn [le_bytes]. intros [= H0].
  Z.div_mod_to_equations. lia.
Qed.

Lemma encoded_ok m md : record_ok md -> record_ok (encoded m md).
Proof.
  intros (_ & _ & _ & _ & _ & _ & _ & _ & _ & Hr & Hg & Hb & _).
  unfold record_ok, encoded. cbn.
  pose proof (fun z => sint_range 32 z ltac:(lia)) as H32.
  pose proof (fun z => sint_range 16 z ltac:(lia)) as H16.
  pose proof (fun z => sint_range 8 z ltac:(lia)) as H8.
  pose proof (fun z => uint_range 8 z ltac:(lia)) as U8.
  pose proof (fun z => uint_range 16 z ltac:(lia)) as U16.
  change (2 ^ (32 - 1)) with (2 ^ 31) in H32.
  change (2 ^ (16 - 1)) with (2 ^ 15) in H16.
  change (2 ^ (8 - 1)) with 128 in H8.
  change (2 ^ 8) with 256 in U8.
  repeat split;
    try apply H32; try apply H16; try apply H8; try apply U8; try apply U16;
    try (destruct (0 <? uint32 (clear m)); [apply U8|lia]).
  eexists _, _, _. repeat split; apply U8.
Qed.

Lemma main_data_bytes_inj d1 d2 :
  record_ok d1 -> record_ok d2 ->
  Main.main_data_bytes d1 = Main.main_data_bytes d2 -> d1 = d2.
Proof.
  intros (A1 & A2 & A3 & (t0 & t1 & t2 & At & At0 & At1 & At2) & A5 & A6 & A7 & A8
          & A9 & A10 & A11 & A12 & A13 & A14 & A15)
         (B1 & B2 & B3 & (u0 & u1 & u2 & Bt & Bt0 & Bt1 & Bt2) & B5 & B6 & B7 & B8
          & B9 & B10 & B11 & B12 & B13 & B14 & B15).
  unfold Main.main_data_bytes. rewrite At, Bt. cbn [map]. intros H.
  repeat match type of H with
         | le_bytes ?n _ ++ _ = le_bytes ?n _ ++ _ =>
             apply app_inj_1 in H; [|rewrite !le_bytes_length; reflexivity];
             let E := fresh "E" in destruct H as [E H]
         | [_; _; _] ++ _ = [_; _; _] ++ _ =>
             apply app_inj_1 in H; [|reflexivity];
             let E := fresh "E" in destruct H as [E H]
         end.
  apply le_bytes4_inj in E, E0, E1; try assumption.
  injection E2 as T0 T1 T2.
  rewrite !Z.mod_small in T0, T1, T2 by assumption.
  apply le_bytes1_inj in E3; [|lia..].
  apply le_bytes2_inj in E4; [|lia..].
  apply le_bytes2_inj in E5, E6, E7; [|lia..].
  apply le_bytes1_inj in E8, E9, E10; [|lia..].
  apply le_bytes1_inj in E11, E12, H; [|lia..].
  destruct d1, d2. cbn in *. subst. reflexivity.
Qed.

(** What the encoder hands to the radio is 30 bytes, each between 0 and
    255, and the bytes determine the record: two records the encoder
    produces that differ in any field differ in some byte, so the packing
    loses nothing of the record. *)
Theorem payload_determines_record
    (m1 m2 : system_measurement) (md1 md2 r1 r2 : Main.main_measurement) :
  record_ok md1 -> record_ok md2 ->
  Main.get_measurements m1 md1 = Some r1 ->
  Main.get_measurements m2 md2 = Some r2 ->
  length (Main.main_data_bytes r1) = 30%nat
  /\ Forall (fun b => 0 <= b < 256) (Main.main_data_bytes r1)
  /\ (Main.main_data_bytes r1 = Main.main_data_bytes r2 -> r1 = r2).
Proof.
  intros Hmd1 Hmd2 H1 H2.
  rewrite get_measurements_encoded in H1, H2.
  injection H1 as <-. injection H2 as <-.
  pose proof (encoded_ok m1 md1 Hmd1) as Hok1.
  pose proof (encoded_ok m2 md2 Hmd2) as Hok2.
  split; [|split].
  - unfold Main.main_data_bytes. rewrite !length_app, !le_bytes_length, length_map.
    reflexivity.
  - unfold Main.main_data_bytes.
    repeat (apply Forall_app; split); try apply le_bytes_range.
    unfold encoded. cbn [Main.time map].
    repeat constructor; apply Z.mod_pos_bound; lia.
  - apply main_data_bytes_inj; assumption.
Qed.

Lemma main_data_init_ok : record_ok Main.main_data_init.
Proof.
  unfold record_ok. cbn.
  repeat split; try lia.
  exists 0, 0, 0. repeat split; lia.
Qed.

Lemma payload_determines_record_witness :
  length (Main.main_data_bytes (encoded scenario_store Main.main_data_init)) = 30%nat
  /\ (Main.main_data_bytes (encoded scenario_store Main.main_data_init)
      = Main.main_data_bytes (encoded dark_store Main.main_data_init) ->
      encoded scenario_store Main.main_data_init = encoded dark_store Main.main_data_init).
Proof.
  destruct (payload_determines_record scenario_store dark_store
              Main.main_data_init Main.main_data_init
              (encoded scenario_store Main.main_data_init)
              (encoded dark_store Main.main_data_init)) as (H1 & _ & H3).
  - exact main_data_init_ok.
  - exact main_data_init_ok.
  - apply get_measurements_encoded.
  - apply get_measurements_encoded.
  - split; [exact H1|exact H3].
Defined.

(* ================================================================== *)
(** ** From the serial line to the radio *)

Lemma gps_pass_sats st data measure :
  parsed_sem st <> 0%nat ->
  gps_sats (gps_pass st data measure) = int32 (sats (parsed_data st)).
Proof.
  intros Hsem. unfold gps_pass, read_gps_data.
  destruct (gps_wait_for_gga_success st data Hsem) as (st' & -> & _).
  cbn [Z.eqb].
  destruct (feqb _ _ && feqb _ _ && feqb _ _);
    destruct (6 <=? strlen (utc_time (parsed_data st)))%nat; reflexivity.
Qed.

(** A well-formed GGA line that arrives on the serial line between ['$']
    and the terminator, with six digits of time and at least eight
    fields, is reassembled, parsed, handed over, stored and encoded so
    that the payload carries the time bytes hh+1, mm, ss and the low byte
    of the satellite count that libc reads from field 7. *)
Theorem gga_stream_reaches_payload {libc : LibC}
    (st : gps_state) (data : gps_data_t) (measure : system_measurement)
    (md : Main.main_measurement)
    (ys f0 f2 f3 f4 f5 f6 f7 trest : list ascii) (a b c d e f : ascii)
    (rest : list (list ascii)) :
  let fs := f0 :: (a :: b :: c :: d :: e :: f :: trest) :: f2 :: f3 :: f4 :: f5
               :: f6 :: f7 :: rest in
  gps_state_ok st ->
  lacks (chr "$") ys = true ->
  lacks newline ys = true ->
  framed ys = join fs ->
  sentence_ok fs = true ->
  recognized (join fs) = true ->
  strstr f0 (str "GGA") = true ->
  forallb is_digit [a; b; c; d; e; f] = true ->
  let m' := gps_pass (uart_isr st (framed ys)) data measure in
  exists r,
    Main.get_measurements m' md = Some r
    /\ Main.time r = [two_digits a b + 1; two_digits c d; two_digits e f]
    /\ Main.sats r = uint8 (int32 (atoi f7)).
Proof.
  intros fs Hok Hyd Hyn Hframe Hfs Hrec Hgga Hdig m'.
  assert (Hparts : forallb field_ok fs = true /\ (length (join fs) <= BUF_SIZE - 1)%nat).
  { unfold sentence_ok in Hfs.
    apply andb_prop in Hfs as [Hfs Hlen]. apply andb_prop in Hfs as [Hfs _].
    apply Nat.leb_le in Hlen. split; assumption. }
  destruct Hparts as [Hfields Hlen].
  assert (Hline : framed_line ys = join fs).
  { unfold framed_line. rewrite Hframe, take_ge by exact Hlen.
    apply cstr_lacks_NUL, join_lacks_NUL, Hfields. }
  assert (Hparse : exists r, parse_gga (join fs) = Some r
                             /\ utc_time r = a :: b :: c :: d :: e :: f :: take 9 trest
                             /\ sats r = atoi f7).
  { unfold parse_gga. subst fs. rewrite (split_fields_join _ _ Hfs).
    cbn [lookup list_lookup]. rewrite Hgga. cbn [negb].
    eexists. split; [reflexivity|]. split; reflexivity. }
  destruct Hparse as (r & Hparse & Htime & Hsats).
  destruct (uart_isr_framed_published st ys r Hok Hyd Hyn) as [_ Hbox];
    [rewrite Hline; exact Hrec|rewrite Hline; exact Hparse|].
  assert (Hdata : parsed_data (uart_isr st (framed ys)) = r)
    by (unfold mailbox in Hbox; congruence).
  assert (Hne : parsed_sem (uart_isr st (framed ys)) <> 0%nat)
    by (unfold mailbox in Hbox; congruence).
  exists (encoded m' md).
  split; [apply get_measurements_encoded|]. split.
  - apply encoded_time_digits; [exact Hdig|].
    subst m'. apply (gps_pass_time _ _ _ _ _ _ _ _ _ (take 9 trest) Hne); [|exact Hdig].
    rewrite Hdata. exact Htime.
  - unfold encoded. cbn [Main.sats]. subst m'.
    rewrite (gps_pass_sats _ _ _ Hne), Hdata, Hsats. reflexivity.
Qed.

Lemma gga_stream_reaches_payload_witness :
  exists r,
    Main.get_measurements
      (gps_pass (uart_isr (libc := libc_digits) gps_state_init (framed first_fix))
                gps_data_zero scenario_store)
      Main.main_data_init = Some r
    /\ Main.time r = [13; 35; 19]
    /\ Main.sats r = 8.
Proof.
  pose proof (gga_stream_reaches_payload (libc := libc_digits)
                gps_state_init gps_data_zero scenario_store Main.main_data_init
                first_fix (str "$GPGGA") (str "4807.038") (str "N") (str "01131.000")
                (str "E") (str "1") (str "08") []
                (chr "1") (chr "2") (chr "3") (chr "5") (chr "1") (chr "9")
                [str "0.9"; str "545.4"; str "M"; str "46.9"; str "M"; [];
                 str "*47" ++ [newline]]) as W.
  cbv zeta in W.
  assert (H0 : gps_state_ok gps_state_init) by exact gps_state_init_ok.
  assert (H1 : lacks (chr "$") first_fix = true) by (vm_compute; reflexivity).
  assert (H2 : lacks newline first_fix = true) by (vm_compute; reflexivity).
  specialize (W H0 H1 H2).
  assert (H3 : framed first_fix
               = join (str "$GPGGA" :: str "123519" :: str "4807.038" :: str "N"
                         :: str "01131.000" :: str "E" :: str "1" :: str "08"
                         :: [str "0.9"; str "545.4"; str "M"; str "46.9"; str "M"; [];
                             str "*47" ++ [newline]]))
    by (vm_compute; reflexivity).
  specialize (W H3).
  assert (H4 : sentence_ok
                 (str "$GPGGA" :: str "123519" :: str "4807.038" :: str "N"
                    :: str "01131.000" :: str "E" :: str "1" :: str "08"
                    :: [str "0.9"; str "545.4"; str "M"; str "46.9"; str "M"; [];
                        str "*47" ++ [newline]]) = true)
    by (vm_compute; reflexivity).
  specialize (W H4).
  assert (H5 : recognized
                 (join (str "$GPGGA" :: str "123519" :: str "4807.038" :: str "N"
                          :: str "01131.000" :: str "E" :: str "1" :: str "08"
                          :: [str "0.9"; str "545.4"; str "M"; str "46.9"; str "M"; [];
                              str "*47" ++ [newline]])) = true)
    by (vm_compute; reflexivity).
  specialize (W H5).
  assert (H6 : strstr (str "$GPGGA") (str "GGA") = true) by (vm_compute; reflexivity).
  assert (H7 : forallb is_digit [chr "1"; chr "2"; chr "3"; chr "5"; chr "1"; chr "9"] = true)
    by (vm_compute; reflexivity).
  destruct (W H6 H7) as (r & Hr & Ht & Hs).
  exists r. split; [exact Hr|]. split; [rewrite Ht; reflexivity|].
  rewrite Hs. reflexivity.
Defined.

(* ================================================================== *)
(** ** What the parser checks, and what the configuration rules out *)

(** The parser accepts exactly the lines that carry GGA in their first
    field and have at least six fields, as seen in the first 127
    characters of the line: nothing else is checked, neither the
    checksum, nor the fix quality, nor that a field holds a number. *)
Theorem parse_gga_accepts_iff {libc : LibC} (line : list ascii) :
  (exists r, parse_gga line = Some r) <-> ~ malformed (copied line).
Proof.
  split.
  - intros [r Hr] Hbad. rewrite (parse_gga_malformed line Hbad) in Hr. discriminate.
  - apply parse_gga_accepts.
Qed.

Lemma read_adc_percentage_total cfg hw target mv m :
  int32 (int32 (Z.shiftl 1 (Adc.resolution cfg)) - 1) <> 0 ->
  Adc.vref_mv cfg <> 0 ->
  exists r, read_adc_percentage cfg hw target mv m = Some r.
Proof.
  intros Hf Hv. apply Z.eqb_neq in Hf, Hv.
  unfold read_adc_percentage, Adc.adc_read_voltage.
  destruct (Adc.adc_read_raw hw 0) as [ret raw].
  destruct (ret <? 0).
  - destruct (ret =? 0); [|eexists; reflexivity].
    unfold sdiv32. rewrite Hv. eexists. reflexivity.
  - unfold sdiv32. rewrite Hf. cbn [Z.eqb]. rewrite Hv. eexists. reflexivity.
Qed.

(** With the two channels as [main.c] configures them (12 bits, 3300 mV)
    a pass of the environment worker never divides by zero, whatever the
    converter and the bus deliver, and it leaves the position slots as
    they were. *)
Theorem sensors_pass_never_faults
    (inp : sensor_inputs) (mv : Z) (m : system_measurement) :
  exists mv' m',
    sensors_pass main_context inp mv m = Some (mv', m')
    /\ gps_slots m' = gps_slots m.
Proof.
  assert (Hpass : exists r, sensors_pass main_context inp mv m = Some r).
  { unfold sensors_pass.
    destruct (read_adc_percentage_total (phototransistor main_context) (pt_hw inp)
                set_brightness mv m) as [[mv1 m1] ->]; [discriminate..|].
    destruct (read_adc_percentage_total (soil_moisture main_context) (sm_hw inp)
                set_moisture mv1 m1) as [[mv2 m2] ->]; [discriminate..|].
    eexists. reflexivity. }
  destruct Hpass as [[mv' m'] Hpass]. exists mv', m'.
  split; [exact Hpass|].
  apply (sensors_pass_frame _ gps_slots) with (6 := Hpass); reflexivity.
Qed.

(* ================================================================== *)
(** ** The encoder in the running program *)

Lemma read_color_sensor_clear xfer m :
  clear (read_color_sensor xfer m) = clear m
  \/ 1 <= clear (read_color_sensor xfer m) <= 65535.
Proof.
  unfold read_color_sensor, Color.color_read_rgb.
  destruct (i2c_ret xfer <? 0) eqn:E.
  - left. apply Z.ltb_lt in E.
    replace (i2c_ret xfer =? 0) with false by (symmetry; apply Z.eqb_neq; lia).
    reflexivity.
  - right. cbn [Z.eqb fst snd Color.clear clear set_color].
    pose proof (channel_range (i2c_buf xfer) 0 1) as Hc.
    destruct (Color.channel (i2c_buf xfer) 0 1 =? 0) eqn:E0; [lia|].
    apply Z.eqb_neq in E0. lia.
Qed.

Lemma sensors_pass_clear ctx inp mv m mv' m' :
  sensors_pass ctx inp mv m = Some (mv', m') ->
  clear m' = clear m \/ 1 <= clear m' <= 65535.
Proof.
  unfold sensors_pass.
  destruct (read_adc_percentage _ _ set_brightness mv m) as [[mv1 m1]|] eqn:E1;
    [|discriminate].
  destruct (read_adc_percentage _ _ set_moisture mv1 m1) as [[mv2 m2]|] eqn:E2;
    [|discriminate].
  intros [= _ <-].
  assert (Hb : forall x v, clear (set_brightness x v) = clear x) by reflexivity.
  assert (Hm : forall x v, clear (set_moisture x v) = clear x) by reflexivity.
  destruct (read_color_sensor_clear (color_regs inp)
              (read_temperature_humidity (rh_regs inp) (temp_regs inp)
                 (read_accelerometer (accel_regs inp) (accel_range ctx) m2)))
    as [H|H]; [left|right; exact H].
  rewrite H.
  rewrite (read_temperature_humidity_frame _ clear) by reflexivity.
  rewrite (read_accelerometer_frame _ clear) by reflexivity.
  rewrite (read_adc_percentage_frame _ clear _ _ _ _ _ _ _ Hm E2).
  apply (read_adc_percentage_frame _ clear _ _ _ _ _ _ _ Hb E1).
Qed.

Lemma gps_pass_clear st data m : clear (gps_pass st data m) = clear m.
Proof.
  destruct (gps_pass_shape st data) as [->|(la & lo & al & sa & ti & ->)];
    reflexivity.
Qed.

Section Runs.
Context {libc : LibC}.

Lemma system_init_clear_guard : clear_guard system_init.
Proof. left. split; reflexivity. Qed.

Lemma step_clear_guard s e s' :
  clear_guard s -> step s e = Some s' -> clear_guard s'.
Proof.
  intros Hinv. destruct e as [fifo|inp| |]; cbn [step].
  - intros [= <-]. exact Hinv.
  - destruct (sensors_pass main_context inp (sys_mv s) (sys_measure s))
      as [[mv m']|] eqn:E; [|discriminate].
    intros [= <-]. unfold clear_guard in *. cbn [sys_measure sys_main_data].
    destruct (sensors_pass_clear _ _ _ _ _ _ E) as [H|H]; [|right; exact H].
    rewrite H. exact Hinv.
  - pose proof (gps_pass_clear (sys_gps s) (sys_gps_data s) (sys_measure s)) as H.
    unfold gps_pass in H.
    destruct (read_gps_data (sys_gps s) (sys_gps_data s) (sys_measure s))
      as [[st data] m'].
    intros [= <-]. unfold clear_guard in *. cbn [sys_measure sys_main_data snd] in *.
    rewrite H. exact Hinv.
  - rewrite get_measurements_encoded. intros [= <-].
    unfold clear_guard in *. cbn [sys_measure sys_main_data].
    destruct Hinv as [[H0 Hc]|H]; [left|right; exact H].
    split; [exact H0|].
    destruct (encoder_clear_zero (sys_measure s) (sys_main_data s) H0) as (r & Hr & Hcol).
    rewrite get_measurements_encoded in Hr. injection Hr as <-.
    rewrite Hcol. exact Hc.
Qed.

Lemma run_clear_guard es :
  forall s s', clear_guard s -> run es s = Some s' -> clear_guard s'.
Proof.
  induction es as [|e es IH]; intros s s' Hinv; cbn [run].
  - intros [= <-]. exact Hinv.
  - destruct (step s e) as [s1|] eqn:E; [|discriminate].
    apply IH. exact (step_clear_guard s e s1 Hinv E).
Qed.

End Runs.

(** C3. In every state the program reaches, whatever the peripherals
    answered and in whatever order the handler, the two workers and the
    encoder ran, a clear slot of zero makes the encoder produce a record
    whose three colour bytes are zero: the clear slot is zero only as long
    as no colour read has succeeded, and until then the record holds the
    zeros of its initialiser.  The encoder divides only under its guard,
    so for no store and record at all does it divide by zero. *)
Theorem clear_zero_gives_zero_color_bytes {libc : LibC}
    (es : list event) (s : system) :
  run es system_init = Some s ->
  clear (sys_measure s) = 0 ->
  (exists r,
     Main.get_measurements (sys_measure s) (sys_main_data s) = Some r
     /\ color_bytes r = (0, 0, 0))
  /\ forall measure main_data, Main.get_measurements measure main_data <> None.
Proof.
  intros Hrun Hclear. split.
  - pose proof (run_clear_guard es _ _ system_init_clear_guard Hrun) as Hinv.
    destruct (encoder_clear_zero (sys_measure s) (sys_main_data s) Hclear)
      as (r & Hr & Hcol).
    exists r. split; [exact Hr|]. rewrite Hcol.
    destruct Hinv as [[_ Hc]|H]; [exact Hc|lia].
  - intros measure main_data. rewrite get_measurements_encoded. discriminate.
Qed.

Lemma clear_zero_gives_zero_color_bytes_witness :
  let s := state_after (libc := libc_digits)
             [Sensors failed_inputs; Position; Encode; Encode] in
  clear (sys_measure s) = 0
  /\ exists r,
       Main.get_measurements (sys_measure s) (sys_main_data s) = Some r
       /\ color_bytes r = (0, 0, 0).
Proof.
  intros s.
  assert (Hrun : run (libc := libc_digits)
                   [Sensors failed_inputs; Position; Encode; Encode] system_init
                 = Some s) by (vm_compute; reflexivity).
  assert (Hclear : clear (sys_measure s) = 0) by (vm_compute; reflexivity).
  split; [exact Hclear|].
  exact (proj1 (clear_zero_gives_zero_color_bytes (libc := libc_digits) _ s Hrun Hclear)).
Defined.

(** C4. Two invocations of the encoder that find the same store contents
    produce the same record, byte for byte, whatever happened before
    either of them: the histories that led to the two states may differ in
    their events, in the number of earlier invocations and in what these
    left in the record.  An invocation that follows another on an
    unchanged store reproduces its record. *)
Theorem encoder_deterministic_on_store {libc : LibC}
    (es1 es2 : list event) (s1 s2 : system) :
  run es1 system_init = Some s1 ->
  run es2 system_init = Some s2 ->
  sys_measure s1 = sys_measure s2 ->
  exists r1 r2,
    Main.get_measurements (sys_measure s1) (sys_main_data s1) = Some r1
    /\ Main.get_measurements (sys_measure s2) (sys_main_data s2) = Some r2
    /\ r1 = r2
    /\ Main.main_data_bytes r1 = Main.main_data_bytes r2
    /\ Main.get_measurements (sys_measure s1) r1 = Some r1.
Proof.
  intros Hrun1 Hrun2 Hstore.
  pose proof (run_clear_guard es1 _ _ system_init_clear_guard Hrun1) as Hinv1.
  pose proof (run_clear_guard es2 _ _ system_init_clear_guard Hrun2) as Hinv2.
  assert (Hcase : uint32 (clear (sys_measure s1)) <> 0
                  \/ color_bytes (sys_main_data s1) = color_bytes (sys_main_data s2)).
  { unfold clear_guard in Hinv1, Hinv2. rewrite <- Hstore in Hinv2.
    destruct Hinv1 as [[H0 Hc1]|H1].
    - destruct Hinv2 as [[_ Hc2]|H2]; [right; congruence|lia].
    - left. unfold uint32, uint. rewrite Z.mod_small; lia. }
  destruct (encoder_same_colors (sys_measure s1) (sys_main_data s1) (sys_main_data s2)
              Hcase) as [Heq Hidem].
  exists (encoded (sys_measure s1) (sys_main_data s1)),
         (encoded (sys_measure s1) (sys_main_data s1)).
  split; [apply get_measurements_encoded|].
  split; [rewrite <- Hstore, <- Heq; apply get_measurements_encoded|].
  split; [reflexivity|]. split; [reflexivity|].
  apply Hidem, get_measurements_encoded.
Qed.

Lemma encoder_deterministic_on_store_witness :
  let s1 := state_after (libc := libc_digits)
              [Sensors sample_inputs; Position; Encode] in
  let s2 := state_after (libc := libc_digits)
              [Encode; Sensors failed_inputs; Encode; Sensors sample_inputs] in
  sys_main_data s1 <> sys_main_data s2
  /\ exists r,
       Main.get_measurements (sys_measure s1) (sys_main_data s1) = Some r
       /\ Main.get_measurements (sys_measure s2) (sys_main_data s2) = Some r.
Proof.
  intros s1 s2.
  assert (Hrun1 : run (libc := libc_digits)
                    [Sensors sample_inputs; Position; Encode] system_init = Some s1)
    by (vm_compute; reflexivity).
  assert (Hrun2 : run (libc := libc_digits)
                    [Encode; Sensors failed_inputs; Encode; Sensors sample_inputs]
                    system_init = Some s2)
    by (vm_compute; reflexivity).
  assert (Hstore : sys_measure s1 = sys_measure s2) by (vm_compute; reflexivity).
  split; [vm_compute; discriminate|].
  destruct (encoder_deterministic_on_store (libc := libc_digits) _ _ s1 s2
              Hrun1 Hrun2 Hstore) as (r1 & r2 & H1 & H2 & Heq & _).
  exists r1. split; [exact H1|]. rewrite Heq. exact H2.
Defined.

